(** * Segment-to-discount resolution and order-line construction

    A shallow embedding of the discount pipeline of the discount-editor
    application: the identifier normalisers, the segment matcher, the plan
    selector, the rule resolver, the collection-metadata fallback, the
    discount calculator and the draft-order submission.

    Conventions of the embedding.
    - A JavaScript [number] is an exact rational in canonical form ([Qc]):
      comparisons are those of the source; IEEE-754 rounding, NaN and the
      infinities are outside the model.
    - A JavaScript string is a [string] of 8-bit characters; [toLowerCase]
      and [toUpperCase] act on the ASCII letters.
    - An object used as a dictionary is an association list in insertion
      order (the enumeration order of [Object.keys] for keys that are not
      array indices); its reading as a finite map is a [gmap].
    - A call to an external collaborator (customer service, plan store,
      order sink) is answered by a field of a [World] record and leaves an
      [Event] in the trace of the request. *)

From Stdlib Require Import ZArith QArith Qcanon String Ascii List Permutation Lia Lqa DecimalString.
From stdpp Require Import base gmap strings list.

Open Scope string_scope.

(** ** Primitives of the host language *)

Module JS.

Abbreviation number := Qc (only parsing).

Definition num (z : Z) : number := Q2Qc (inject_Z z).

(** [a > b] on numbers. *)
Definition gt (a b : number) : bool :=
  match (a ?= b)%Qc with Gt => true | _ => false end.

(** [Math.max(a, b)]. *)
Definition Math_max (a b : number) : number := if gt b a then b else a.

(** [x || d] on a possibly missing number: [undefined] and [0] are falsy. *)
Definition orDefault (x : option number) (d : number) : number :=
  match x with
  | Some v => if Qc_eq_bool v (num 0) then d else v
  | None => d
  end.

(** [s.startsWith(p)]. *)
Definition startsWith (s p : string) : bool := String.prefix p s.

(** [s.includes(t)]. *)
Fixpoint includes (s t : string) : bool :=
  String.prefix t s ||
  match s with
  | EmptyString => false
  | String _ s' => includes s' t
  end.

Fixpoint dropChars (n : nat) (s : string) : string :=
  match n, s with
  | O, _ => s
  | S n', String _ s' => dropChars n' s'
  | S _, EmptyString => EmptyString
  end.

(** [s.replace(p, "")] for a string pattern: the first occurrence goes. *)
Fixpoint removeFirst (s p : string) : string :=
  if String.prefix p s then dropChars (String.length p) s
  else match s with
       | EmptyString => EmptyString
       | String c s' => String c (removeFirst s' p)
       end.

Definition isUpper (c : ascii) : bool :=
  ((65 <=? nat_of_ascii c) && (nat_of_ascii c <=? 90))%nat.

Definition isLower (c : ascii) : bool :=
  ((97 <=? nat_of_ascii c) && (nat_of_ascii c <=? 122))%nat.

Definition isDigit (c : ascii) : bool :=
  ((48 <=? nat_of_ascii c) && (nat_of_ascii c <=? 57))%nat.

Definition lowerChar (c : ascii) : ascii :=
  if isUpper c then ascii_of_nat (nat_of_ascii c + 32) else c.

Definition upperChar (c : ascii) : ascii :=
  if isLower c then ascii_of_nat (nat_of_ascii c - 32) else c.

Fixpoint mapChars (f : ascii -> ascii) (s : string) : string :=
  match s with
  | EmptyString => EmptyString
  | String c s' => String (f c) (mapChars f s')
  end.

Definition toLowerCase (s : string) : string := mapChars lowerChar s.
Definition toUpperCase (s : string) : string := mapChars upperChar s.

(** [s.charAt(0).toUpperCase() + s.slice(1)]. *)
Definition capitalize (s : string) : string :=
  match s with
  | EmptyString => EmptyString
  | String c s' => String (upperChar c) s'
  end.

(** [s.replace(/\D/g, '')]. *)
Fixpoint digitsOnly (s : string) : string :=
  match s with
  | EmptyString => EmptyString
  | String c s' => if isDigit c then String c (digitsOnly s') else digitsOnly s'
  end.

Fixpoint allDigits (s : string) : bool :=
  match s with
  | EmptyString => true
  | String c s' => isDigit c && allDigits s'
  end.

(** [/^\d+$/.test(s)]. *)
Definition isNumeric (s : string) : bool :=
  match s with
  | EmptyString => false
  | _ => allDigits s
  end.


(** The longest run of digits at the head of [s]: what [(\d+)] captures. *)
Fixpoint takeDigits (s : string) : string :=
  match s with
  | EmptyString => EmptyString
  | String c s' => if isDigit c then String c (takeDigits s') else EmptyString
  end.

(** [s.match(/p(\d+)/)] for a literal [p]: the capture of the leftmost
    position where [p] is followed by at least one digit. *)
Fixpoint matchDigitsAfter (p s : string) : option string :=
  let here :=
    if String.prefix p s
    then match takeDigits (dropChars (String.length p) s) with
         | EmptyString => None
         | d => Some d
         end
    else None in
  match here with
  | Some d => Some d
  | None =>
      match s with
      | EmptyString => None
      | String _ s' => matchDigitsAfter p s'
      end
  end.

(** [`${n}`] and [n.toString()] for an integral number. *)
Definition showInt (n : Z) : string := NilZero.string_of_int (Z.to_int n).

End JS.

(** ** Identifier normalisers (api.check-segment-discount.tsx) *)

(** An identifier arrives as a string or as a number ([string | number]). *)
Inductive Ident : Type :=
| IdNum (n : Z)
| IdStr (s : string).

Definition productPrefix : string := "gid://shopify/Product/".
Definition variantPrefix : string := "gid://shopify/ProductVariant/".
Definition customerPrefix : string := "gid://shopify/Customer/".
Definition collectionPrefix : string := "gid://shopify/Collection/".
Definition segmentPrefix : string := "gid://shopify/Segment/".

Definition formatProductId (productId : Ident) : string :=
  match productId with
  | IdNum n => productPrefix ++ JS.showInt n
  | IdStr s =>
      if JS.startsWith s productPrefix then s
      else if JS.isNumeric s then productPrefix ++ s
      else if JS.includes s productPrefix then
        match JS.matchDigitsAfter productPrefix s with
        | Some d => productPrefix ++ d
        | None => productPrefix ++ s
        end
      else productPrefix ++ s
  end.

Definition formatVariantId (variantId : Ident) : string :=
  match variantId with
  | IdStr s =>
      if JS.startsWith s variantPrefix then s
      else variantPrefix ++ JS.digitsOnly s
  | IdNum n => variantPrefix ++ JS.showInt n
  end.

Definition formatCustomerId (customerId : string) : string :=
  if JS.startsWith customerId customerPrefix then customerId
  else customerPrefix ++ JS.digitsOnly customerId.

(** The same three functions on the values a request can carry. The type
    annotations are erased when the program runs: an id read from the
    request body may be missing ([undefined]), [null], a number or a string.
    [None] stands for the [TypeError] of a method call on a value that has
    no such method. *)
Module Untyped.

Inductive Value : Type :=
| Undefined
| Null
| Num (n : Z)
| Str (s : string).

(** Neither [typeof] test holds for [undefined] and [null]: the function
    falls through to the final template. *)
Definition formatProductId (productId : Value) : option string :=
  match productId with
  | Num n => Some (formatProductId (IdNum n))
  | Str s => Some (formatProductId (IdStr s))
  | Undefined => Some (productPrefix ++ "undefined")
  | Null => Some (productPrefix ++ "null")
  end.

(** A value that is not a string goes to [variantId.toString()], which
    throws on [undefined] and [null]. *)
Definition formatVariantId (variantId : Value) : option string :=
  match variantId with
  | Str s => Some (formatVariantId (IdStr s))
  | Num n => Some (formatVariantId (IdNum n))
  | Undefined | Null => None
  end.

(** [customerId.startsWith] is called first: only a string has it. *)
Definition formatCustomerId (customerId : Value) : option string :=
  match customerId with
  | Str s => Some (formatCustomerId s)
  | Undefined | Null | Num _ => None
  end.

End Untyped.

(** ** Data model (Plan Store records and catalog records) *)

Record Rule : Type := mkRule {
  ruleId : string;
  categoryId : string;
  percentOff : JS.number;
  discountPlanId : string
}.

Record DiscountPlan : Type := mkPlan {
  planId : string;
  planName : string;
  targetType : string;
  targetKey : string;
  rules : list Rule
}.

Record Segment : Type := mkSegment {
  segmentId : string;
  segmentName : string
}.

(** ** Plan Store queries ([prisma.discountPlan])

    The store is the list of its plans in fetch order; keys are compared
    by plain, case-sensitive equality, as the database does. *)

Module PlanStore.

Definition isSegmentPlan (plan : DiscountPlan) : bool :=
  String.eqb (targetType plan) "segment".

(** [findMany({ where: { targetType: "segment", targetKey: { in: keys } } })] *)
Definition findManyIn (store : list DiscountPlan) (keys : list string)
  : list DiscountPlan :=
  List.filter
    (fun plan => isSegmentPlan plan && existsb (String.eqb (targetKey plan)) keys)
    store.

(** [findMany({ where: { targetType: "segment" } })] *)
Definition findManySegment (store : list DiscountPlan) : list DiscountPlan :=
  List.filter isSegmentPlan store.

(** [findFirst({ where: { targetType: "segment", targetKey: key } })] *)
Definition findFirst (store : list DiscountPlan) (key : string)
  : option DiscountPlan :=
  List.find
    (fun plan => isSegmentPlan plan && String.eqb (targetKey plan) key)
    store.

End PlanStore.

(** ** Segment matcher of the offer path (cascade over the Plan Store) *)

Module Matcher.

Definition isEmpty {A} (l : list A) : bool :=
  match l with [] => true | _ => false end.

(** "First, try exact tag matching": the tags were lowercased before. *)
Definition exactMatch (store : list DiscountPlan) (customerTags : list string) :=
  PlanStore.findManyIn store customerTags.

Definition gidMatch (store : list DiscountPlan) (customerTags : list string) :=
  PlanStore.findManyIn store (map (fun tag => segmentPrefix ++ tag) customerTags).

Definition upperCaseMatch (store : list DiscountPlan) (customerTags : list string) :=
  PlanStore.findManyIn store (map JS.toUpperCase customerTags).

Definition capitalizedMatch (store : list DiscountPlan) (customerTags : list string) :=
  PlanStore.findManyIn store (map JS.capitalize customerTags).

Definition containsMatch (store : list DiscountPlan) (customerTags : list string) :=
  List.filter
    (fun plan =>
       let targetKey := JS.toLowerCase (targetKey plan) in
       existsb (fun tag => JS.includes targetKey tag) customerTags)
    (PlanStore.findManySegment store).

(** Each later strategy runs only while [discountPlans.length === 0]. *)
Definition orElse (discountPlans next : list DiscountPlan) : list DiscountPlan :=
  if isEmpty discountPlans then next else discountPlans.

Definition findCandidatePlans (store : list DiscountPlan) (tags : list string)
  : list DiscountPlan :=
  let customerTags := map JS.toLowerCase tags in
  let discountPlans := exactMatch store customerTags in
  let discountPlans := orElse discountPlans (gidMatch store customerTags) in
  let discountPlans := orElse discountPlans (upperCaseMatch store customerTags) in
  let discountPlans := orElse discountPlans (capitalizedMatch store customerTags) in
  orElse discountPlans (containsMatch store customerTags).

(** The order path: [segments.find(s => customerData.tags.includes(s.name))]. *)
Definition matchSegment (segments : list Segment) (tags : list string)
  : option Segment :=
  List.find (fun segment => existsb (String.eqb (segmentName segment)) tags) segments.

End Matcher.

(** ** Plan selector *)

Module Selector.

(** [plan.rules.reduce((max, r) => Math.max(max, r.percentOff), 0)] *)
Definition planMax (plan : DiscountPlan) : JS.number :=
  fold_left (fun max r => JS.Math_max max (percentOff r)) (rules plan) (JS.num 0).

(** One turn of the loop over the candidates; the state is
    [(bestPlan, bestPlanMaxPercent)]. *)
Definition step (st : option DiscountPlan * JS.number) (plan : DiscountPlan)
  : option DiscountPlan * JS.number :=
  if JS.gt (planMax plan) (snd st) then (Some plan, planMax plan) else st.

Definition scan (discountPlans : list DiscountPlan)
  : option DiscountPlan * JS.number :=
  fold_left step discountPlans (None, JS.num 0).

(** The loop followed by the guard
    [!bestPlan || !bestPlan.rules || bestPlan.rules.length === 0]. *)
Definition selectBestPlan (discountPlans : list DiscountPlan)
  : option (DiscountPlan * JS.number) :=
  match scan discountPlans with
  | (Some bestPlan, bestPlanMaxPercent) =>
      match rules bestPlan with
      | [] => None
      | _ => Some (bestPlan, bestPlanMaxPercent)
      end
  | (None, _) => None
  end.

End Selector.

(** ** Rule resolver *)

Module Resolver.

(** [Record<string, number>]: the own properties of the object, in the order
    of their creation. The object is an object literal, so it inherits the
    members of [Object.prototype]. *)
Definition RuleMap := list (string * JS.number).

(** The names of the members every object literal inherits. *)
Definition prototypeMembers : list string :=
  ["constructor"; "__defineGetter__"; "__defineSetter__"; "hasOwnProperty";
   "__lookupGetter__"; "__lookupSetter__"; "isPrototypeOf";
   "propertyIsEnumerable"; "toString"; "valueOf"; "__proto__"; "toLocaleString"].

Definition isPrototypeMember (k : string) : bool :=
  existsb (String.eqb k) prototypeMembers.

(** The value of the own property [k]: [ruleMap[k]] for a key of
    [Object.keys(ruleMap)]. *)
Fixpoint get (k : string) (ruleMap : RuleMap) : option JS.number :=
  match ruleMap with
  | [] => None
  | (k', v) :: rest => if String.eqb k k' then Some v else get k rest
  end.

(** What [ruleMap[k]] evaluates to for any string [k]: the number of an own
    property, a member inherited from [Object.prototype] (a function, or the
    prototype itself), or [undefined]. *)
Inductive Value : Type :=
| Undefined
| Inherited
| Number (v : JS.number).

Definition read (k : string) (ruleMap : RuleMap) : Value :=
  match get k ruleMap with
  | Some v => Number v
  | None => if isPrototypeMember k then Inherited else Undefined
  end.

(** [ruleMap[k] = v]: an existing key keeps its place, a new one goes last. *)
Fixpoint set (k : string) (v : JS.number) (ruleMap : RuleMap) : RuleMap :=
  match ruleMap with
  | [] => [(k, v)]
  | (k', v') :: rest =>
      if String.eqb k k' then (k', v) :: rest else (k', v') :: set k v rest
  end.

(** [if (existing == null || rule.percentOff > existing) ruleMap[...] = ...]:
    an inherited member is not [null], and a number is not greater than a
    function or an object (the comparison is with [NaN]). *)
Definition step (ruleMap : RuleMap) (rule : Rule) : RuleMap :=
  match read (categoryId rule) ruleMap with
  | Undefined => set (categoryId rule) (percentOff rule) ruleMap
  | Number existing =>
      if JS.gt (percentOff rule) existing
      then set (categoryId rule) (percentOff rule) ruleMap
      else ruleMap
  | Inherited => ruleMap
  end.

Definition resolveRules (rules : list Rule) : RuleMap :=
  fold_left step rules [].

(** The own keys in the order of their creation. *)
Definition ownKeys (ruleMap : RuleMap) : list string := map fst ruleMap.

Fixpoint decimalValue (s : string) (acc : N) : N :=
  match s with
  | EmptyString => acc
  | String c s' => decimalValue s' (10 * acc + (N_of_ascii c - 48))%N
  end.

(** An array index: the canonical decimal form of an integer below
    [2^32 - 1]. *)
Definition leadingZero (k : string) : bool :=
  match k with
  | String c (String _ _) => Ascii.eqb c "0"
  | _ => false
  end.

Definition arrayIndex (k : string) : option N :=
  if JS.isNumeric k && negb (leadingZero k)
  then let n := decimalValue k 0 in
       if (n <? 2 ^ 32 - 1)%N then Some n else None
  else None.

Definition isArrayIndex (k : string) : bool :=
  match arrayIndex k with Some _ => true | None => false end.

Fixpoint insertIndex (n : N) (k : string) (l : list (N * string))
  : list (N * string) :=
  match l with
  | [] => [(n, k)]
  | (m, k') :: rest =>
      if (n <? m)%N then (n, k) :: l else (m, k') :: insertIndex n k rest
  end.

(** The array indices among the keys, in ascending order. *)
Definition indexKeys (keys : list string) : list (N * string) :=
  fold_right
    (fun k sorted =>
       match arrayIndex k with
       | Some n => insertIndex n k sorted
       | None => sorted
       end)
    [] keys.

(** [Object.keys(ruleMap)]: the array indices in ascending order, then the
    other keys in the order of their creation. *)
Definition Object_keys (ruleMap : RuleMap) : list string :=
  (map snd (indexKeys (ownKeys ruleMap))
   ++ List.filter (fun k => negb (isArrayIndex k)) (ownKeys ruleMap))%list.

(** The own properties read as a finite map. *)
Definition asMap (ruleMap : RuleMap) : gmap string JS.number :=
  list_to_map ruleMap.

End Resolver.

(** ** Offer path (segment-offer endpoints) *)

Module Offer.

Record Collection : Type := mkCollection {
  colId : string;
  colTitle : string;
  colName : string;
  colHandle : string;
  colPercentOff : option JS.number
}.

(** A node of the [getCollections] answer. *)
Record Node : Type := mkNode {
  nodeId : string;
  nodeTitle : string;
  nodeHandle : string
}.

(** An entry of the storefront's [collections.json]; [scId] is [c.id.toString()]. *)
Record StoreCollection : Type := mkStoreCollection {
  scId : string;
  scTitle : string;
  scHandle : string
}.

(** What [admin.graphql(query, ...)] followed by [response.json()] gives. *)
Inductive GraphqlOutcome : Type :=
| GraphqlThrows
| GraphqlNoData
| GraphqlNodes (nodes : list (option Node)).

(** What [fetch(storeUrl + "/collections.json")] followed by [.json()] gives. *)
Inductive StoreOutcome : Type :=
| StoreThrows
| StoreJson (collections : option (list StoreCollection)).

Record World : Type := mkWorld {
  planStore : list DiscountPlan;
  (** [None]: [authenticate.admin(request)] throws. *)
  adminSession : option GraphqlOutcome;
  storeApi : StoreOutcome
}.

(** [x || d] on strings: the empty string is falsy. *)
Definition strOr (x d : string) : string :=
  match x with EmptyString => d | _ => x end.

Definition numericIdOf (collectionId : string) : string :=
  if JS.startsWith collectionId collectionPrefix
  then JS.removeFirst collectionId collectionPrefix
  else collectionId.

(** "Fallback to basic collection data". *)
Definition fallbackCollection (ruleMap : Resolver.RuleMap) (collectionId : string)
  : Collection :=
  let numericId := numericIdOf collectionId in
  {| colId := numericId;
     colTitle := "Collection " ++ numericId;
     colName := "Collection " ++ numericId;
     colHandle := "";
     colPercentOff := Resolver.get collectionId ruleMap |}.

Definition fallbackCollections (ruleMap : Resolver.RuleMap) : list Collection :=
  map (fallbackCollection ruleMap) (Resolver.Object_keys ruleMap).

(** [collectionMap]: every node under its numeric id and under its full id. *)
Definition collectionMapOf (nodes : list (option Node)) : gmap string Node :=
  fold_left
    (fun (collectionMap : gmap string Node) node =>
       match node with
       | Some n =>
           match nodeId n with
           | EmptyString => collectionMap
           | _ =>
               <[nodeId n := n]>
                 (<[JS.removeFirst (nodeId n) collectionPrefix := n]> collectionMap)
           end
       | None => collectionMap
       end)
    nodes ∅.

(** "Build collections array with real data". *)
Definition collectionsWithData (ruleMap : Resolver.RuleMap)
  (nodes : list (option Node)) : list Collection :=
  let collectionMap := collectionMapOf nodes in
  map
    (fun collectionId =>
       let numericId := numericIdOf collectionId in
       let collectionData :=
         match collectionMap !! numericId with
         | Some n => Some n
         | None => collectionMap !! collectionId
         end in
       let title :=
         match collectionData with
         | Some n => strOr (nodeTitle n) ("Collection " ++ numericId)
         | None => "Collection " ++ numericId
         end in
       {| colId := numericId;
          colTitle := title;
          colName := title;
          colHandle := match collectionData with
                       | Some n => strOr (nodeHandle n) ""
                       | None => ""
                       end;
          colPercentOff := Resolver.get collectionId ruleMap |})
    (Resolver.Object_keys ruleMap).

(** The storefront branch: one lookup in [collections.json] per collection,
    each with its own fallback, repackaged as nodes. *)
Definition storeNodes (w : World) (ruleMap : Resolver.RuleMap) : list (option Node) :=
  map
    (fun collectionId =>
       let numericId := numericIdOf collectionId in
       let found :=
         match storeApi w with
         | StoreThrows => None
         | StoreJson None => None
         | StoreJson (Some cs) =>
             List.find
               (fun c => String.eqb (scId c) numericId || String.eqb (scId c) collectionId)
               cs
         end in
       let '(title, handle) :=
         match found with
         | Some c => (scTitle c, scHandle c)
         | None => ("Collection " ++ numericId, "")
         end in
       Some {| nodeId := collectionPrefix ++ numericId;
               nodeTitle := title;
               nodeHandle := handle |})
    (Resolver.Object_keys ruleMap).

Definition collectionsOfOutcome (ruleMap : Resolver.RuleMap) (g : GraphqlOutcome)
  : list Collection :=
  match g with
  | GraphqlThrows => fallbackCollections ruleMap
  | GraphqlNoData => fallbackCollections ruleMap
  | GraphqlNodes nodes => collectionsWithData ruleMap nodes
  end.

(** Collections of the POST handler ([action]). *)
Definition actionCollections (w : World) (storeUrl : string)
  (ruleMap : Resolver.RuleMap) : list Collection :=
  match adminSession w, storeUrl with
  | Some g, _ => collectionsOfOutcome ruleMap g
  | None, EmptyString => fallbackCollections ruleMap
  | None, _ => collectionsWithData ruleMap (storeNodes w ruleMap)
  end.

(** Collections of the GET handler ([loader]). *)
Definition loaderCollections (w : World) (ruleMap : Resolver.RuleMap)
  : list Collection :=
  match adminSession w with
  | Some g => collectionsOfOutcome ruleMap g
  | None => fallbackCollections ruleMap
  end.

Record OfferData : Type := mkOffer {
  offerSegmentName : string;
  offerPlanName : string;
  offerCollections : list Collection;
  highestDiscountRate : JS.number
}.

(** [{ discountApplicable: false }] or the full offer with
    [discountApplicable: true]. *)
Inductive OfferBody : Type :=
| NotApplicable
| Applicable (offer : OfferData).

Definition discountApplicable (o : OfferBody) : bool :=
  match o with NotApplicable => false | Applicable _ => true end.

Inductive Response : Type :=
| Error (status : Z) (message : string)
| Success (offer : OfferBody).

(** The request after [JSON.parse]: the body may lack [customerData], carry
    text that does not parse, or carry a customer object. *)
Inductive Request : Type :=
| NoCustomerData
| InvalidJson
| CustomerData (customerId : option string) (tags : option (list string))
               (storeUrl : string).

Inductive Handler : Type := Action | Loader.

(** [customerTags.find(tag => key.includes(tag) || tag.includes(key)) || targetKey] *)
Definition segmentNameOf (customerTags : list string) (bestPlan : DiscountPlan) : string :=
  let key := JS.toLowerCase (targetKey bestPlan) in
  match List.find (fun tag => JS.includes key tag || JS.includes tag key) customerTags with
  | Some tag => strOr tag (targetKey bestPlan)
  | None => targetKey bestPlan
  end.

Definition handle (h : Handler) (w : World) (req : Request) : Response :=
  match req with
  | NoCustomerData => Error 400 "customerData is required"
  | InvalidJson => Error 400 "Invalid JSON in customerData"
  | CustomerData None _ _ | CustomerData (Some EmptyString) _ _
  | CustomerData _ None _ =>
      Error 400 "Customer object must contain id and tags"
  | CustomerData (Some _) (Some tags) storeUrl =>
      let customerTags := map JS.toLowerCase tags in
      let discountPlans := Matcher.findCandidatePlans (planStore w) tags in
      if Matcher.isEmpty discountPlans then Success NotApplicable
      else
        match Selector.selectBestPlan discountPlans with
        | None => Success NotApplicable
        | Some (bestPlan, bestPlanMaxPercent) =>
            let ruleMap := Resolver.resolveRules (rules bestPlan) in
            let collections :=
              match h with
              | Action => actionCollections w storeUrl ruleMap
              | Loader => loaderCollections w ruleMap
              end in
            Success (Applicable
              {| offerSegmentName := segmentNameOf customerTags bestPlan;
                 offerPlanName := planName bestPlan;
                 offerCollections := collections;
                 highestDiscountRate := bestPlanMaxPercent |})
        end
  end.

End Offer.

(** ** Simple offer path (api.test-simple-segment-offer.tsx)

    The customer's segments come from the local [CustomerSegment] table; the
    selection and the resolution are the ones above. *)

Module SimpleOffer.

Record Collection : Type := mkCollection {
  colId : string;
  colName : string;
  colPercentOff : option JS.number
}.

Record World : Type := mkWorld {
  planStore : list DiscountPlan;
  (** [prisma.customer.findUnique]: the segment ids of a customer row. *)
  customerSegments : string -> option (list string)
}.

Record OfferData : Type := mkOffer {
  offerSegmentName : string;
  offerPlanName : string;
  offerCollections : list Collection;
  highestDiscountRate : JS.number
}.

(** The customer object of the request, as far as the handler reads it;
    the id is a JSON number or a JSON string. *)
Record Customer : Type := mkCustomer {
  customerId : option Ident;
  customerEmail : option string;
  customerName : option string;
  customerTags : option (list string)
}.

(** The request after [JSON.parse]: the body may lack [customerData], carry
    text that does not parse, or carry a customer object. *)
Inductive Request : Type :=
| NoCustomerData
| InvalidJson
| CustomerData (customer : Customer).

(** An error, or a success answer: [{ success: true, offer, customer }],
    where [customer] repeats the id, the email, the name and the tags of the
    request and [offer] is [{ discountApplicable: false }] or the full
    offer. *)
Inductive Response : Type :=
| Error (status : Z) (message : string)
| NotApplicable (customer : Customer)
| Applicable (offer : OfferData) (customer : Customer).

(** The [offer] member of an answer. *)
Definition offerOf (r : Response) : option (option OfferData) :=
  match r with
  | Error _ _ => None
  | NotApplicable _ => Some None
  | Applicable offer _ => Some (Some offer)
  end.

(** The [customer] member of an answer. *)
Definition customerOf (r : Response) : option Customer :=
  match r with
  | Error _ _ => None
  | NotApplicable customer => Some customer
  | Applicable _ customer => Some customer
  end.

Definition customerNumericId (customerId : string) : string :=
  let customerGid :=
    if JS.startsWith customerId "gid://" then customerId
    else customerPrefix ++ customerId in
  JS.removeFirst customerGid customerPrefix.

Definition collectionsOf (ruleMap : Resolver.RuleMap) : list Collection :=
  map
    (fun collectionId =>
       let numericId := Offer.numericIdOf collectionId in
       {| colId := numericId;
          colName := "Collection " ++ numericId;
          colPercentOff := Resolver.get collectionId ruleMap |})
    (Resolver.Object_keys ruleMap).

(** [!customer.id]: the number 0 and the empty string are falsy. *)
Definition isFalsy (id : Ident) : bool :=
  match id with
  | IdNum n => (n =? 0)%Z
  | IdStr s => String.eqb s ""
  end.

(** [customer.id.toString()]. *)
Definition toString (id : Ident) : string :=
  match id with
  | IdNum n => JS.showInt n
  | IdStr s => s
  end.

Definition handle (w : World) (req : Request) : Response :=
  match req with
  | NoCustomerData => Error 400 "customerData is required"
  | InvalidJson => Error 400 "Invalid JSON in customerData"
  | CustomerData customer =>
      match customerId customer, customerTags customer with
      | Some id, Some _ =>
          if isFalsy id then Error 400 "Customer object must contain id and tags"
          else
            match customerSegments w (customerNumericId (toString id)) with
            | None => NotApplicable customer
            | Some [] => NotApplicable customer
            | Some segmentIds =>
                let discountPlans := PlanStore.findManyIn (planStore w) segmentIds in
                if Matcher.isEmpty discountPlans then NotApplicable customer
                else
                  match Selector.selectBestPlan discountPlans with
                  | None => NotApplicable customer
                  | Some (bestPlan, bestPlanMaxPercent) =>
                      let ruleMap := Resolver.resolveRules (rules bestPlan) in
                      Applicable
                        {| offerSegmentName := targetKey bestPlan;
                           offerPlanName := planName bestPlan;
                           offerCollections := collectionsOf ruleMap;
                           highestDiscountRate := bestPlanMaxPercent |}
                        customer
                  end
            end
      | _, _ => Error 400 "Customer object must contain id and tags"
      end
  end.

End SimpleOffer.

(** ** Order path (api.check-segment-discount.tsx) *)

Module Order.

(** *** Requests *)

(** A processed cart line. [quantity] may be absent in the array format. *)
Record CartItem : Type := mkCartItem {
  productId : string;
  price : JS.number;
  quantity : option JS.number;
  variantId : string;
  title : string;
  originalPrice : option JS.number;
  finalPrice : option JS.number
}.

(** An item of a storefront cart object (amounts in cents). *)
Record ShopifyItem : Type := mkShopifyItem {
  product_id : Ident;
  variant_id : Ident;
  item_price : option JS.number;
  item_quantity : option JS.number;
  item_title : string;
  original_price : option JS.number;
  final_price : option JS.number
}.

(** The [cartItems] field of the body: absent or falsy, an array, an object
    with or without an [items] array, or another truthy value. *)
Inductive CartInput : Type :=
| CartMissing
| CartArray (items : list CartItem)
| CartObject (items : option (list ShopifyItem))
| CartScalar.

Record Request : Type := mkRequest {
  shop : string;
  customerId : string;
  cartItems : CartInput
}.

(** *** Answers of the collaborators *)

Record Customer : Type := mkCustomer {
  customerGid : string;
  customerTags : list string
}.

Inductive CustomerOutcome : Type :=
| CustomerThrows
| CustomerErrors
| CustomerData (customer : option Customer).

Inductive SegmentsOutcome : Type :=
| SegmentsThrows
| SegmentsErrors
| SegmentsData (segments : list Segment).

(** [MembershipData None]: the answer has [product: null]. *)
Inductive MembershipOutcome : Type :=
| MembershipThrows
| MembershipErrors
| MembershipData (collections : option (list string)).

Record LineItem : Type := mkLineItem {
  liVariantId : string;
  liQuantity : option JS.number;
  (** the [value] of [appliedDiscount], a percentage, when attached *)
  liAppliedDiscount : option JS.number
}.

Record DraftOrder : Type := mkDraftOrder {
  draftId : string;
  invoiceUrl : string
}.

Inductive DraftOutcome : Type :=
| DraftThrows (message : string)
| DraftInvalidJson
| DraftGraphqlErrors
| DraftUserErrors
| DraftData (draftOrder : option DraftOrder).

Record World : Type := mkWorld {
  (** [prisma.session.findFirst({ where: { shop } })]: the access token. *)
  sessions : string -> option string;
  customerService : string -> CustomerOutcome;
  segmentCatalog : SegmentsOutcome;
  planStore : list DiscountPlan;
  (** the answer to the membership query issued for a product while the
      rule of a collection is examined *)
  productCollections : string -> string -> MembershipOutcome;
  orderSink : string -> list LineItem -> DraftOutcome
}.

(** *** Calls and their trace *)

Inductive Event : Type :=
| SessionLookup (shop : string)
| FetchCustomer (customerGid : string)
| FetchSegments
| PlanFindFirst (targetKey : string)
| PlanFindMany
| CheckMembership (productId collectionId : string)
| CreateDraftOrder (customerGid : string) (lineItems : list LineItem).

(** A computation that calls collaborators: its value and the calls made. *)
Record M (A : Type) : Type := mkM {
  value : A;
  trace : list Event
}.
Arguments mkM {A} _ _.
Arguments value {A} _.
Arguments trace {A} _.

#[global] Instance M_ret : MRet M := fun A a => mkM a [].

#[global] Instance M_bind : MBind M := fun A B f m =>
  let r := f (value m) in
  mkM (value r) (trace m ++ trace r)%list.

Definition emit (e : Event) : M unit := mkM tt [e].

Fixpoint foldM {A S} (f : S -> A -> M S) (l : list A) (s : S) : M S :=
  match l with
  | [] => mret s
  | a :: l' => s' ← f s a; foldM f l' s'
  end.

Definition fetchCustomerData (w : World) (customerId : string) : M (option Customer) :=
  let formattedCustomerId := formatCustomerId customerId in
  emit (FetchCustomer formattedCustomerId);;
  mret (match customerService w formattedCustomerId with
       | CustomerThrows => None
       | CustomerErrors => None
       | CustomerData customer => customer
       end).

Definition fetchSegments (w : World) : M (option (list Segment)) :=
  emit FetchSegments;;
  mret (match segmentCatalog w with
       | SegmentsThrows => None
       | SegmentsErrors => None
       | SegmentsData segments => Some segments
       end).

Definition checkProductInCollection (w : World) (productId collectionId : string)
  : M bool :=
  emit (CheckMembership productId collectionId);;
  mret (match productCollections w productId collectionId with
       | MembershipThrows => false
       | MembershipErrors => false
       | MembershipData None => false
       | MembershipData (Some productCollections) =>
           existsb (String.eqb collectionId) productCollections
       end).

Definition findFirstPlan (w : World) (key : string) : M (option DiscountPlan) :=
  emit (PlanFindFirst key);;
  mret (PlanStore.findFirst (planStore w) key).

(** *** Cart formats *)

(** One item of a cart object: amounts go from cents to currency units. *)
Definition ofShopifyItem (item : ShopifyItem) : CartItem :=
  {| productId := formatProductId (product_id item);
     price := (JS.orDefault (item_price item) (JS.num 0) / JS.num 100)%Qc;
     quantity := Some (JS.orDefault (item_quantity item) (JS.num 1));
     variantId := formatVariantId (variant_id item);
     title := item_title item;
     originalPrice := Some (JS.orDefault (original_price item) (JS.num 0) / JS.num 100)%Qc;
     finalPrice := Some (JS.orDefault (final_price item) (JS.num 0) / JS.num 100)%Qc |}.

(** "Handle different cart formats": the processed items, or the message of
    the 400 answer. *)
Definition processCart (cartItems : CartInput) : string + list CartItem :=
  match cartItems with
  | CartArray items => inr items
  | CartObject (Some items) => inr (map ofShopifyItem items)
  | CartObject None =>
      inl "Invalid cart format. Expected 'items' array in cart object."
  | CartMissing | CartScalar =>
      inl "Invalid cartItems format. Expected array or object with items array."
  end.





(** A typed item as a raw one: both ids are present. *)
Definition rawId (id : Ident) : Untyped.Value :=
  match id with
  | IdNum n => Untyped.Num n
  | IdStr s => Untyped.Str s
  end.


(** *** Discount calculator *)

Record Discount : Type := mkDiscount {
  dProductId : string;
  dCollectionId : string;
  dPercentOff : JS.number;
  dOriginalPrice : JS.number;
  dDiscountedPrice : JS.number;
  dDiscountAmount : JS.number
}.

(** One turn of the loop over the rules; the state is
    [(bestDiscount, bestPercentOff)]. *)
Definition ruleStep (w : World) (productId : string)
  (st : option Rule * JS.number) (rule : Rule) : M (option Rule * JS.number) :=
  productBelongsToCollection ← checkProductInCollection w productId (categoryId rule);
  mret (if productBelongsToCollection && JS.gt (percentOff rule) (snd st)
        then (Some rule, percentOff rule)
        else st).

Definition bestDiscountFor (w : World) (productId : string) (rules : list Rule)
  : M (option Rule * JS.number) :=
  foldM (ruleStep w productId) rules (None, JS.num 0).

(** The accumulators of the loop over the cart. *)
Record Totals : Type := mkTotals {
  applicableDiscounts : list Discount;
  totalOriginalPrice : JS.number;
  totalDiscountAmount : JS.number
}.

(** [const { productId, price, quantity = 1, title } = cartItem] *)
Definition quantityOf (cartItem : CartItem) : JS.number :=
  match quantity cartItem with Some q => q | None => JS.num 1 end.

Definition itemTotalPrice (cartItem : CartItem) : JS.number :=
  (price cartItem * quantityOf cartItem)%Qc.

Definition discountOf (cartItem : CartItem) (bestDiscount : Rule)
  (bestPercentOff : JS.number) : Discount :=
  let discountAmount := (itemTotalPrice cartItem * bestPercentOff / JS.num 100)%Qc in
  let discountedPrice := (itemTotalPrice cartItem - discountAmount)%Qc in
  {| dProductId := productId cartItem;
     dCollectionId := categoryId bestDiscount;
     dPercentOff := bestPercentOff;
     dOriginalPrice := itemTotalPrice cartItem;
     dDiscountedPrice := discountedPrice;
     dDiscountAmount := discountAmount |}.

Definition itemStep (w : World) (rules : list Rule) (acc : Totals)
  (cartItem : CartItem) : M Totals :=
  let total := (totalOriginalPrice acc + itemTotalPrice cartItem)%Qc in
  best ← bestDiscountFor w (productId cartItem) rules;
  mret (match fst best with
        | Some bestDiscount =>
            let d := discountOf cartItem bestDiscount (snd best) in
            {| applicableDiscounts := (applicableDiscounts acc ++ [d])%list;
               totalOriginalPrice := total;
               totalDiscountAmount := (totalDiscountAmount acc + dDiscountAmount d)%Qc |}
        | None =>
            {| applicableDiscounts := applicableDiscounts acc;
               totalOriginalPrice := total;
               totalDiscountAmount := totalDiscountAmount acc |}
        end).

Definition computeDiscounts (w : World) (rules : list Rule)
  (processedCartItems : list CartItem) : M Totals :=
  foldM (itemStep w rules) processedCartItems
    {| applicableDiscounts := [];
       totalOriginalPrice := JS.num 0;
       totalDiscountAmount := JS.num 0 |}.

(** [totalOriginalPrice > 0 ? (totalDiscountAmount / totalOriginalPrice) * 100 : 0] *)
Definition savingsPercentage (t : Totals) : JS.number :=
  if JS.gt (totalOriginalPrice t) (JS.num 0)
  then (totalDiscountAmount t / totalOriginalPrice t * JS.num 100)%Qc
  else JS.num 0.

(** *** Draft order *)

Inductive DraftResult : Type :=
| DraftSuccess (draftOrder : DraftOrder)
| DraftFailure (error : string).

Definition lineItemOf (applicableDiscounts : list Discount) (item : CartItem)
  : LineItem :=
  let discount :=
    List.find (fun d => String.eqb (dProductId d) (productId item)) applicableDiscounts in
  {| liVariantId := variantId item;
     liQuantity := quantity item;
     liAppliedDiscount :=
       match discount with
       | Some d => if JS.gt (dPercentOff d) (JS.num 0) then Some (dPercentOff d) else None
       | None => None
       end |}.

Definition createDraftOrder (w : World) (customerId : string)
  (processedCartItems : list CartItem) (applicableDiscounts : list Discount)
  : M DraftResult :=
  let formattedCustomerId := formatCustomerId customerId in
  let lineItems := map (lineItemOf applicableDiscounts) processedCartItems in
  emit (CreateDraftOrder formattedCustomerId lineItems);;
  mret (match orderSink w formattedCustomerId lineItems with
        | DraftThrows message => DraftFailure message
        | DraftInvalidJson => DraftFailure "Invalid JSON response from Shopify"
        | DraftGraphqlErrors => DraftFailure "GraphQL errors occurred"
        | DraftUserErrors => DraftFailure "Shopify API validation errors"
        | DraftData (Some draftOrder) => DraftSuccess draftOrder
        | DraftData None => DraftFailure "No draft order returned from Shopify API"
        end).

(** *** Responses *)

Record Summary : Type := mkSummary {
  sumSegment : string;
  sumPlanName : string;
  sumTotalOriginalPrice : JS.number;
  sumTotalDiscountAmount : JS.number;
  sumTotalDiscountedPrice : JS.number;
  sumSavingsPercentage : JS.number;
  sumApplicableDiscounts : list Discount;
  itemsWithDiscount : nat;
  totalItems : nat;
  highestDiscountRate : JS.number
}.

Inductive Body : Type :=
| ErrorBody (error : string)
| NoSegmentBody
| NoPlanBody
| NoDiscountBody (summary : Summary)
| DraftCreatedBody (draftOrderUrl : string) (summary : Summary)
| DraftFailedBody (details : string).

Record Response : Type := mkResponse {
  status : Z;
  body : Body
}.

(** [json(body)] answers 200; [json(body, { status })] the given status. *)
Definition json (b : Body) : Response := {| status := 200; body := b |}.
Definition jsonStatus (b : Body) (s : Z) : Response := {| status := s; body := b |}.

(** The top-level [discountApplicable] field of a body, when it has one:
    the three answers that report no discount have it, with [false]. *)
Definition discountApplicable (b : Body) : option bool :=
  match b with
  | NoSegmentBody | NoPlanBody | NoDiscountBody _ => Some false
  | DraftCreatedBody _ _ | ErrorBody _ | DraftFailedBody _ => None
  end.

(** The [discountApplicable] field of the [discountSummary] member, which
    only the answer that reports a draft order has. *)
Definition summaryDiscountApplicable (b : Body) : option bool :=
  match b with
  | DraftCreatedBody _ _ => Some true
  | NoSegmentBody | NoPlanBody | NoDiscountBody _ | ErrorBody _ | DraftFailedBody _ =>
      None
  end.

Definition isErrorStatus (r : Response) : bool := (400 <=? status r)%Z.

(** [Math.max(...applicableDiscounts.map(d => d.percentOff))], for the
    non-empty list of the branch that uses it. *)
Definition maxPercentOff (d : Discount) (ds : list Discount) : JS.number :=
  fold_left JS.Math_max (map dPercentOff ds) (dPercentOff d).

Definition summaryOf (segment : Segment) (plan : DiscountPlan)
  (processedCartItems : list CartItem) (t : Totals) (highest : JS.number) : Summary :=
  {| sumSegment := segmentName segment;
     sumPlanName := planName plan;
     sumTotalOriginalPrice := totalOriginalPrice t;
     sumTotalDiscountAmount := totalDiscountAmount t;
     sumTotalDiscountedPrice := (totalOriginalPrice t - totalDiscountAmount t)%Qc;
     sumSavingsPercentage := savingsPercentage t;
     sumApplicableDiscounts := applicableDiscounts t;
     itemsWithDiscount := length (applicableDiscounts t);
     totalItems := length processedCartItems;
     highestDiscountRate := highest |}.

(** *** The handler *)

(** What steps 1 to 5 establish for steps 6 and 7. *)
Record Context : Type := mkContext {
  ctxItems : list CartItem;
  ctxSegment : Segment;
  ctxPlan : DiscountPlan
}.

Definition isEmptyString (s : string) : bool :=
  match s with EmptyString => true | _ => false end.

Definition isMissing (c : CartInput) : bool :=
  match c with CartMissing => true | _ => false end.

Definition fail (s : Z) (error : string) : M (Response + Context) :=
  mret (inl (jsonStatus (ErrorBody error) s)).

(** Steps 5: the plan of the segment, by id first, then by name. *)
Definition findPlanFor (w : World) (matchedSegment : Segment)
  : M (option DiscountPlan) :=
  discountPlan ← findFirstPlan w (segmentId matchedSegment);
  match discountPlan with
  | Some plan => mret (Some plan)
  | None => findFirstPlan w (segmentName matchedSegment)
  end.

(** Validation and steps 1 to 5: an early answer, or the context. *)
Definition resolve (w : World) (req : Request) : M (Response + Context) :=
  if isEmptyString (shop req) || isEmptyString (customerId req)
     || isMissing (cartItems req)
  then fail 400 "Missing required fields: shop, customerId, or cartItems"
  else
    match processCart (cartItems req) with
    | inl error => fail 400 error
    | inr [] => fail 400 "No items found in cart. Please add products to your cart."
    | inr processedCartItems =>
        emit (SessionLookup (shop req));;
        match sessions w (shop req) with
        | None =>
            fail 401 "No session found for this shop. Please ensure the app is properly installed."
        | Some accessToken =>
            customerData ← fetchCustomerData w (customerId req);
            match customerData with
            | None => fail 404 "Customer not found"
            | Some customerData =>
                segments ← fetchSegments w;
                match segments with
                | None => fail 500 "Failed to fetch segments"
                | Some segments =>
                    match Matcher.matchSegment segments (customerTags customerData) with
                    | None => mret (inl (json NoSegmentBody))
                    | Some matchedSegment =>
                        discountPlan ← findPlanFor w matchedSegment;
                        match discountPlan with
                        | None => emit PlanFindMany;; mret (inl (json NoPlanBody))
                        | Some plan =>
                            match rules plan with
                            | [] => emit PlanFindMany;; mret (inl (json NoPlanBody))
                            | _ =>
                                mret (inr {| ctxItems := processedCartItems;
                                             ctxSegment := matchedSegment;
                                             ctxPlan := plan |})
                            end
                        end
                    end
                end
            end
        end
    end.

(** Steps 6 and 7: the discounts, then the draft order when there is one. *)
Definition settle (w : World) (req : Request) (ctx : Context) : M Response :=
  totals ← computeDiscounts w (rules (ctxPlan ctx)) (ctxItems ctx);
  match applicableDiscounts totals with
  | d :: ds =>
      draftOrderResult ←
        createDraftOrder w (customerId req) (ctxItems ctx) (applicableDiscounts totals);
      mret (match draftOrderResult with
            | DraftSuccess draftOrder =>
                json (DraftCreatedBody (invoiceUrl draftOrder)
                        (summaryOf (ctxSegment ctx) (ctxPlan ctx) (ctxItems ctx) totals
                           (maxPercentOff d ds)))
            | DraftFailure error => jsonStatus (DraftFailedBody error) 500
            end)
  | [] =>
      mret (json (NoDiscountBody
                    (summaryOf (ctxSegment ctx) (ctxPlan ctx) (ctxItems ctx) totals
                       (JS.num 0))))
  end.

Definition action (w : World) (req : Request) : M Response :=
  r ← resolve w req;
  match r with
  | inl response => mret response
  | inr ctx => settle w req ctx
  end.

Definition isDraftCall (e : Event) : bool :=
  match e with CreateDraftOrder _ _ => true | _ => false end.

(** Whether the request issued a draft-order creation call. *)
Definition draftIssued (t : list Event) : bool := existsb isDraftCall t.

End Order.

(** ** Storefront script (public/storefront.liquid)

    The script of the shop pages: it asks the segment-offer endpoint for the
    offer of the logged-in customer, keeps the answer in the session storage
    for five minutes and shows it in a marquee. The session storage holds
    the stored object itself: [JSON.stringify] followed by [JSON.parse] gives
    the object back. The style sheet the script adds is left out. *)

Module Storefront.

Definition CACHE_TTL_MS : Z := 5 * 60 * 1000.

(** The customer object of the page, as far as the script reads it. *)
Record Customer : Type := mkCustomer {
  customerId : option string;
  customerEmail : option string;
  customerName : option string;
  customerTags : option (list string)
}.

(** A collection of a backend answer. *)
Record RawCollection : Type := mkRawCollection {
  rawId : string;
  rawTitle : option string;
  rawName : option string;
  rawHandle : option string;
  rawPercentOff : option JS.number
}.

(** The [offer] member of a backend answer. *)
Record RawOffer : Type := mkRawOffer {
  rawDiscountApplicable : option bool;
  rawSegmentName : option string;
  rawPlanName : option string;
  rawCollections : option (list RawCollection);
  rawHighestDiscountRate : option JS.number
}.

(** A backend answer after [res.json()]: every member may be missing. *)
Record Json : Type := mkJson {
  jsonSuccess : option bool;
  jsonOffer : option RawOffer;
  jsonDiscountApplicable : option bool;
  jsonSegment : option string;
  jsonPlanName : option string;
  jsonCollections : option (list RawCollection);
  jsonHighestDiscountRate : option JS.number;
  jsonCustomer : option Customer
}.

Record Collection : Type := mkCollection {
  colId : string;
  colTitle : string;
  colHandle : string;
  colPercentOff : option JS.number
}.

Record Offer : Type := mkOffer {
  discountApplicable : bool;
  segmentName : option string;
  planName : option string;
  collections : list Collection;
  highestDiscountRate : JS.number
}.

(** The normalised answer the script works with and caches. *)
Record OfferObj : Type := mkOfferObj {
  success : bool;
  offer : Offer;
  customer : Customer
}.

(** [x || y] on possibly missing strings: [undefined] and [""] are falsy. *)
Definition orString (x y : option string) : option string :=
  match x with
  | Some (String _ _) => x
  | _ => y
  end.

(** [x || d] with a string to fall back on. *)
Definition orText (x : option string) (d : string) : string :=
  match x with
  | Some (String c s) => String c s
  | _ => d
  end.

(** [x ?? y]. *)
Definition nullish {A} (x y : option A) : option A :=
  match x with
  | Some _ => x
  | None => y
  end.

(** [json.offer?.member]. *)
Definition offerMember {A} (json : Json) (member : RawOffer -> option A) : option A :=
  match jsonOffer json with
  | Some o => member o
  | None => None
  end.

(** [customer.tags || []]. *)
Definition tagsOf (c : Customer) : list string :=
  match customerTags c with
  | Some tags => tags
  | None => []
  end.

(** *** The cache ([utils.getCachedOffer], [utils.setCachedOffer]) *)

(** The item under [CACHE_KEY]: absent, not readable as an object (the
    parse or the member access throws), or an object with its members. *)
Inductive Stored : Type :=
| NoItem
| Unreadable
| Item (fetchedAt : option Z) (data : option OfferObj).

(** [now] is the value of [Date.now()]; the result is the cached offer and
    the storage left behind. *)
Definition getCachedOffer (now : Z) (storage : Stored) : option OfferObj * Stored :=
  match storage with
  | NoItem => (None, NoItem)
  | Unreadable => (None, NoItem)
  | Item fetchedAt data =>
      let fetchedAt' := match fetchedAt with Some t => t | None => 0%Z end in
      if (now - fetchedAt' >? CACHE_TTL_MS)%Z then (None, NoItem)
      else (data, storage)
  end.

(** [writable] is false when [sessionStorage.setItem] throws. *)
Definition setCachedOffer (writable : bool) (now : Z) (data : OfferObj)
  (storage : Stored) : Stored :=
  if writable then Item (Some now) (Some data) else storage.

(** *** The request ([api.fetchOffer]) *)

Record Payload : Type := mkPayload {
  payloadCustomer : Customer;
  payloadStoreUrl : string
}.

(** What [fetch] gives: it throws, answers with a status that is not OK, or
    answers a body ([None] when [res.json()] throws). *)
Inductive FetchOutcome : Type :=
| FetchThrows
| NotOk (status : Z)
| OkBody (body : option Json).

Record Env : Type := mkEnv {
  (** [window.location.origin] *)
  origin : string;
  backend : Payload -> FetchOutcome;
  writable : bool
}.

Definition normalizeCollection (c : RawCollection) : Collection :=
  {| colId := rawId c;
     colTitle := orText (orString (rawTitle c) (rawName c)) "";
     colHandle := orText (rawHandle c) "";
     colPercentOff := rawPercentOff c |}.

(** "Normalize response". *)
Definition normalize (customer : Customer) (json : Json) : OfferObj :=
  {| success := match jsonSuccess json with None => true | Some b => b end;
     offer :=
       {| discountApplicable :=
            match nullish (offerMember json rawDiscountApplicable)
                    (jsonDiscountApplicable json) with
            | Some b => b
            | None => false
            end;
          segmentName :=
            orString (orString (offerMember json rawSegmentName) (jsonSegment json)) None;
          planName :=
            orString (orString (offerMember json rawPlanName) (jsonPlanName json)) None;
          collections :=
            map normalizeCollection
              match offerMember json rawCollections with
              | Some cs => cs
              | None => match jsonCollections json with Some cs => cs | None => [] end
              end;
          highestDiscountRate :=
            match nullish (offerMember json rawHighestDiscountRate)
                    (jsonHighestDiscountRate json) with
            | Some v => v
            | None => JS.num 0
            end |};
     customer :=
       match jsonCustomer json with
       | Some c => c
       | None =>
           {| customerId := customerId customer;
              customerEmail := customerEmail customer;
              customerName := customerName customer;
              customerTags := Some (tagsOf customer) |}
       end |}.

Definition payloadOf (env : Env) (customer : Customer) : Payload :=
  {| payloadCustomer :=
       {| customerId := customerId customer;
          customerEmail := customerEmail customer;
          customerName := customerName customer;
          customerTags := Some (tagsOf customer) |};
     payloadStoreUrl := origin env |}.

(** [now] and [later] are the values of [Date.now()] when the cache is read
    and when it is written. The result is the offer, the storage left
    behind, and the payloads sent to the backend. *)
Definition fetchOffer (env : Env) (customer : option Customer) (now later : Z)
  (storage : Stored) : option OfferObj * Stored * list Payload :=
  match customer with
  | None => (None, storage, [])
  | Some customer =>
      match customerId customer with
      | None | Some EmptyString => (None, storage, [])
      | Some _ =>
          match getCachedOffer now storage with
          | (Some cached, storage) => (Some cached, storage, [])
          | (None, storage) =>
              let payload := payloadOf env customer in
              match backend env payload with
              | FetchThrows => (None, storage, [payload])
              | NotOk _ => (None, storage, [payload])
              | OkBody None => (None, storage, [payload])
              | OkBody (Some json) =>
                  let offerObj := normalize customer json in
                  (Some offerObj,
                   setCachedOffer (writable env) later offerObj storage,
                   [payload])
              end
          end
      end
  end.

(** *** The marquee ([ui.renderMarquee]) *)

(** One link of the marquee: its target, its text and the percentOff shown
    after it. *)
Record Tag : Type := mkTag {
  href : string;
  label : string;
  tagPercentOff : option JS.number
}.

(** The element with id [MARQUEE_ID], by what its message is built from. *)
Record Marquee : Type := mkMarquee {
  marqueeSegmentName : string;
  marqueePlanName : string;
  parts : list Tag
}.

Definition tagOf (env : Env) (c : Collection) : Tag :=
  let title :=
    match colTitle c with
    | EmptyString => match colHandle c with EmptyString => colId c | h => h end
    | t => t
    end in
  {| href := match colHandle c with
             | EmptyString => "#"
             | h => origin env ++ "/collections/" ++ h
             end;
     label := title;
     tagPercentOff := colPercentOff c |}.

(** The marquee of the page after the call; [marquee] is the one before. *)
Definition renderMarquee (env : Env) (o : Offer) (marquee : option Marquee)
  : option Marquee :=
  if negb (discountApplicable o) then marquee
  else
    match marquee with
    | Some _ => marquee
    | None =>
        match collections o with
        | [] => None
        | cs =>
            Some {| marqueeSegmentName := orText (segmentName o) "valued";
                    marqueePlanName := orText (planName o) "";
                    parts := map (tagOf env) cs |}
        end
    end.

(** *** The page ([app.init], [app.refresh]) *)

Record Window : Type := mkWindow {
  shopifyCustomer : option Customer;
  windowCustomerData : option Customer
}.

(** [window.Shopify?.customer || window.customerData || null] *)
Definition getCustomerData (w : Window) : option Customer :=
  match shopifyCustomer w with
  | Some c => Some c
  | None => windowCustomerData w
  end.

Record Page : Type := mkPage {
  isInitialized : bool;
  storage : Stored;
  marquee : option Marquee;
  segmentOfferData : option OfferObj
}.

Definition shown (env : Env) (o : OfferObj) (p : Page) (storage' : Stored) : Page :=
  {| isInitialized := isInitialized p;
     storage := storage';
     marquee :=
       if discountApplicable (offer o) then renderMarquee env (offer o) (marquee p)
       else marquee p;
     segmentOfferData := Some o |}.

Definition withStorage (p : Page) (storage' : Stored) : Page :=
  {| isInitialized := isInitialized p;
     storage := storage';
     marquee := marquee p;
     segmentOfferData := segmentOfferData p |}.

Definition init (env : Env) (w : Window) (now later : Z) (p : Page)
  : Page * list Payload :=
  if isInitialized p then (p, [])
  else
    let p := {| isInitialized := true;
                storage := storage p;
                marquee := marquee p;
                segmentOfferData := segmentOfferData p |} in
    match getCustomerData w with
    | None => (p, [])
    | Some customer =>
        match fetchOffer env (Some customer) now later (storage p) with
        | (None, storage', calls) => (withStorage p storage', calls)
        | (Some o, storage', calls) => (shown env o p storage', calls)
        end
    end.

Definition refresh (env : Env) (w : Window) (now later : Z) (p : Page)
  : Page * list Payload :=
  match getCustomerData w with
  | None => (p, [])
  | Some customer =>
      match fetchOffer env (Some customer) now later NoItem with
      | (None, storage', calls) => (withStorage p storage', calls)
      | (Some o, storage', calls) => (shown env o p storage', calls)
      end
  end.

(** *** The endpoint behind [BACKEND_URL], as the script sees it

    The POST handler of the offer path answers the payload: an error answer
    is a status that is not OK, a success answer is the body
    [{ success: true, offer, customer }]. *)

Definition rawCollectionOf (c : Offer.Collection) : RawCollection :=
  {| rawId := Offer.colId c;
     rawTitle := Some (Offer.colTitle c);
     rawName := Some (Offer.colName c);
     rawHandle := Some (Offer.colHandle c);
     rawPercentOff := Offer.colPercentOff c |}.

Definition rawOfferOf (body : Offer.OfferBody) : RawOffer :=
  match body with
  | Offer.NotApplicable =>
      {| rawDiscountApplicable := Some false;
         rawSegmentName := None;
         rawPlanName := None;
         rawCollections := None;
         rawHighestDiscountRate := None |}
  | Offer.Applicable o =>
      {| rawDiscountApplicable := Some true;
         rawSegmentName := Some (Offer.offerSegmentName o);
         rawPlanName := Some (Offer.offerPlanName o);
         rawCollections := Some (map rawCollectionOf (Offer.offerCollections o));
         rawHighestDiscountRate := Some (Offer.highestDiscountRate o) |}
  end.

Definition segmentOfferEndpoint (w : Offer.World) (payload : Payload) : FetchOutcome :=
  let customer := payloadCustomer payload in
  match Offer.handle Offer.Action w
          (Offer.CustomerData (customerId customer) (customerTags customer)
             (payloadStoreUrl payload)) with
  | Offer.Error status _ => NotOk status
  | Offer.Success body =>
      OkBody (Some {| jsonSuccess := Some true;
                      jsonOffer := Some (rawOfferOf body);
                      jsonDiscountApplicable := None;
                      jsonSegment := None;
                      jsonPlanName := None;
                      jsonCollections := None;
                      jsonHighestDiscountRate := None;
                      jsonCustomer := Some customer |})
  end.

End Storefront.

(** ** CORS helpers (utils/cors)

    Header names are case-insensitive; a header list keeps them in
    lowercase. *)

Module Cors.

Abbreviation Headers := (gmap string string) (only parsing).

(** [headers.set(name, value)], [headers.get(name)], [headers.delete(name)] *)
Definition set (name value : string) (h : Headers) : Headers :=
  <[JS.toLowerCase name := value]> h.

Definition get (name : string) (h : Headers) : option string :=
  h !! JS.toLowerCase name.

Definition delete (name : string) (h : Headers) : Headers :=
  base.delete (JS.toLowerCase name) h.

Record HttpRequest : Type := mkHttpRequest {
  method : string;
  requestHeaders : Headers
}.

Record HttpResponse : Type := mkHttpResponse {
  status : Z;
  statusText : string;
  headers : Headers;
  body : option string
}.

Definition allowMethods : string := "GET, POST, PUT, DELETE, OPTIONS".

Definition allowHeaders : string :=
  "Content-Type, Authorization, ngrok-skip-browser-warning, X-Requested-With".

Definition frameAncestors : string :=
  "frame-ancestors 'self' https://admin.shopify.com https://*.myshopify.com".

(** [request?.headers.get("origin") || "*"] *)
Definition originOf (request : option HttpRequest) : string :=
  match request with
  | Some request =>
      match get "origin" (requestHeaders request) with
      | Some (String c s) => String c s
      | _ => "*"
      end
  | None => "*"
  end.

Definition addCorsHeaders (response : HttpResponse) (request : option HttpRequest)
  : HttpResponse :=
  let origin := originOf request in
  let h := headers response in
  let h := set "Access-Control-Allow-Origin" origin h in
  let h := set "Access-Control-Allow-Methods" allowMethods h in
  let h := set "Access-Control-Allow-Headers" allowHeaders h in
  let h := set "Access-Control-Max-Age" "86400" h in
  let h := set "Access-Control-Allow-Credentials" "true" h in
  let h := delete "X-Frame-Options" h in
  let h := set "Content-Security-Policy" frameAncestors h in
  {| status := status response;
     statusText := statusText response;
     headers := h;
     body := body response |}.

Definition handleCorsPreflight (request : HttpRequest) : option HttpResponse :=
  if String.eqb (method request) "OPTIONS" then
    let origin := originOf (Some request) in
    Some {| status := 204;
            statusText := "";
            headers :=
              set "Content-Security-Policy" frameAncestors
                (set "X-Frame-Options" ""
                   (set "Access-Control-Allow-Credentials" "true"
                      (set "Access-Control-Max-Age" "86400"
                         (set "Access-Control-Allow-Headers" allowHeaders
                            (set "Access-Control-Allow-Methods" allowMethods
                               (set "Access-Control-Allow-Origin" origin ∅))))));
            body := None |}
  else None.

(** The names [addCorsHeaders] writes or removes, in lowercase. *)
Definition touched : list string :=
  ["access-control-allow-origin"; "access-control-allow-methods";
   "access-control-allow-headers"; "access-control-max-age";
   "access-control-allow-credentials"; "x-frame-options";
   "content-security-policy"].

End Cors.

(** ** The notions of the specification, in its own words *)

Module Spec.

(** "planMax = max(rule.percentOff for rule in plan.rules) (0 if the plan
    has no rules)". *)
Definition planMax (plan : DiscountPlan) : JS.number :=
  match rules plan with
  | [] => JS.num 0
  | r :: rs => fold_left JS.Math_max (map percentOff rs) (percentOff r)
  end.

(** "the maximum percentOff among the rules sharing that categoryId":
    nothing for a category without a rule. *)
Definition maxPercentFor (k : string) (rules : list Rule) : option JS.number :=
  match List.filter (fun r => String.eqb (categoryId r) k) rules with
  | [] => None
  | r :: rs => Some (fold_left JS.Math_max (map percentOff rs) (percentOff r))
  end.

(** "The membership check itself fails (network/error)". *)
Definition membershipFailed (o : Order.MembershipOutcome) : bool :=
  match o with
  | Order.MembershipThrows => true
  | Order.MembershipErrors => true
  | Order.MembershipData _ => false
  end.

(** What the check answers for a product and a collection. *)
Definition belongs (w : Order.World) (productId collectionId : string) : bool :=
  Order.value (Order.checkProductInCollection w productId collectionId).

(** "At least one cart line has a positive applicable discount": a rule
    above 0% whose collection holds the product of the line. *)
Definition qualifies (w : Order.World) (rules : list Rule) (item : Order.CartItem)
  : bool :=
  existsb
    (fun r => belongs w (Order.productId item) (categoryId r)
              && JS.gt (percentOff r) (JS.num 0))
    rules.

(** One membership call for each rule of each line, line after line. *)
Definition membershipCalls (rules : list Rule) (items : list Order.CartItem)
  : list Order.Event :=
  flat_map
    (fun item =>
       map (fun r => Order.CheckMembership (Order.productId item) (categoryId r)) rules)
    items.

Fixpoint sum (l : list JS.number) : JS.number :=
  match l with
  | [] => JS.num 0
  | x :: l' => (x + sum l')%Qc
  end.

(** The discounts the calculator records: one for each line that has a
    best rule, in cart order. *)
Definition discountsOf (w : Order.World) (rules : list Rule)
  (items : list Order.CartItem) : list Order.Discount :=
  flat_map
    (fun item =>
       let best := Order.value (Order.bestDiscountFor w (Order.productId item) rules) in
       match fst best with
       | Some bestDiscount => [Order.discountOf item bestDiscount (snd best)]
       | None => []
       end)
    items.

(** "Numerically identical price fields in the two accepted request
    formats": an array item with the product, the price and the quantity
    of a cart-object item. *)
Definition sameFields (raw : Order.ShopifyItem) (item : Order.CartItem) : Prop :=
  Order.productId item = formatProductId (Order.product_id raw) /\
  Order.price item = JS.orDefault (Order.item_price raw) (JS.num 0) /\
  Order.quantityOf item = JS.orDefault (Order.item_quantity raw) (JS.num 1).

(** The handler asks the storefront for the collections: the POST handler
    without admin access and with a store URL. *)
Definition usesStorefront (h : Offer.Handler) (w : Offer.World) (storeUrl : string)
  : bool :=
  match h, Offer.adminSession w, storeUrl with
  | Offer.Action, None, String _ _ => true
  | _, _, _ => false
  end.

(** "The collection metadata fetch fails or errors": the admin call throws
    or answers without data; there is no admin access and no store to ask;
    or the storefront call throws or answers without a collection list. *)
Definition metadataFails (h : Offer.Handler) (w : Offer.World) (storeUrl : string)
  : bool :=
  match Offer.adminSession w with
  | Some Offer.GraphqlThrows => true
  | Some Offer.GraphqlNoData => true
  | Some (Offer.GraphqlNodes _) => false
  | None =>
      if usesStorefront h w storeUrl
      then match Offer.storeApi w with
           | Offer.StoreThrows => true
           | Offer.StoreJson None => true
           | Offer.StoreJson (Some _) => false
           end
      else true
  end.

(** No collection id has the collection prefix twice. *)
Definition plainIds (ruleMap : Resolver.RuleMap) : bool :=
  forallb
    (fun collectionId =>
       negb (JS.startsWith (Offer.numericIdOf collectionId) collectionPrefix))
    (Resolver.Object_keys ruleMap).

(** The placeholder entry of a collection whose metadata is unknown. *)
Definition placeholder (rules : list Rule) (collectionId : string) : Offer.Collection :=
  {| Offer.colId := Offer.numericIdOf collectionId;
     Offer.colTitle := "Collection " ++ Offer.numericIdOf collectionId;
     Offer.colName := "Collection " ++ Offer.numericIdOf collectionId;
     Offer.colHandle := "";
     Offer.colPercentOff := maxPercentFor collectionId rules |}.

End Spec.

(** ** Sample records *)

Module Sample.

Definition rule (collection : string) (percent : Z) : Rule :=
  {| ruleId := "rule-" ++ collection;
     categoryId := collection;
     percentOff := JS.num percent;
     discountPlanId := "plan" |}.

Definition plan (name key : string) (rs : list Rule) : DiscountPlan :=
  {| planId := "id-" ++ name;
     planName := name;
     targetType := "segment";
     targetKey := key;
     rules := rs |}.

Definition planEmpty : DiscountPlan := plan "empty" "vip" [].
Definition planZero : DiscountPlan := plan "zero" "vip" [rule "c0" 0].
Definition plan10 : DiscountPlan := plan "ten" "vip" [rule "c1" 10; rule "c2" 5].
Definition plan25 : DiscountPlan := plan "twenty-five" "vip" [rule "c1" 25].
Definition plan25' : DiscountPlan := plan "twenty-five-bis" "vip" [rule "c3" 25].

Definition segmentVip : Segment := mkSegment "gid://shopify/Segment/1" "VIP".

Definition planVip : DiscountPlan :=
  plan "gold" "gid://shopify/Segment/1" [rule "gid://shopify/Collection/1" 15].

Definition draft : Order.DraftOrder :=
  {| Order.draftId := "gid://shopify/DraftOrder/1";
     Order.invoiceUrl := "https://shop.example/invoice/1" |}.

(** A shop with one customer tagged "VIP", the segment "VIP" and its plan;
    the membership answers and the customer answer vary. *)
Definition world (customer : Order.CustomerOutcome)
  (membership : string -> string -> Order.MembershipOutcome) : Order.World :=
  {| Order.sessions := fun _ => Some "token";
     Order.customerService := fun _ => customer;
     Order.segmentCatalog := Order.SegmentsData [segmentVip];
     Order.planStore := [planVip];
     Order.productCollections := membership;
     Order.orderSink := fun _ _ => Order.DraftData (Some draft) |}.

Definition customerVip : Order.CustomerOutcome :=
  Order.CustomerData
    (Some {| Order.customerGid := "gid://shopify/Customer/9";
             Order.customerTags := ["VIP"] |}).

Definition inCollection1 : string -> string -> Order.MembershipOutcome :=
  fun _ _ => Order.MembershipData (Some ["gid://shopify/Collection/1"]).

Definition inNoCollection : string -> string -> Order.MembershipOutcome :=
  fun _ _ => Order.MembershipData (Some []).

Definition unreachable : string -> string -> Order.MembershipOutcome :=
  fun _ _ => Order.MembershipThrows.

Definition item (unitPrice qty : Z) : Order.CartItem :=
  {| Order.productId := "gid://shopify/Product/1";
     Order.price := JS.num unitPrice;
     Order.quantity := Some (JS.num qty);
     Order.variantId := "gid://shopify/ProductVariant/1";
     Order.title := "Shirt";
     Order.originalPrice := None;
     Order.finalPrice := None |}.

Definition request (cart : Order.CartInput) : Order.Request :=
  {| Order.shop := "shop.example";
     Order.customerId := "9";
     Order.cartItems := cart |}.

Definition shopifyItem (cents qty : Z) : Order.ShopifyItem :=
  {| Order.product_id := IdNum 1;
     Order.variant_id := IdNum 1;
     Order.item_price := Some (JS.num cents);
     Order.item_quantity := Some (JS.num qty);
     Order.item_title := "Shirt";
     Order.original_price := Some (JS.num cents);
     Order.final_price := Some (JS.num cents) |}.

(** No admin access and no store URL; the plan store holds the plan keyed
    "vip" with a rule of 15% on collection 1. *)
Definition offline : Offer.World :=
  {| Offer.planStore := [plan "gold" "vip" [rule "gid://shopify/Collection/1" 15]];
     Offer.adminSession := None;
     Offer.storeApi := Offer.StoreThrows |}.

Definition customerRegular : Order.CustomerOutcome :=
  Order.CustomerData
    (Some {| Order.customerGid := "gid://shopify/Customer/9";
             Order.customerTags := ["regular"] |}).

(** The same shop with an empty Plan Store. *)
Definition worldWithoutPlans (customer : Order.CustomerOutcome) : Order.World :=
  {| Order.sessions := fun _ => Some "token";
     Order.customerService := fun _ => customer;
     Order.segmentCatalog := Order.SegmentsData [segmentVip];
     Order.planStore := [];
     Order.productCollections := inCollection1;
     Order.orderSink := fun _ _ => Order.DraftData (Some draft) |}.

Definition contextVip (items : list Order.CartItem) : Order.Context :=
  {| Order.ctxItems := items;
     Order.ctxSegment := segmentVip;
     Order.ctxPlan := planVip |}.

(** A Plan Store where the plan keyed by the id of the segment "VIP" has no
    rule, and a plan keyed by its name has one. *)
Definition worldShadowed : Order.World :=
  {| Order.sessions := fun _ => Some "token";
     Order.customerService := fun _ => customerVip;
     Order.segmentCatalog := Order.SegmentsData [segmentVip];
     Order.planStore :=
       [plan "by-name" "VIP" [rule "gid://shopify/Collection/1" 15];
        plan "by-id" "gid://shopify/Segment/1" []];
     Order.productCollections := inCollection1;
     Order.orderSink := fun _ _ => Order.DraftData (Some draft) |}.

(** The local tables of the simple offer: customer 9 belongs to the
    segment of [planVip]. *)
Definition simpleWorld : SimpleOffer.World :=
  {| SimpleOffer.planStore := [planVip];
     SimpleOffer.customerSegments :=
       fun id => if String.eqb id "9" then Some ["gid://shopify/Segment/1"] else None |}.

(** The customer of a shop page, and the page's environment when the
    endpoint runs on [offline]. *)
Definition shopper : Storefront.Customer :=
  {| Storefront.customerId := Some "9";
     Storefront.customerEmail := Some "vip@shop.example";
     Storefront.customerName := Some "V. Ip";
     Storefront.customerTags := Some ["VIP"] |}.

Definition shopPage : Storefront.Env :=
  {| Storefront.origin := "https://shop.example";
     Storefront.backend := Storefront.segmentOfferEndpoint offline;
     Storefront.writable := true |}.

Definition blankPage : Storefront.Page :=
  {| Storefront.isInitialized := false;
     Storefront.storage := Storefront.NoItem;
     Storefront.marquee := None;
     Storefront.segmentOfferData := None |}.

Definition shopWindow : Storefront.Window :=
  {| Storefront.shopifyCustomer := Some shopper;
     Storefront.windowCustomerData := None |}.

(** The plan of the segment "VIP" with its rule on the bare collection id. *)
Definition worldBareIds : Order.World :=
  {| Order.sessions := fun _ => Some "token";
     Order.customerService := fun _ => customerVip;
     Order.segmentCatalog := Order.SegmentsData [segmentVip];
     Order.planStore := [plan "gold" "gid://shopify/Segment/1" [rule "1" 15]];
     Order.productCollections := inCollection1;
     Order.orderSink := fun _ _ => Order.DraftData (Some draft) |}.

(** A customer tagged "VIP" and "Gold" in a catalog that lists the segment
    "Gold", which has no plan, before the segment "VIP". *)
Definition worldTwoSegments : Order.World :=
  {| Order.sessions := fun _ => Some "token";
     Order.customerService :=
       fun _ => Order.CustomerData
                  (Some {| Order.customerGid := "gid://shopify/Customer/9";
                           Order.customerTags := ["VIP"; "Gold"] |});
     Order.segmentCatalog :=
       Order.SegmentsData [mkSegment "gid://shopify/Segment/2" "Gold"; segmentVip];
     Order.planStore := [planVip];
     Order.productCollections := inCollection1;
     Order.orderSink := fun _ _ => Order.DraftData (Some draft) |}.

End Sample.

(** ** Notions used by the further properties *)

Module Derived.

(** A request the handler rejects during validation: a missing shop or
    customer id, or a cart that is missing, ill-formed or empty. *)
Definition malformed (req : Order.Request) : bool :=
  Order.isEmptyString (Order.shop req)
  || Order.isEmptyString (Order.customerId req)
  || match Order.processCart (Order.cartItems req) with
     | inl _ => true
     | inr [] => true
     | inr (_ :: _) => false
     end.

(** The line item the order sink should receive for a cart line: its
    variant and quantity, and the best percentOff of the line when it has
    one. *)
Definition expectedLineItem (w : Order.World) (rules : list Rule)
  (item : Order.CartItem) : Order.LineItem :=
  {| Order.liVariantId := Order.variantId item;
     Order.liQuantity := Order.quantity item;
     Order.liAppliedDiscount :=
       if Spec.qualifies w rules item
       then Some (snd (Order.value
                         (Order.bestDiscountFor w (Order.productId item) rules)))
       else None |}.

(** The calls of steps 1 to 5 for a request that reaches the calculator. *)
Definition lookupCalls (w : Order.World) (req : Order.Request) (segment : Segment)
  : list Order.Event :=
  [ Order.SessionLookup (Order.shop req);
    Order.FetchCustomer (formatCustomerId (Order.customerId req));
    Order.FetchSegments;
    Order.PlanFindFirst (segmentId segment) ]
  ++ match PlanStore.findFirst (Order.planStore w) (segmentId segment) with
     | Some _ => []
     | None => [Order.PlanFindFirst (segmentName segment)]
     end.



(** The category identifiers of a rule list, each at its first occurrence. *)
Fixpoint firstOccurrences (seen : list string) (rules : list Rule) : list string :=
  match rules with
  | [] => []
  | r :: rest =>
      if existsb (String.eqb (categoryId r)) seen
      then firstOccurrences seen rest
      else categoryId r :: firstOccurrences (categoryId r :: seen) rest
  end.

(** Two recorded discounts that agree on everything but the collection. *)
Definition sameAmounts (d d' : Order.Discount) : Prop :=
  Order.dProductId d = Order.dProductId d' /\
  Order.dPercentOff d = Order.dPercentOff d' /\
  Order.dOriginalPrice d = Order.dOriginalPrice d' /\
  Order.dDiscountedPrice d = Order.dDiscountedPrice d' /\
  Order.dDiscountAmount d = Order.dDiscountAmount d'.

(** What every collection of an offer says about its key of the rule map,
    whatever the metadata: the numeric id of the key, the percentOff the
    map gives to the key, a name equal to the title, and a title that is
    not empty. *)
Definition describes (ruleMap : Resolver.RuleMap) (collectionId : string)
  (c : Offer.Collection) : Prop :=
  Offer.colId c = Offer.numericIdOf collectionId /\
  Offer.colPercentOff c = Resolver.get collectionId ruleMap /\
  Offer.colName c = Offer.colTitle c /\
  Offer.colTitle c <> "".

(** What a link of the marquee shows of a collection the endpoint reports:
    its title, which is not empty, its percentOff, and as target the
    collection page of the shop, or "#" when the handle is unknown. *)
Definition tagShows (env : Storefront.Env) (c : Offer.Collection)
  (t : Storefront.Tag) : Prop :=
  Storefront.label t = Offer.colTitle c /\
  Storefront.label t <> "" /\
  Storefront.tagPercentOff t = Offer.colPercentOff c /\
  Storefront.href t
  = match Offer.colHandle c with
    | EmptyString => "#"
    | h => Storefront.origin env ++ "/collections/" ++ h
    end.

(** The membership answers name collections by their full identifiers, as
    the catalog does. *)
Definition reportsGids (w : Order.World) : Prop :=
  forall productId collectionId collections,
    Order.productCollections w productId collectionId
    = Order.MembershipData (Some collections) ->
    Forall (fun c => JS.startsWith c collectionPrefix = true) collections.

(** The collections of an offer, by handler. *)
Definition collectionsFor (h : Offer.Handler) (w : Offer.World) (storeUrl : string)
  (ruleMap : Resolver.RuleMap) : list Offer.Collection :=
  match h with
  | Offer.Action => Offer.actionCollections w storeUrl ruleMap
  | Offer.Loader => Offer.loaderCollections w ruleMap
  end.

(** No rule names its collection after a member of [Object.prototype]. *)
Definition plainCategories (rules : list Rule) : Prop :=
  Forall (fun r => Resolver.isPrototypeMember (categoryId r) = false) rules.

End Derived.

(** * Properties *)

(** ** Numbers *)

Section Numbers.

Lemma gt_true (a b : JS.number) : JS.gt a b = true <-> (b < a)%Qc.
Proof.
  unfold JS.gt. pose proof (Qcgt_alt a b) as H. unfold Qclt.
  destruct (a ?= b)%Qc; split; intros E; try congruence;
    try (apply H in E; congruence); apply H; reflexivity.
Qed.

Lemma gt_false (a b : JS.number) : JS.gt a b = false <-> (a <= b)%Qc.
Proof.
  rewrite Qcle_alt. unfold JS.gt.
  destruct (a ?= b)%Qc; split; congruence.
Qed.

End Numbers.

(** Orders on canonical rationals are those of the underlying fractions. *)
Ltac qc_order :=
  repeat match goal with
         | H : JS.gt _ _ = true |- _ => apply gt_true in H
         | H : JS.gt _ _ = false |- _ => apply gt_false in H
         | |- JS.gt _ _ = true => apply gt_true
         | |- JS.gt _ _ = false => apply gt_false
         end;
  try match goal with |- @eq Qc _ _ => apply Qc_is_canon end;
  unfold JS.num, Qclt, Qcle in *; simpl in *; lra.

(** Equations of the field of canonical rationals. *)
Ltac qc_ring :=
  change (JS.num 0) with (Q2Qc 0) in *;
  ring.

(** Closed equations and disequations between numbers, by evaluation. *)
Ltac qc_eval :=
  match goal with
  | |- @eq Qc _ _ => apply Qc_is_canon; vm_compute; reflexivity
  | |- _ <> _ =>
      let H := fresh in
      intros H; apply (f_equal this) in H; vm_compute in H; discriminate H
  end.

Section MaxLemmas.

Lemma Math_max_ge_l (a b : JS.number) : (a <= JS.Math_max a b)%Qc.
Proof. unfold JS.Math_max. destruct (JS.gt b a) eqn:E; qc_order. Qed.

Lemma Math_max_ge_r (a b : JS.number) : (b <= JS.Math_max a b)%Qc.
Proof. unfold JS.Math_max. destruct (JS.gt b a) eqn:E; qc_order. Qed.

Lemma Math_max_cases (a b : JS.number) :
  (JS.Math_max a b = a /\ (b <= a)%Qc) \/ (JS.Math_max a b = b /\ (a < b)%Qc).
Proof.
  unfold JS.Math_max. destruct (JS.gt b a) eqn:E; [right | left]; split; auto; qc_order.
Qed.

Lemma Math_max_assoc (a b c : JS.number) :
  JS.Math_max (JS.Math_max a b) c = JS.Math_max a (JS.Math_max b c).
Proof.
  destruct (Math_max_cases a b) as [[E1 H1] | [E1 H1]];
  destruct (Math_max_cases b c) as [[E2 H2] | [E2 H2]];
  rewrite E1, E2;
  destruct (Math_max_cases a c) as [[E3 H3] | [E3 H3]];
  destruct (Math_max_cases a b) as [[E4 H4] | [E4 H4]];
  destruct (Math_max_cases b c) as [[E5 H5] | [E5 H5]];
  try congruence; qc_order.
Qed.

(** A left fold of [Math.max] is the maximum of its seed and of the rest. *)
Lemma fold_max_seed (l : list JS.number) (a b : JS.number) :
  fold_left JS.Math_max l (JS.Math_max a b) = JS.Math_max a (fold_left JS.Math_max l b).
Proof.
  revert a b. induction l as [| x l IH]; intros a b; simpl; [reflexivity |].
  rewrite Math_max_assoc. apply IH.
Qed.

Lemma fold_max_ge_seed (l : list JS.number) (a : JS.number) :
  (a <= fold_left JS.Math_max l a)%Qc.
Proof.
  revert a. induction l as [| x l IH]; intros a; simpl.
  - qc_order.
  - pose proof (IH (JS.Math_max a x)). pose proof (Math_max_ge_l a x). qc_order.
Qed.

Lemma fold_max_ge_elem (l : list JS.number) (a x : JS.number) :
  In x l -> (x <= fold_left JS.Math_max l a)%Qc.
Proof.
  revert a. induction l as [| y l IH]; intros a Hin; simpl in *; [tauto |].
  destruct Hin as [-> | Hin].
  - pose proof (fold_max_ge_seed l (JS.Math_max a x)).
    pose proof (Math_max_ge_r a x). qc_order.
  - apply IH, Hin.
Qed.

Lemma fold_max_attained (l : list JS.number) (a : JS.number) :
  fold_left JS.Math_max l a = a \/ In (fold_left JS.Math_max l a) l.
Proof.
  revert a. induction l as [| y l IH]; intros a; simpl; [auto |].
  destruct (IH (JS.Math_max a y)) as [E | Hin]; [| auto].
  rewrite E. destruct (Math_max_cases a y) as [[-> _] | [-> _]]; auto.
Qed.

End MaxLemmas.

(** ** Strings *)

Section StringLemmas.

Lemma prefix_refl (s : string) : String.prefix s s = true.
Proof.
  induction s as [| c s IH]; simpl; [reflexivity |].
  destruct (ascii_dec c c); [assumption | congruence].
Qed.

Lemma append_nil (s : string) : "" ++ s = s.
Proof. reflexivity. Qed.

Lemma append_cons (c : ascii) (s t : string) : String c s ++ t = String c (s ++ t).
Proof. reflexivity. Qed.


Lemma prefix_append (p s : string) : String.prefix p (p ++ s) = true.
Proof.
  induction p as [| c p IH].
  - rewrite append_nil. destruct s; reflexivity.
  - rewrite append_cons. simpl.
    destruct (ascii_dec c c); [assumption | congruence].
Qed.

Lemma includes_refl (s : string) : JS.includes s s = true.
Proof. destruct s; cbn [JS.includes]; rewrite prefix_refl; reflexivity. Qed.

Lemma dropChars_append (p s : string) : JS.dropChars (String.length p) (p ++ s) = s.
Proof.
  induction p as [| c p IH]; [reflexivity |].
  rewrite append_cons. simpl. exact IH.
Qed.

Lemma removeFirst_append (p s : string) : JS.removeFirst (p ++ s) p = s.
Proof.
  assert (E : JS.removeFirst (p ++ s) p = JS.dropChars (String.length p) (p ++ s)).
  { destruct (p ++ s) eqn:Eq; cbn [JS.removeFirst];
      rewrite <- Eq, prefix_append; reflexivity. }
  rewrite E. apply dropChars_append.
Qed.






End StringLemmas.

(** ** Identifier normaliser *)

Section IdentifierNormalizer.






Lemma formatCustomerId_canonical (s : string) :
  JS.startsWith s customerPrefix = true -> formatCustomerId s = s.
Proof. intros H. unfold formatCustomerId. rewrite H. reflexivity. Qed.




End IdentifierNormalizer.

(** ** Plan selector *)

Section PlanSelector.

Lemma fold_max_percentOff (rs : list Rule) (a : JS.number) :
  fold_left (fun max r => JS.Math_max max (percentOff r)) rs a
  = fold_left JS.Math_max (map percentOff rs) a.
Proof. revert a. induction rs as [| r rs IH]; intros a; simpl; auto. Qed.

(** The reduction of the code starts from 0: it is the larger of 0 and of
    the maximum over the rules. *)
Lemma planMax_code_spec (plan : DiscountPlan) :
  Selector.planMax plan = JS.Math_max (JS.num 0) (Spec.planMax plan).
Proof.
  unfold Selector.planMax, Spec.planMax. rewrite fold_max_percentOff.
  destruct (rules plan) as [| r rs]; simpl.
  - reflexivity.
  - apply fold_max_seed.
Qed.

Lemma planMax_nonneg (plan : DiscountPlan) : (JS.num 0 <= Selector.planMax plan)%Qc.
Proof. rewrite planMax_code_spec. apply Math_max_ge_l. Qed.

Lemma planMax_ge_spec (plan : DiscountPlan) :
  (Spec.planMax plan <= Selector.planMax plan)%Qc.
Proof. rewrite planMax_code_spec. apply Math_max_ge_r. Qed.

Lemma planMax_positive (plan : DiscountPlan) :
  (JS.num 0 < Selector.planMax plan)%Qc ->
  Selector.planMax plan = Spec.planMax plan /\ rules plan <> [].
Proof.
  rewrite planMax_code_spec.
  destruct (Math_max_cases (JS.num 0) (Spec.planMax plan)) as [[E H] | [E H]];
    rewrite E; intros Hpos.
  - exfalso. qc_order.
  - split; [reflexivity |]. intros Hnil.
    unfold Spec.planMax in H. rewrite Hnil in H. qc_order.
Qed.

Lemma planMax_of_positive_spec (plan : DiscountPlan) :
  (JS.num 0 < Spec.planMax plan)%Qc -> Selector.planMax plan = Spec.planMax plan.
Proof.
  intros H. rewrite planMax_code_spec.
  destruct (Math_max_cases (JS.num 0) (Spec.planMax plan)) as [[E H'] | [E H']];
    [exfalso; qc_order | exact E].
Qed.

Lemma scan_snoc (plans : list DiscountPlan) (plan : DiscountPlan) :
  Selector.scan (plans ++ [plan]) = Selector.step (Selector.scan plans) plan.
Proof. unfold Selector.scan. rewrite fold_left_app. reflexivity. Qed.

(** What the loop over the candidates has found after any number of turns:
    nothing while no maximum is positive, otherwise the first plan that
    reaches the greatest maximum. *)
Lemma scan_invariant (plans : list DiscountPlan) :
  (fst (Selector.scan plans) = None /\
   snd (Selector.scan plans) = JS.num 0 /\
   forall q, In q plans -> (Selector.planMax q <= JS.num 0)%Qc)
  \/
  (exists before best after,
      plans = (before ++ best :: after)%list /\
      Selector.scan plans = (Some best, Selector.planMax best) /\
      (JS.num 0 < Selector.planMax best)%Qc /\
      (forall q, In q before -> (Selector.planMax q < Selector.planMax best)%Qc) /\
      (forall q, In q after -> (Selector.planMax q <= Selector.planMax best)%Qc)).
Proof.
  induction plans as [| x plans IH] using rev_ind.
  - left. repeat split. intros q [].
  - rewrite scan_snoc. unfold Selector.step.
    destruct (JS.gt (Selector.planMax x) (snd (Selector.scan plans))) eqn:G.
    + right. exists plans, x, []. split; [reflexivity |].
      split; [reflexivity |].
      destruct IH as [(Hb & Hm & Hall) | (before & best & after & -> & Hs & Hpos & Hbef & Haft)].
      * rewrite Hm in G. split; [qc_order |]. split; [| intros q []].
        intros q Hq. specialize (Hall q Hq). qc_order.
      * rewrite Hs in G. simpl in G. split; [qc_order |]. split; [| intros q []].
        intros q Hq. apply in_app_iff in Hq. destruct Hq as [Hq | [<- | Hq]].
        -- specialize (Hbef q Hq). qc_order.
        -- qc_order.
        -- specialize (Haft q Hq). qc_order.
    + destruct IH as [(Hb & Hm & Hall) | (before & best & after & -> & Hs & Hpos & Hbef & Haft)].
      * left. split; [exact Hb |]. split; [exact Hm |].
        intros q Hq. apply in_app_iff in Hq. destruct Hq as [Hq | [<- | []]].
        -- apply Hall, Hq.
        -- rewrite Hm in G. qc_order.
      * right. exists before, best, (after ++ [x])%list.
        split; [rewrite <- app_assoc; reflexivity |].
        split; [exact Hs |]. split; [exact Hpos |]. split; [exact Hbef |].
        intros q Hq. apply in_app_iff in Hq. destruct Hq as [Hq | [<- | []]].
        -- apply Haft, Hq.
        -- rewrite Hs in G. simpl in G. qc_order.
Qed.

(** C1. The selected plan is the first one, in fetch order, whose maximum
    percentOff is the greatest of all candidates, provided that maximum is
    positive: every earlier plan has a strictly smaller maximum, no later one
    a larger one. When no candidate has a positive maximum (no rules, or
    rules at 0% or below), nothing is selected. *)
Theorem plan_selector_first_greatest :
  forall discountPlans : list DiscountPlan,
    ((forall p, In p discountPlans -> (Spec.planMax p <= JS.num 0)%Qc) ->
     Selector.selectBestPlan discountPlans = None)
    /\
    ((exists p, In p discountPlans /\ (JS.num 0 < Spec.planMax p)%Qc) ->
     exists before best after,
       discountPlans = (before ++ best :: after)%list /\
       Selector.selectBestPlan discountPlans = Some (best, Spec.planMax best) /\
       (JS.num 0 < Spec.planMax best)%Qc /\
       (forall q, In q before -> (Spec.planMax q < Spec.planMax best)%Qc) /\
       (forall q, In q after -> (Spec.planMax q <= Spec.planMax best)%Qc)).
Proof.
  intros discountPlans. unfold Selector.selectBestPlan.
  destruct (scan_invariant discountPlans)
    as [(Hb & Hm & Hall) | (before & best & after & E & Hs & Hpos & Hbef & Haft)].
  - split.
    + intros _. destruct (Selector.scan discountPlans) as [b m]. simpl in Hb.
      rewrite Hb. reflexivity.
    + intros (p & Hp & Hpos). exfalso.
      specialize (Hall p Hp). pose proof (planMax_ge_spec p). qc_order.
  - destruct (planMax_positive best Hpos) as [Eb Hrules].
    split.
    + intros Hall. exfalso.
      assert (Hin : In best discountPlans)
        by (rewrite E; apply in_app_iff; right; left; reflexivity).
      specialize (Hall best Hin). rewrite Eb in Hpos. qc_order.
    + intros _. exists before, best, after.
      split; [exact E |]. rewrite Hs, <- Eb.
      split; [destruct (rules best); [congruence | reflexivity] |].
      split; [exact Hpos |]. split.
      * intros q Hq. specialize (Hbef q Hq). pose proof (planMax_ge_spec q). qc_order.
      * intros q Hq. specialize (Haft q Hq). pose proof (planMax_ge_spec q). qc_order.
Qed.

End PlanSelector.

Section PlanSelectorExamples.

Lemma plan_selector_first_greatest_witness :
  Selector.selectBestPlan [Sample.planEmpty; Sample.planZero] = None /\
  exists before best after,
    [Sample.plan10; Sample.plan25; Sample.plan25'] = (before ++ best :: after)%list /\
    Selector.selectBestPlan [Sample.plan10; Sample.plan25; Sample.plan25']
      = Some (best, Spec.planMax best) /\
    (JS.num 0 < Spec.planMax best)%Qc /\
    (forall q, In q before -> (Spec.planMax q < Spec.planMax best)%Qc) /\
    (forall q, In q after -> (Spec.planMax q <= Spec.planMax best)%Qc).
Proof.
  split.
  - apply (proj1 (plan_selector_first_greatest [Sample.planEmpty; Sample.planZero])).
    intros p [<- | [<- | []]]; vm_compute; discriminate.
  - apply (proj2 (plan_selector_first_greatest
                    [Sample.plan10; Sample.plan25; Sample.plan25'])).
    exists Sample.plan25. split; [simpl; auto | reflexivity].
Defined.

(** "Two plans target the same segment with max rule percentages 10 and 25":
    the 25% plan is selected, and of two plans at 25% the first one. *)
Example plan_selector_best_of_10_and_25 :
  Selector.selectBestPlan [Sample.plan10; Sample.plan25; Sample.plan25']
  = Some (Sample.plan25, JS.num 25).
Proof. reflexivity. Qed.

End PlanSelectorExamples.

(** ** Rule resolver *)

Section RuleResolver.

Lemma get_set (k k' : string) (v : JS.number) (m : Resolver.RuleMap) :
  Resolver.get k (Resolver.set k' v m)
  = if String.eqb k k' then Some v else Resolver.get k m.
Proof.
  induction m as [| [k0 v0] m IH]; simpl.
  - destruct (String.eqb k k'); reflexivity.
  - destruct (String.eqb k' k0) eqn:E0; simpl.
    + apply String.eqb_eq in E0. subst k0.
      destruct (String.eqb k k'); reflexivity.
    + destruct (String.eqb k k0) eqn:E1; [| exact IH].
      apply String.eqb_eq in E1. subst k0.
      rewrite String.eqb_sym, E0. reflexivity.
Qed.

Lemma keys_set (k : string) (v : JS.number) (m : Resolver.RuleMap) :
  Resolver.ownKeys (Resolver.set k v m)
  = match Resolver.get k m with
    | Some _ => Resolver.ownKeys m
    | None => (Resolver.ownKeys m ++ [k])%list
    end.
Proof.
  unfold Resolver.ownKeys.
  induction m as [| [k0 v0] m IH]; simpl; [reflexivity |].
  destruct (String.eqb k k0); simpl; [reflexivity |].
  rewrite IH. destruct (Resolver.get k m); reflexivity.
Qed.

Lemma get_None_keys (k : string) (m : Resolver.RuleMap) :
  Resolver.get k m = None -> ~ In k (Resolver.ownKeys m).
Proof.
  induction m as [| [k0 v0] m IH]; simpl; [tauto |].
  destruct (String.eqb k k0) eqn:E; [discriminate |].
  apply String.eqb_neq in E. intros H [H0 | H0]; [congruence | exact (IH H H0)].
Qed.

Lemma NoDup_keys_set (k : string) (v : JS.number) (m : Resolver.RuleMap) :
  NoDup (Resolver.ownKeys m) -> NoDup (Resolver.ownKeys (Resolver.set k v m)).
Proof.
  intros H. rewrite keys_set. destruct (Resolver.get k m) eqn:E; [exact H |].
  apply NoDup_app. split; [exact H |]. split.
  - intros x Hx Hk. apply list_elem_of_In in Hx.
    apply list_elem_of_In in Hk. destruct Hk as [<- | []].
    exact (get_None_keys _ _ E Hx).
  - apply NoDup_singleton.
Qed.

Lemma NoDup_keys_step (m : Resolver.RuleMap) (r : Rule) :
  NoDup (Resolver.ownKeys m) -> NoDup (Resolver.ownKeys (Resolver.step m r)).
Proof.
  intros H. unfold Resolver.step, Resolver.read.
  destruct (Resolver.get (categoryId r) m) as [existing |].
  - destruct (JS.gt (percentOff r) existing); [apply NoDup_keys_set, H | exact H].
  - destruct (Resolver.isPrototypeMember (categoryId r));
      [exact H | apply NoDup_keys_set, H].
Qed.

Lemma NoDup_keys_fold (rs : list Rule) (m : Resolver.RuleMap) :
  NoDup (Resolver.ownKeys m) ->
  NoDup (Resolver.ownKeys (fold_left Resolver.step rs m)).
Proof.
  revert m. induction rs as [| r rs IH]; intros m H; simpl; [exact H |].
  apply IH, NoDup_keys_step, H.
Qed.

(** [Object.keys] lists the own keys, each once. *)
Lemma insertIndex_perm (n : N) (k : string) (l : list (N * string)) :
  Permutation (map snd (Resolver.insertIndex n k l)) (k :: map snd l).
Proof.
  induction l as [| [m k'] l IH]; cbn [Resolver.insertIndex map snd]; [reflexivity |].
  destruct (n <? m)%N; cbn [map snd]; [reflexivity |].
  rewrite IH. apply perm_swap.
Qed.

Lemma enumerate_perm (keys : list string) :
  Permutation
    (map snd (Resolver.indexKeys keys)
     ++ List.filter (fun k => negb (Resolver.isArrayIndex k)) keys)%list
    keys.
Proof.
  induction keys as [| k keys IH]; [reflexivity |].
  cbn [Resolver.indexKeys fold_right List.filter]. fold (Resolver.indexKeys keys).
  unfold Resolver.isArrayIndex at 1.
  destruct (Resolver.arrayIndex k) as [n |]; cbn [negb].
  - rewrite insertIndex_perm. cbn [app]. apply perm_skip, IH.
  - apply Permutation_sym, Permutation_cons_app, Permutation_sym, IH.
Qed.

Lemma Object_keys_perm (m : Resolver.RuleMap) :
  Permutation (Resolver.Object_keys m) (Resolver.ownKeys m).
Proof. apply enumerate_perm. Qed.

Lemma Object_keys_In (m : Resolver.RuleMap) (k : string) :
  In k (Resolver.Object_keys m) <-> In k (Resolver.ownKeys m).
Proof.
  split; apply Permutation_in; [| apply Permutation_sym]; apply Object_keys_perm.
Qed.

Lemma Object_keys_NoDup (m : Resolver.RuleMap) :
  NoDup (Resolver.ownKeys m) -> NoDup (Resolver.Object_keys m).
Proof.
  intros H. apply NoDup_ListNoDup. apply NoDup_ListNoDup in H.
  exact (Permutation_NoDup (Permutation_sym (Object_keys_perm m)) H).
Qed.

(** Without array indices among the keys, [Object.keys] follows the order
    of creation. *)
Lemma Object_keys_plain (m : Resolver.RuleMap) :
  Forall (fun k => Resolver.isArrayIndex k = false) (Resolver.ownKeys m) ->
  Resolver.Object_keys m = Resolver.ownKeys m.
Proof.
  unfold Resolver.Object_keys. induction 1 as [| k keys Hk Hks IH]; [reflexivity |].
  cbn [Resolver.indexKeys fold_right List.filter]. fold (Resolver.indexKeys keys).
  rewrite Hk. unfold Resolver.isArrayIndex in Hk.
  destruct (Resolver.arrayIndex k); [discriminate |]. cbn [negb].
  assert (E : Resolver.indexKeys keys = []).
  { clear IH. induction Hks as [| k' keys Hk' _ IHk]; [reflexivity |].
    cbn [Resolver.indexKeys fold_right]. fold (Resolver.indexKeys keys).
    unfold Resolver.isArrayIndex in Hk'.
    destruct (Resolver.arrayIndex k'); [discriminate | exact IHk]. }
  rewrite E in IH |- *. cbn [map app] in IH |- *. rewrite IH. reflexivity.
Qed.

(** One turn of the loop, seen from a key. *)
Lemma get_step (k : string) (m : Resolver.RuleMap) (r : Rule) :
  Resolver.get k (Resolver.step m r)
  = if String.eqb (categoryId r) k
    then match Resolver.get k m with
         | Some existing => Some (JS.Math_max existing (percentOff r))
         | None => if Resolver.isPrototypeMember k then None else Some (percentOff r)
         end
    else Resolver.get k m.
Proof.
  unfold Resolver.step, Resolver.read.
  destruct (String.eqb (categoryId r) k) eqn:E.
  - apply String.eqb_eq in E. subst k.
    destruct (Resolver.get (categoryId r) m) as [existing |] eqn:G.
    + unfold JS.Math_max. destruct (JS.gt (percentOff r) existing).
      * rewrite get_set, String.eqb_refl. reflexivity.
      * exact G.
    + destruct (Resolver.isPrototypeMember (categoryId r)); [exact G |].
      rewrite get_set, String.eqb_refl. reflexivity.
  - assert (E' : String.eqb k (categoryId r) = false)
      by (rewrite String.eqb_sym; exact E).
    destruct (Resolver.get (categoryId r) m) as [existing |].
    + destruct (JS.gt (percentOff r) existing); [| reflexivity].
      rewrite get_set, E'. reflexivity.
    + destruct (Resolver.isPrototypeMember (categoryId r)); [reflexivity |].
      rewrite get_set, E'. reflexivity.
Qed.

Lemma get_fold (k : string) (rs : list Rule) (m : Resolver.RuleMap) :
  Resolver.get k (fold_left Resolver.step rs m)
  = match Resolver.get k m with
    | None =>
        if Resolver.isPrototypeMember k then None else Spec.maxPercentFor k rs
    | Some existing =>
        Some (fold_left JS.Math_max
                (map percentOff (List.filter (fun r => String.eqb (categoryId r) k) rs))
                existing)
    end.
Proof.
  revert m. induction rs as [| r rs IH]; intros m; simpl.
  - destruct (Resolver.get k m); [reflexivity |].
    destruct (Resolver.isPrototypeMember k); reflexivity.
  - rewrite IH, get_step. unfold Spec.maxPercentFor. simpl.
    destruct (String.eqb (categoryId r) k); [| reflexivity].
    destruct (Resolver.get k m); [reflexivity |].
    destruct (Resolver.isPrototypeMember k); reflexivity.
Qed.

(** What the resolver gives to a key: nothing to a name of an inherited
    member, and otherwise the greatest percentOff of the rules of the key. *)
Lemma get_resolveRules (k : string) (rules : list Rule) :
  Resolver.get k (Resolver.resolveRules rules)
  = if Resolver.isPrototypeMember k then None else Spec.maxPercentFor k rules.
Proof. unfold Resolver.resolveRules. rewrite get_fold. reflexivity. Qed.

Lemma get_Some_ownKeys (k : string) (m : Resolver.RuleMap) (v : JS.number) :
  Resolver.get k m = Some v -> In k (Resolver.ownKeys m).
Proof.
  induction m as [| [k0 v0] m IH]; simpl; [discriminate |].
  destruct (String.eqb k k0) eqn:E.
  - apply String.eqb_eq in E. auto.
  - intros H. right. apply IH, H.
Qed.

Lemma get_Some_keys (k : string) (m : Resolver.RuleMap) (v : JS.number) :
  Resolver.get k m = Some v -> In k (Resolver.Object_keys m).
Proof. intros H. apply Object_keys_In. exact (get_Some_ownKeys _ _ _ H). Qed.

Lemma keys_get_Some (k : string) (m : Resolver.RuleMap) :
  In k (Resolver.Object_keys m) -> exists v, Resolver.get k m = Some v.
Proof.
  intros H. apply Object_keys_In in H.
  destruct (Resolver.get k m) as [v |] eqn:G; [eauto |].
  exfalso. exact (get_None_keys _ _ G H).
Qed.

(** A key of the resolved object is no name of an inherited member, and its
    value is the maximum of its category. *)
Lemma resolved_key (rs : list Rule) (k : string) :
  In k (Resolver.Object_keys (Resolver.resolveRules rs)) ->
  Resolver.isPrototypeMember k = false /\
  Resolver.get k (Resolver.resolveRules rs) = Spec.maxPercentFor k rs.
Proof.
  intros H. destruct (keys_get_Some _ _ H) as (v & G).
  pose proof (get_resolveRules k rs) as R. rewrite G in R.
  destruct (Resolver.isPrototypeMember k); [discriminate |].
  split; [reflexivity |]. rewrite G. exact R.
Qed.


Lemma asMap_lookup (m : Resolver.RuleMap) (k : string) :
  Resolver.asMap m !! k = Resolver.get k m.
Proof.
  unfold Resolver.asMap. induction m as [| [k0 v0] m IH]; simpl.
  - apply lookup_empty.
  - destruct (String.eqb k k0) eqn:E.
    + apply String.eqb_eq in E. subst k0. apply lookup_insert_eq.
    + apply String.eqb_neq in E. rewrite lookup_insert_ne by congruence. exact IH.
Qed.

(** The maximum of a category is a percentOff of one of its rules that no
    rule of the category exceeds. *)
Lemma maxPercentFor_Some (k : string) (rs : list Rule) (v : JS.number) :
  Spec.maxPercentFor k rs = Some v ->
  (exists r, In r rs /\ categoryId r = k /\ percentOff r = v) /\
  (forall r, In r rs -> categoryId r = k -> (percentOff r <= v)%Qc).
Proof.
  unfold Spec.maxPercentFor.
  destruct (List.filter (fun r => String.eqb (categoryId r) k) rs) as [| r0 rs0] eqn:F;
    [discriminate |].
  intros [= <-].
  assert (Hmem : forall r, In r (r0 :: rs0) <-> In r rs /\ categoryId r = k).
  { intros r. rewrite <- F, filter_In, String.eqb_eq. reflexivity. }
  split.
  - destruct (fold_max_attained (map percentOff rs0) (percentOff r0)) as [E | Hin].
    + exists r0. rewrite E. destruct (proj1 (Hmem r0)) as [H1 H2]; [left; reflexivity |].
      auto.
    + apply in_map_iff in Hin. destruct Hin as (r & Er & Hr).
      exists r. destruct (proj1 (Hmem r)) as [H1 H2]; [right; exact Hr |]. auto.
  - intros r Hr Hk. destruct (proj2 (Hmem r) (conj Hr Hk)) as [<- | Hin].
    + apply fold_max_ge_seed.
    + apply fold_max_ge_elem, in_map, Hin.
Qed.

Lemma maxPercentFor_None (k : string) (rs : list Rule) :
  Spec.maxPercentFor k rs = None -> forall r, In r rs -> categoryId r <> k.
Proof.
  unfold Spec.maxPercentFor.
  destruct (List.filter (fun r => String.eqb (categoryId r) k) rs) as [| r0 rs0] eqn:F;
    [| discriminate].
  intros _ r Hr Hk.
  assert (Hin : In r (List.filter (fun r => String.eqb (categoryId r) k) rs))
    by (apply filter_In; split; [exact Hr | apply String.eqb_eq, Hk]).
  rewrite F in Hin. exact Hin.
Qed.

Lemma maxPercentFor_perm (k : string) (rs rs' : list Rule) :
  Permutation rs rs' -> Spec.maxPercentFor k rs = Spec.maxPercentFor k rs'.
Proof.
  intros P.
  destruct (Spec.maxPercentFor k rs) as [v |] eqn:E;
    destruct (Spec.maxPercentFor k rs') as [v' |] eqn:E'; try reflexivity.
  - apply maxPercentFor_Some in E. apply maxPercentFor_Some in E'.
    destruct E as [(r & Hr & Hk & Hv) Hub]. destruct E' as [(r' & Hr' & Hk' & Hv') Hub'].
    f_equal. apply Qcle_antisym.
    + rewrite <- Hv. apply Hub'; [| exact Hk]. exact (Permutation_in _ P Hr).
    + rewrite <- Hv'. apply Hub; [| exact Hk'].
      exact (Permutation_in _ (Permutation_sym P) Hr').
  - apply maxPercentFor_Some in E. destruct E as [(r & Hr & Hk & _) _].
    exfalso. exact (maxPercentFor_None _ _ E' r (Permutation_in _ P Hr) Hk).
  - apply maxPercentFor_Some in E'. destruct E' as [(r & Hr & Hk & _) _].
    exfalso.
    exact (maxPercentFor_None _ _ E r (Permutation_in _ (Permutation_sym P) Hr) Hk).
Qed.

(** X30. The rule resolver, as the code has it. The resolved object holds
    nothing under the name of a member of [Object.prototype], whatever the
    rules; to every other categoryId it gives exactly the maximum percentOff
    of the rules of that category (and nothing to a category without a
    rule); [Object.keys] lists every key once; and two rule lists that are
    permutations of one another resolve to the same map. *)
Theorem rule_resolver_max_per_category :
  forall rules : list Rule,
    (forall k, Resolver.asMap (Resolver.resolveRules rules) !! k
               = if Resolver.isPrototypeMember k then None
                 else Spec.maxPercentFor k rules) /\
    NoDup (Resolver.Object_keys (Resolver.resolveRules rules)) /\
    (forall rules', Permutation rules rules' ->
       Resolver.asMap (Resolver.resolveRules rules)
       = Resolver.asMap (Resolver.resolveRules rules')).
Proof.
  intros rs.
  assert (L : forall l k, Resolver.asMap (Resolver.resolveRules l) !! k
                          = if Resolver.isPrototypeMember k then None
                            else Spec.maxPercentFor k l).
  { intros l k. rewrite asMap_lookup. apply get_resolveRules. }
  split; [apply L |]. split.
  - apply Object_keys_NoDup, NoDup_keys_fold. constructor.
  - intros rs' P. apply map_eq. intros k. rewrite !L.
    destruct (Resolver.isPrototypeMember k); [reflexivity |].
    apply maxPercentFor_perm, P.
Qed.

Lemma rule_resolver_max_per_category_witness :
  Resolver.asMap (Resolver.resolveRules [Sample.rule "c1" 10; Sample.rule "c2" 5; Sample.rule "c1" 20])
  = Resolver.asMap (Resolver.resolveRules [Sample.rule "c1" 20; Sample.rule "c1" 10; Sample.rule "c2" 5]).
Proof.
  apply (rule_resolver_max_per_category
           [Sample.rule "c1" 10; Sample.rule "c2" 5; Sample.rule "c1" 20]).
  apply Permutation_sym, Permutation_cons_app with (l1 := [_; _]) (l2 := []).
  reflexivity.
Defined.

(** "Two rules for the same collection at 10% and 20%": one entry, at 20%. *)
Example rule_resolver_duplicate_collapse :
  Resolver.resolveRules [Sample.rule "c1" 10; Sample.rule "c1" 20] = [("c1", JS.num 20)]
  /\ Resolver.resolveRules [Sample.rule "c1" 20; Sample.rule "c1" 10] = [("c1", JS.num 20)].
Proof. split; reflexivity. Qed.

(** C3. The claim fails on the code for a category named after a member of
    [Object.prototype]. For the rules "constructor" at 10% and "c1" at 5% the
    maximum percentOff of the category "constructor" is 10, but the resolved
    object has no entry for it: it holds "c1" at 5% alone. *)
Lemma rule_resolver_drops_inherited_names :
  Spec.maxPercentFor "constructor" [Sample.rule "constructor" 10; Sample.rule "c1" 5]
  = Some (JS.num 10)
  /\ Resolver.resolveRules [Sample.rule "constructor" 10; Sample.rule "c1" 5]
     = [("c1", JS.num 5)]
  /\ Resolver.asMap
       (Resolver.resolveRules [Sample.rule "constructor" 10; Sample.rule "c1" 5])
     !! "constructor" = None
  /\ Resolver.Object_keys
       (Resolver.resolveRules [Sample.rule "constructor" 10; Sample.rule "c1" 5])
     = ["c1"].
Proof.
  split; [reflexivity |]. split; [reflexivity |]. split; [| reflexivity].
  rewrite asMap_lookup. reflexivity.
Qed.


End RuleResolver.

(** ** Segment matcher *)

Section SegmentMatcher.

Lemma isSegmentPlan_true (plan : DiscountPlan) :
  PlanStore.isSegmentPlan plan = true <-> targetType plan = "segment".
Proof. unfold PlanStore.isSegmentPlan. apply String.eqb_eq. Qed.

Lemma findManyIn_In (store : list DiscountPlan) (keys : list string) (plan : DiscountPlan) :
  In plan (PlanStore.findManyIn store keys) <->
  In plan store /\ targetType plan = "segment" /\ In (targetKey plan) keys.
Proof.
  unfold PlanStore.findManyIn. rewrite filter_In, andb_true_iff, isSegmentPlan_true.
  rewrite existsb_exists. split.
  - intros (H & Ht & k & Hk & E). apply String.eqb_eq in E. subst k. auto.
  - intros (H & Ht & Hk). split; [exact H |]. split; [exact Ht |].
    exists (targetKey plan). split; [exact Hk | apply String.eqb_refl].
Qed.

Lemma orElse_nonempty {next : list DiscountPlan} (discountPlans : list DiscountPlan) :
  next <> [] -> Matcher.orElse discountPlans next <> [].
Proof.
  intros H. unfold Matcher.orElse. destruct discountPlans; simpl; [exact H | discriminate].
Qed.

Lemma containsMatch_In (store : list DiscountPlan) (tags : list string) (plan : DiscountPlan) :
  In plan store -> targetType plan = "segment" ->
  (exists tag, In tag tags /\ JS.toLowerCase tag = JS.toLowerCase (targetKey plan)) ->
  In plan (Matcher.containsMatch store (map JS.toLowerCase tags)).
Proof.
  intros Hin Ht (tag & Htag & E). unfold Matcher.containsMatch.
  apply filter_In. split.
  - unfold PlanStore.findManySegment. apply filter_In. split; [exact Hin |].
    apply isSegmentPlan_true, Ht.
  - apply existsb_exists. exists (JS.toLowerCase tag). split.
    + apply in_map, Htag.
    + rewrite E. apply includes_refl.
Qed.

(** C4, as the code has it. The first strategy of the cascade compares the
    lowercased tags with the stored key of a segment plan by plain equality:
    it finds a plan exactly when its key is the lowercase form of a tag. A
    tag that differs only in letter case from a key written in lowercase is
    therefore found by the first strategy; for a key with capitals the
    cascade still ends with a non-empty candidate set, the containment
    strategy catching what the earlier ones left, but not through the first
    strategy. In the order path the tag list must contain the segment name
    verbatim. *)
Theorem exact_match_compares_lowercased_tags :
  forall (store : list DiscountPlan) (tags : list string) (plan : DiscountPlan),
    (In plan (Matcher.exactMatch store (map JS.toLowerCase tags)) <->
     In plan store /\ targetType plan = "segment" /\
     exists tag, In tag tags /\ targetKey plan = JS.toLowerCase tag)
    /\
    (In plan store -> targetType plan = "segment" ->
     (exists tag, In tag tags /\ JS.toLowerCase tag = JS.toLowerCase (targetKey plan)) ->
     (JS.toLowerCase (targetKey plan) = targetKey plan ->
      In plan (Matcher.exactMatch store (map JS.toLowerCase tags)))
     /\ Matcher.findCandidatePlans store tags <> [])
    /\
    (forall segments segment,
       Matcher.matchSegment segments tags = Some segment ->
       In segment segments /\ In (segmentName segment) tags).
Proof.
  intros store tags plan.
  assert (H1 : In plan (Matcher.exactMatch store (map JS.toLowerCase tags)) <->
               In plan store /\ targetType plan = "segment" /\
               exists tag, In tag tags /\ targetKey plan = JS.toLowerCase tag).
  { unfold Matcher.exactMatch. rewrite findManyIn_In, in_map_iff.
    split; intros (H & Ht & tag & A & B); (split; [exact H |]);
      (split; [exact Ht |]); exists tag; auto. }
  split; [exact H1 |]. split.
  - intros Hin Ht (tag & Htag & E). split.
    + intros Hlow. apply H1. split; [exact Hin |]. split; [exact Ht |].
      exists tag. split; [exact Htag | congruence].
    + unfold Matcher.findCandidatePlans. apply orElse_nonempty.
      intros Hnil.
      pose proof (containsMatch_In store tags plan Hin Ht
                    (ex_intro _ tag (conj Htag E))) as Hc.
      rewrite Hnil in Hc. exact Hc.
  - intros segments segment Hm. unfold Matcher.matchSegment in Hm.
    apply find_some in Hm. destruct Hm as [Hin Hex]. split; [exact Hin |].
    apply existsb_exists in Hex. destruct Hex as (t & Ht & E).
    apply String.eqb_eq in E. rewrite E. exact Ht.
Qed.

Lemma exact_match_compares_lowercased_tags_witness :
  In (Sample.plan "gold" "vip" [Sample.rule "c1" 10])
     (Matcher.exactMatch [Sample.plan "gold" "vip" [Sample.rule "c1" 10]]
        (map JS.toLowerCase ["Regular"; "VIP"]))
  /\ Matcher.findCandidatePlans [Sample.plan "gold" "ViP" [Sample.rule "c1" 10]] ["vip"] <> []
  /\ In (segmentName (mkSegment "gid://shopify/Segment/1" "VIP")) ["VIP"].
Proof.
  split; [| split].
  - destruct (exact_match_compares_lowercased_tags
                [Sample.plan "gold" "vip" [Sample.rule "c1" 10]] ["Regular"; "VIP"]
                (Sample.plan "gold" "vip" [Sample.rule "c1" 10])) as (_ & H & _).
    apply H.
    + left. reflexivity.
    + reflexivity.
    + exists "VIP". split; [right; left; reflexivity | reflexivity].
    + reflexivity.
  - destruct (exact_match_compares_lowercased_tags
                [Sample.plan "gold" "ViP" [Sample.rule "c1" 10]] ["vip"]
                (Sample.plan "gold" "ViP" [Sample.rule "c1" 10])) as (_ & H & _).
    apply H.
    + left. reflexivity.
    + reflexivity.
    + exists "vip". split; [left; reflexivity | reflexivity].
  - destruct (exact_match_compares_lowercased_tags [] ["VIP"] Sample.planEmpty)
      as (_ & _ & H).
    apply (H [mkSegment "gid://shopify/Segment/1" "VIP"]). reflexivity.
Defined.

(** C4 as stated fails: the tag "vip" equals the segment name "VIP" up to
    letter case, yet the first strategy finds no plan keyed "VIP" (the
    upper-case strategy does), and the order path finds no segment. *)
Lemma exact_match_misses_capitalised_name :
  JS.toLowerCase "vip" = JS.toLowerCase "VIP" /\
  Matcher.exactMatch [Sample.plan "gold" "VIP" [Sample.rule "c1" 10]]
    (map JS.toLowerCase ["vip"]) = [] /\
  Matcher.upperCaseMatch [Sample.plan "gold" "VIP" [Sample.rule "c1" 10]]
    (map JS.toLowerCase ["vip"]) = [Sample.plan "gold" "VIP" [Sample.rule "c1" 10]] /\
  Matcher.matchSegment [mkSegment "gid://shopify/Segment/1" "VIP"] ["vip"] = None.
Proof. repeat split; reflexivity. Qed.

End SegmentMatcher.

(** ** Calls and traces of the order path *)

Section Traces.

Import Order.

Lemma value_bind {A B} (m : M A) (f : A -> M B) :
  value (m ≫= f) = value (f (value m)).
Proof. reflexivity. Qed.

Lemma trace_bind {A B} (m : M A) (f : A -> M B) :
  trace (m ≫= f) = (trace m ++ trace (f (value m)))%list.
Proof. reflexivity. Qed.

Lemma value_foldM_app {A S} (f : S -> A -> M S) (l1 l2 : list A) (s : S) :
  value (foldM f (l1 ++ l2)%list s) = value (foldM f l2 (value (foldM f l1 s))).
Proof.
  revert s. induction l1 as [| a l1 IH]; intros s; [reflexivity |].
  apply (IH (value (f s a))).
Qed.

(** The value of a monadic fold is the fold of the values of its steps. *)
Lemma value_foldM {A S} (f : S -> A -> M S) (l : list A) (s : S) :
  value (foldM f l s) = fold_left (fun s a => value (f s a)) l s.
Proof.
  revert s. induction l as [| a l IH]; intros s; [reflexivity |].
  apply (IH (value (f s a))).
Qed.

Lemma checkProductInCollection_trace (w : World) (productId collectionId : string) :
  trace (checkProductInCollection w productId collectionId)
  = [CheckMembership productId collectionId].
Proof. reflexivity. Qed.

Lemma ruleStep_trace (w : World) (productId : string) st (rule : Rule) :
  trace (ruleStep w productId st rule) = [CheckMembership productId (categoryId rule)].
Proof. reflexivity. Qed.

Lemma bestDiscountFor_trace (w : World) (productId : string) (rules : list Rule) st :
  trace (foldM (ruleStep w productId) rules st)
  = map (fun r => CheckMembership productId (categoryId r)) rules.
Proof.
  revert st. induction rules as [| r rules IH]; intros st; [reflexivity |].
  cbn [foldM map]. rewrite trace_bind, IH. reflexivity.
Qed.

Lemma itemStep_trace (w : World) (rules : list Rule) (acc : Totals) (item : CartItem) :
  trace (itemStep w rules acc item)
  = map (fun r => CheckMembership (productId item) (categoryId r)) rules.
Proof.
  unfold itemStep. rewrite trace_bind. unfold bestDiscountFor.
  rewrite bestDiscountFor_trace. simpl. apply app_nil_r.
Qed.

Lemma computeDiscounts_trace (w : World) (rules : list Rule) (items : list CartItem) :
  trace (computeDiscounts w rules items) = Spec.membershipCalls rules items.
Proof.
  unfold computeDiscounts. generalize (mkTotals [] (JS.num 0) (JS.num 0)) as acc.
  induction items as [| item items IH]; intros acc; [reflexivity |].
  cbn [foldM]. rewrite trace_bind, itemStep_trace, IH. reflexivity.
Qed.

End Traces.

(** ** Discount calculator *)

Section Calculator.

Import Order.

Lemma value_ruleStep (w : World) (pid : string) st (r : Rule) :
  value (ruleStep w pid st r)
  = if Spec.belongs w pid (categoryId r) && JS.gt (percentOff r) (snd st)
    then (Some r, percentOff r) else st.
Proof. reflexivity. Qed.

Lemma bestDiscountFor_snoc (w : World) (pid : string) (rules : list Rule) (r : Rule) :
  value (bestDiscountFor w pid (rules ++ [r])%list)
  = value (ruleStep w pid (value (bestDiscountFor w pid rules)) r).
Proof. unfold bestDiscountFor. rewrite value_foldM_app. reflexivity. Qed.

(** What the loop over the rules has found: nothing while no rule above 0%
    covers the product, otherwise the first covering rule of greatest
    percentOff. *)
Lemma bestDiscountFor_invariant (w : World) (pid : string) (rules : list Rule) :
  (value (bestDiscountFor w pid rules) = (None, JS.num 0) /\
   forall r, In r rules -> Spec.belongs w pid (categoryId r) = true ->
             (percentOff r <= JS.num 0)%Qc)
  \/
  (exists before best after,
      rules = (before ++ best :: after)%list /\
      value (bestDiscountFor w pid rules) = (Some best, percentOff best) /\
      Spec.belongs w pid (categoryId best) = true /\
      (JS.num 0 < percentOff best)%Qc /\
      (forall r, In r before -> Spec.belongs w pid (categoryId r) = true ->
                 (percentOff r < percentOff best)%Qc) /\
      (forall r, In r after -> Spec.belongs w pid (categoryId r) = true ->
                 (percentOff r <= percentOff best)%Qc)).
Proof.
  induction rules as [| x rules IH] using rev_ind.
  - left. split; [reflexivity | intros r []].
  - rewrite bestDiscountFor_snoc, value_ruleStep.
    destruct (Spec.belongs w pid (categoryId x)) eqn:B; simpl.
    + destruct (JS.gt (percentOff x) (snd (value (bestDiscountFor w pid rules)))) eqn:G.
      * right. exists rules, x, []. split; [reflexivity |]. split; [reflexivity |].
        split; [exact B |].
        destruct IH as [(Hs & Hall) | (before & best & after & -> & Hs & Hb & Hpos & Hbef & Haft)];
          rewrite Hs in G; simpl in G.
        -- split; [qc_order |]. split; [| intros r []].
           intros r Hr Hbel. specialize (Hall r Hr Hbel). qc_order.
        -- split; [qc_order |]. split; [| intros r []].
           intros r Hr Hbel. apply in_app_iff in Hr. destruct Hr as [Hr | [<- | Hr]].
           ++ specialize (Hbef r Hr Hbel). qc_order.
           ++ qc_order.
           ++ specialize (Haft r Hr Hbel). qc_order.
      * destruct IH as [(Hs & Hall) | (before & best & after & -> & Hs & Hb & Hpos & Hbef & Haft)];
          rewrite Hs in G; simpl in G.
        -- left. split; [exact Hs |]. intros r Hr Hbel.
           apply in_app_iff in Hr. destruct Hr as [Hr | [<- | []]].
           ++ apply Hall; assumption.
           ++ qc_order.
        -- right. exists before, best, (after ++ [x])%list.
           split; [rewrite <- app_assoc; reflexivity |]. split; [exact Hs |].
           split; [exact Hb |]. split; [exact Hpos |]. split; [exact Hbef |].
           intros r Hr Hbel. apply in_app_iff in Hr. destruct Hr as [Hr | [<- | []]].
           ++ apply Haft; assumption.
           ++ qc_order.
    + destruct IH as [(Hs & Hall) | (before & best & after & -> & Hs & Hb & Hpos & Hbef & Haft)].
      * left. split; [exact Hs |]. intros r Hr Hbel.
        apply in_app_iff in Hr. destruct Hr as [Hr | [<- | []]].
        -- apply Hall; assumption.
        -- congruence.
      * right. exists before, best, (after ++ [x])%list.
        split; [rewrite <- app_assoc; reflexivity |]. split; [exact Hs |].
        split; [exact Hb |]. split; [exact Hpos |]. split; [exact Hbef |].
        intros r Hr Hbel. apply in_app_iff in Hr. destruct Hr as [Hr | [<- | []]].
        -- apply Haft; assumption.
        -- congruence.
Qed.

(** A line has a best rule exactly when it qualifies. *)
Lemma bestDiscountFor_qualifies (w : World) (rules : list Rule) (item : CartItem) :
  Spec.qualifies w rules item
  = match fst (value (bestDiscountFor w (productId item) rules)) with
    | Some _ => true
    | None => false
    end.
Proof.
  unfold Spec.qualifies.
  destruct (bestDiscountFor_invariant w (productId item) rules)
    as [(Hs & Hall) | (before & best & after & E & Hs & Hb & Hpos & _)]; rewrite Hs; simpl.
  - apply not_true_is_false. intros Hex. apply existsb_exists in Hex.
    destruct Hex as (r & Hr & Hq). apply andb_true_iff in Hq. destruct Hq as [Hbel Hgt].
    specialize (Hall r Hr Hbel). qc_order.
  - apply existsb_exists. exists best. split.
    + rewrite E. apply in_app_iff. right. left. reflexivity.
    + rewrite Hb. simpl. qc_order.
Qed.

Lemma computeDiscounts_from (w : World) (rules : list Rule) (items : list CartItem)
  (acc : Totals) :
  value (foldM (itemStep w rules) items acc)
  = {| applicableDiscounts :=
         (applicableDiscounts acc ++ Spec.discountsOf w rules items)%list;
       totalOriginalPrice :=
         (totalOriginalPrice acc + Spec.sum (map itemTotalPrice items))%Qc;
       totalDiscountAmount :=
         (totalDiscountAmount acc
          + Spec.sum (map dDiscountAmount (Spec.discountsOf w rules items)))%Qc |}.
Proof.
  revert acc. induction items as [| item items IH]; intros acc.
  - destruct acc as [ds t d]. cbn [foldM value mret M_ret Spec.discountsOf flat_map
      map Spec.sum applicableDiscounts totalOriginalPrice totalDiscountAmount].
    rewrite app_nil_r. f_equal; qc_ring.
  - cbn [foldM]. rewrite value_bind, IH. unfold itemStep. rewrite value_bind.
    cbn [Spec.discountsOf flat_map map Spec.sum].
    fold (Spec.discountsOf w rules items).
    destruct (fst (value (bestDiscountFor w (productId item) rules))) as [best |];
      cbn [value mret M_ret applicableDiscounts totalOriginalPrice totalDiscountAmount
           app map Spec.sum].
    + rewrite <- app_assoc. f_equal; qc_ring.
    + f_equal; qc_ring.
Qed.

Lemma computeDiscounts_value (w : World) (rules : list Rule) (items : list CartItem) :
  value (computeDiscounts w rules items)
  = {| applicableDiscounts := Spec.discountsOf w rules items;
       totalOriginalPrice := Spec.sum (map itemTotalPrice items);
       totalDiscountAmount :=
         Spec.sum (map dDiscountAmount (Spec.discountsOf w rules items)) |}.
Proof.
  unfold computeDiscounts. rewrite computeDiscounts_from.
  cbn [applicableDiscounts totalOriginalPrice totalDiscountAmount app].
  f_equal; qc_ring.
Qed.

End Calculator.

Section CalculatorClaims.

Import Order.

Lemma savingsPercentage_positive (t : Totals) :
  (JS.num 0 < totalOriginalPrice t)%Qc ->
  savingsPercentage t
  = (totalDiscountAmount t / totalOriginalPrice t * JS.num 100)%Qc.
Proof.
  intros H. unfold savingsPercentage.
  destruct (JS.gt (totalOriginalPrice t) (JS.num 0)) eqn:G; [reflexivity |].
  exfalso. qc_order.
Qed.

Lemma savingsPercentage_nonpositive (t : Totals) :
  (totalOriginalPrice t <= JS.num 0)%Qc -> savingsPercentage t = JS.num 0.
Proof.
  intros H. unfold savingsPercentage.
  destruct (JS.gt (totalOriginalPrice t) (JS.num 0)) eqn:G; [| reflexivity].
  exfalso. qc_order.
Qed.

(** The discounts the calculator records are, in cart order, one for each
    line that some rule above 0% covers. *)
Lemma discounts_line_by_line (w : World) (rules : list Rule) (items : list CartItem) :
  Forall2
    (fun item d =>
       exists best,
         In best rules /\
         Spec.belongs w (productId item) (categoryId best) = true /\
         (JS.num 0 < percentOff best)%Qc /\
         (forall r, In r rules ->
                    Spec.belongs w (productId item) (categoryId r) = true ->
                    (percentOff r <= percentOff best)%Qc) /\
         d = discountOf item best (percentOff best))
    (List.filter (Spec.qualifies w rules) items)
    (Spec.discountsOf w rules items).
Proof.
  induction items as [| item items IH]; [constructor |].
  unfold Spec.discountsOf. cbn [flat_map List.filter].
  fold (Spec.discountsOf w rules items).
  rewrite bestDiscountFor_qualifies.
  destruct (bestDiscountFor_invariant w (productId item) rules)
    as [(Hs & _) | (before & best & after & E & Hs & Hb & Hpos & Hbef & Haft)];
    rewrite Hs; cbn [fst snd app]; [exact IH |].
  constructor; [| exact IH].
  exists best.
  split; [rewrite E; apply in_app_iff; right; left; reflexivity |].
  split; [exact Hb |]. split; [exact Hpos |]. split; [| reflexivity].
  intros r Hr Hbel. rewrite E in Hr. apply in_app_iff in Hr.
  destruct Hr as [Hr | [<- | Hr]].
  - specialize (Hbef r Hr Hbel). qc_order.
  - qc_order.
  - apply Haft; assumption.
Qed.

(** C2, as the code has it. The calculator records one discount for every
    cart line that has an applicable percentOff (a rule above 0% whose
    collection holds the product of the line), in cart order, and none for
    any other line. The discount of a line names the product of the line
    and the collection of the rule of greatest percentOff among those whose
    collection holds the product; its amounts are
    originalPrice = price * quantity (quantity 1 when the line has none),
    discountAmount = originalPrice * percentOff / 100 and
    discountedPrice = originalPrice - discountAmount. The totals are the
    sums over the lines and over the discounts. The savings percentage is
    totalDiscountAmount / totalOriginalPrice * 100 when the total is
    positive, and 0 whenever the total is 0 or below. *)
Theorem discount_calculator_amounts :
  forall (w : World) (rules : list Rule) (items : list CartItem),
    Forall2
      (fun item d =>
         dProductId d = productId item /\
         (exists best,
             In best rules /\
             Spec.belongs w (productId item) (categoryId best) = true /\
             (JS.num 0 < percentOff best)%Qc /\
             (forall r, In r rules ->
                        Spec.belongs w (productId item) (categoryId r) = true ->
                        (percentOff r <= percentOff best)%Qc) /\
             dCollectionId d = categoryId best /\
             dPercentOff d = percentOff best) /\
         dOriginalPrice d = (price item * quantityOf item)%Qc /\
         dDiscountAmount d = (dOriginalPrice d * dPercentOff d / JS.num 100)%Qc /\
         dDiscountedPrice d = (dOriginalPrice d - dDiscountAmount d)%Qc)
      (List.filter (Spec.qualifies w rules) items)
      (applicableDiscounts (value (computeDiscounts w rules items)))
    /\ totalOriginalPrice (value (computeDiscounts w rules items))
       = Spec.sum (map (fun item => (price item * quantityOf item)%Qc) items)
    /\ totalDiscountAmount (value (computeDiscounts w rules items))
       = Spec.sum (map dDiscountAmount
                     (applicableDiscounts (value (computeDiscounts w rules items))))
    /\ ((JS.num 0 < totalOriginalPrice (value (computeDiscounts w rules items)))%Qc ->
        savingsPercentage (value (computeDiscounts w rules items))
        = (totalDiscountAmount (value (computeDiscounts w rules items))
           / totalOriginalPrice (value (computeDiscounts w rules items))
           * JS.num 100)%Qc)
    /\ ((totalOriginalPrice (value (computeDiscounts w rules items)) <= JS.num 0)%Qc ->
        savingsPercentage (value (computeDiscounts w rules items)) = JS.num 0).
Proof.
  intros w rules items.
  split; [| split; [| split; [| split]]];
    [rewrite computeDiscounts_value; cbn [applicableDiscounts]
    | rewrite computeDiscounts_value; reflexivity
    | rewrite computeDiscounts_value; reflexivity
    | | ].
  - eapply Forall2_impl; [apply discounts_line_by_line |].
    intros item d (best & Hin & Hb & Hpos & Hmax & ->).
    cbn [discountOf dProductId dCollectionId dPercentOff dOriginalPrice
         dDiscountAmount dDiscountedPrice].
    split; [reflexivity |].
    split; [exists best; repeat split; assumption |].
    repeat split.
  - apply savingsPercentage_positive.
  - apply savingsPercentage_nonpositive.
Qed.

Lemma discount_calculator_amounts_witness :
  (exists d,
      applicableDiscounts
        (value (computeDiscounts (Sample.world Sample.customerVip Sample.inCollection1)
                  (rules Sample.planVip) [Sample.item 100 2])) = [d] /\
      dProductId d = productId (Sample.item 100 2) /\
      dOriginalPrice d = (price (Sample.item 100 2) * quantityOf (Sample.item 100 2))%Qc /\
      dDiscountAmount d = (dOriginalPrice d * dPercentOff d / JS.num 100)%Qc /\
      dDiscountedPrice d = (dOriginalPrice d - dDiscountAmount d)%Qc)
  /\ savingsPercentage
    (value (computeDiscounts (Sample.world Sample.customerVip Sample.inCollection1)
              (rules Sample.planVip) [Sample.item 100 2]))
  = (totalDiscountAmount
       (value (computeDiscounts (Sample.world Sample.customerVip Sample.inCollection1)
                 (rules Sample.planVip) [Sample.item 100 2]))
     / totalOriginalPrice
         (value (computeDiscounts (Sample.world Sample.customerVip Sample.inCollection1)
                   (rules Sample.planVip) [Sample.item 100 2]))
     * JS.num 100)%Qc
  /\ savingsPercentage
       (value (computeDiscounts (Sample.world Sample.customerVip Sample.inCollection1)
                 (rules Sample.planVip) [Sample.item 0 2]))
     = JS.num 0.
Proof.
  destruct (discount_calculator_amounts
              (Sample.world Sample.customerVip Sample.inCollection1)
              (rules Sample.planVip) [Sample.item 100 2]) as (H1 & _ & _ & H & _).
  destruct (discount_calculator_amounts
              (Sample.world Sample.customerVip Sample.inCollection1)
              (rules Sample.planVip) [Sample.item 0 2]) as (_ & _ & _ & _ & H0).
  split; [| split].
  - apply Forall2_cons_inv_l in H1.
    destruct H1 as (d & ds & (Hp & _ & Ho & Ha & Hd) & Hnil & E).
    apply Forall2_nil_inv_l in Hnil. subst ds.
    exists d. split; [exact E |]. split; [exact Hp |]. split; [exact Ho |].
    split; [exact Ha | exact Hd].
  - apply H. reflexivity.
  - apply H0. vm_compute. discriminate.
Defined.

(** "unitPrice=100, quantity=2, percentOff=15": 200, 30 and 170; the cart
    saves 15%. *)
Example discount_calculator_100_2_15 :
  exists d,
    applicableDiscounts
      (value (computeDiscounts (Sample.world Sample.customerVip Sample.inCollection1)
                (rules Sample.planVip) [Sample.item 100 2])) = [d] /\
    dPercentOff d = JS.num 15 /\
    dOriginalPrice d = JS.num 200 /\
    dDiscountAmount d = JS.num 30 /\
    dDiscountedPrice d = JS.num 170 /\
    savingsPercentage
      (value (computeDiscounts (Sample.world Sample.customerVip Sample.inCollection1)
                (rules Sample.planVip) [Sample.item 100 2])) = JS.num 15.
Proof.
  eexists. split; [reflexivity |]. repeat split; qc_eval.
Qed.

(** C2 as stated fails on the savings percentage: a line priced -10 with a
    15% rule gives the totals -10 and -3/2, whose quotient times 100 is 15,
    while the reported percentage is 0. *)
Lemma savings_percentage_zero_on_negative_total :
  totalOriginalPrice
    (value (computeDiscounts (Sample.world Sample.customerVip Sample.inCollection1)
              (rules Sample.planVip) [Sample.item (-10) 1])) = JS.num (-10) /\
  totalDiscountAmount
    (value (computeDiscounts (Sample.world Sample.customerVip Sample.inCollection1)
              (rules Sample.planVip) [Sample.item (-10) 1])) = Q2Qc (-3 # 2) /\
  savingsPercentage
    (value (computeDiscounts (Sample.world Sample.customerVip Sample.inCollection1)
              (rules Sample.planVip) [Sample.item (-10) 1])) = JS.num 0 /\
  (Q2Qc (-3 # 2) / JS.num (-10) * JS.num 100)%Qc = JS.num 15 /\
  savingsPercentage
    (value (computeDiscounts (Sample.world Sample.customerVip Sample.inCollection1)
              (rules Sample.planVip) [Sample.item (-10) 1]))
  <> (totalDiscountAmount
        (value (computeDiscounts (Sample.world Sample.customerVip Sample.inCollection1)
                  (rules Sample.planVip) [Sample.item (-10) 1]))
      / totalOriginalPrice
          (value (computeDiscounts (Sample.world Sample.customerVip Sample.inCollection1)
                    (rules Sample.planVip) [Sample.item (-10) 1]))
      * JS.num 100)%Qc.
Proof. repeat split; qc_eval. Qed.

End CalculatorClaims.

(** ** Draft-order submission *)

Section DraftOrder.

Import Order.

Lemma no_draft_bind {A B} (m : M A) (f : A -> M B) :
  draftIssued (trace m) = false ->
  (forall a, draftIssued (trace (f a)) = false) ->
  draftIssued (trace (m ≫= f)) = false.
Proof.
  intros Hm Hf. rewrite trace_bind. unfold draftIssued in *.
  rewrite existsb_app, Hm. apply Hf.
Qed.

Lemma resolve_no_draft (w : World) (req : Request) :
  draftIssued (trace (resolve w req)) = false.
Proof.
  unfold resolve, fail, findPlanFor, fetchCustomerData, fetchSegments, findFirstPlan.
  repeat first
    [ reflexivity
    | apply no_draft_bind; [| intros ?]
    | match goal with
      | |- draftIssued (trace (match ?x with _ => _ end)) = false => destruct x
      end ].
Qed.

Lemma membershipCalls_no_draft (rules : list Rule) (items : list CartItem) :
  draftIssued (Spec.membershipCalls rules items) = false.
Proof.
  unfold draftIssued, Spec.membershipCalls.
  induction items as [| item items IH]; [reflexivity |].
  cbn [flat_map]. rewrite existsb_app, IH, orb_false_r.
  clear IH. induction rules as [| r rules IHr]; [reflexivity |].
  cbn [map existsb isDraftCall orb]. exact IHr.
Qed.

Lemma discountsOf_nil (w : World) (rules : list Rule) (items : list CartItem) :
  existsb (Spec.qualifies w rules) items
  = match Spec.discountsOf w rules items with [] => false | _ => true end.
Proof.
  induction items as [| item items IH]; simpl; [reflexivity |].
  rewrite IH, bestDiscountFor_qualifies.
  destruct (fst (value (bestDiscountFor w (productId item) rules))); reflexivity.
Qed.

Lemma settle_trace (w : World) (req : Request) (ctx : Context) :
  draftIssued (trace (settle w req ctx))
  = existsb (Spec.qualifies w (rules (ctxPlan ctx))) (ctxItems ctx).
Proof.
  unfold settle. rewrite trace_bind, computeDiscounts_trace.
  unfold draftIssued. rewrite existsb_app.
  fold (draftIssued (Spec.membershipCalls (rules (ctxPlan ctx)) (ctxItems ctx))).
  rewrite membershipCalls_no_draft, computeDiscounts_value, discountsOf_nil.
  cbn [applicableDiscounts].
  destruct (Spec.discountsOf w (rules (ctxPlan ctx)) (ctxItems ctx)); reflexivity.
Qed.

Lemma action_draft_issued (w : World) (req : Request) (ctx : Context) :
  value (resolve w req) = inr ctx ->
  draftIssued (trace (action w req))
  = existsb (Spec.qualifies w (rules (ctxPlan ctx))) (ctxItems ctx).
Proof.
  intros E. pose proof (resolve_no_draft w req) as Hr.
  unfold action. rewrite trace_bind, E.
  unfold draftIssued in *. rewrite existsb_app, Hr. apply settle_trace.
Qed.

(** The answer when no line qualifies. *)
Lemma action_without_discount (w : World) (req : Request) (ctx : Context) :
  value (resolve w req) = inr ctx ->
  existsb (Spec.qualifies w (rules (ctxPlan ctx))) (ctxItems ctx) = false ->
  value (action w req)
  = json (NoDiscountBody
            (summaryOf (ctxSegment ctx) (ctxPlan ctx) (ctxItems ctx)
               {| applicableDiscounts := [];
                  totalOriginalPrice := Spec.sum (map itemTotalPrice (ctxItems ctx));
                  totalDiscountAmount := JS.num 0 |}
               (JS.num 0))).
Proof.
  intros E Hq. unfold action. rewrite value_bind, E.
  rewrite discountsOf_nil in Hq. unfold settle. rewrite value_bind.
  rewrite computeDiscounts_value. cbn [applicableDiscounts].
  destruct (Spec.discountsOf w (rules (ctxPlan ctx)) (ctxItems ctx)) eqn:D;
    [reflexivity | discriminate].
Qed.

(** C9. A request that is answered before the discounts are computed
    issues no draft-order call. A request that reaches the calculator
    issues the draft-order call exactly when some cart line has a rule
    above 0% whose collection holds its product; otherwise it is answered
    with status 200, discountApplicable false, the computed totals, an empty
    discount list and highestDiscountRate 0, and no draft-order call. *)
Theorem draft_order_iff_a_line_is_discounted :
  forall (w : World) (req : Request),
    (forall response,
        value (resolve w req) = inl response ->
        draftIssued (trace (action w req)) = false /\
        value (action w req) = response)
    /\
    (forall ctx,
        value (resolve w req) = inr ctx ->
        draftIssued (trace (action w req))
        = existsb (Spec.qualifies w (rules (ctxPlan ctx))) (ctxItems ctx)
        /\
        (existsb (Spec.qualifies w (rules (ctxPlan ctx))) (ctxItems ctx) = false ->
         exists summary,
           value (action w req) = json (NoDiscountBody summary) /\
           status (value (action w req)) = 200%Z /\
           discountApplicable (body (value (action w req))) = Some false /\
           sumTotalOriginalPrice summary = Spec.sum (map itemTotalPrice (ctxItems ctx)) /\
           sumTotalDiscountAmount summary = JS.num 0 /\
           sumApplicableDiscounts summary = [] /\
           highestDiscountRate summary = JS.num 0)).
Proof.
  intros w req. split.
  - intros response E. pose proof (resolve_no_draft w req) as Hr.
    unfold action. rewrite trace_bind, value_bind, E.
    unfold draftIssued in *. rewrite existsb_app, Hr. split; reflexivity.
  - intros ctx E. split; [apply action_draft_issued, E |].
    intros Hq. rewrite (action_without_discount w req ctx E Hq).
    eexists. split; [reflexivity |]. repeat split.
Qed.

Lemma draft_order_iff_a_line_is_discounted_witness :
  (draftIssued
     (trace (action (Sample.world Sample.customerVip Sample.inCollection1)
               (Sample.request CartMissing))) = false /\
   value (action (Sample.world Sample.customerVip Sample.inCollection1)
            (Sample.request CartMissing))
   = jsonStatus (ErrorBody "Missing required fields: shop, customerId, or cartItems") 400)
  /\
  draftIssued
    (trace (action (Sample.world Sample.customerVip Sample.inCollection1)
              (Sample.request (CartArray [Sample.item 100 2]))))
  = existsb
      (Spec.qualifies (Sample.world Sample.customerVip Sample.inCollection1)
         (rules Sample.planVip))
      [Sample.item 100 2]
  /\
  exists summary,
    value (action (Sample.world Sample.customerVip Sample.inNoCollection)
             (Sample.request (CartArray [Sample.item 100 2])))
    = json (NoDiscountBody summary) /\
    status (value (action (Sample.world Sample.customerVip Sample.inNoCollection)
                     (Sample.request (CartArray [Sample.item 100 2])))) = 200%Z /\
    discountApplicable
      (body (value (action (Sample.world Sample.customerVip Sample.inNoCollection)
                      (Sample.request (CartArray [Sample.item 100 2]))))) = Some false /\
    sumTotalOriginalPrice summary = Spec.sum (map itemTotalPrice [Sample.item 100 2]) /\
    sumTotalDiscountAmount summary = JS.num 0 /\
    sumApplicableDiscounts summary = [] /\
    highestDiscountRate summary = JS.num 0.
Proof.
  destruct (draft_order_iff_a_line_is_discounted
              (Sample.world Sample.customerVip Sample.inCollection1)
              (Sample.request CartMissing)) as [H0 _].
  destruct (draft_order_iff_a_line_is_discounted
              (Sample.world Sample.customerVip Sample.inCollection1)
              (Sample.request (CartArray [Sample.item 100 2]))) as [_ H].
  destruct (H (Sample.contextVip [Sample.item 100 2]) eq_refl) as [H1 _].
  destruct (draft_order_iff_a_line_is_discounted
              (Sample.world Sample.customerVip Sample.inNoCollection)
              (Sample.request (CartArray [Sample.item 100 2]))) as [_ H'].
  destruct (H' (Sample.contextVip [Sample.item 100 2]) eq_refl) as [_ H2].
  split; [apply H0; reflexivity |]. split; [exact H1 |].
  apply H2. reflexivity.
Defined.

(** One line in the discounted collection: one draft-order call; the same
    line outside every discounted collection: none, and the answer carries
    discountApplicable false. *)
Example draft_order_issued_and_withheld :
  draftIssued
    (trace (action (Sample.world Sample.customerVip Sample.inCollection1)
              (Sample.request (CartArray [Sample.item 100 2])))) = true /\
  draftIssued
    (trace (action (Sample.world Sample.customerVip Sample.inNoCollection)
              (Sample.request (CartArray [Sample.item 100 2])))) = false /\
  discountApplicable
    (body (value (action (Sample.world Sample.customerVip Sample.inNoCollection)
                    (Sample.request (CartArray [Sample.item 100 2]))))) = Some false.
Proof. repeat split; reflexivity. Qed.

End DraftOrder.

(** ** Membership-check failure *)

Section MembershipFailure.

Import Order.

Lemma ruleStep_failed (w : World) (productId : string) st (rule : Rule) :
  Spec.membershipFailed (productCollections w productId (categoryId rule)) = true ->
  ruleStep w productId st rule = mkM st [CheckMembership productId (categoryId rule)].
Proof.
  intros H. unfold ruleStep, checkProductInCollection.
  destruct (productCollections w productId (categoryId rule)); try discriminate;
    destruct st; reflexivity.
Qed.

Lemma belongs_failed (w : World) (productId collectionId : string) :
  Spec.membershipFailed (productCollections w productId collectionId) = true ->
  Spec.belongs w productId collectionId = false.
Proof.
  unfold Spec.belongs, checkProductInCollection. intros H.
  destruct (productCollections w productId collectionId); try discriminate; reflexivity.
Qed.

Lemma qualifies_all_failed (w : World) (rules : list Rule) (items : list CartItem) :
  (forall item r, In item items -> In r rules ->
     Spec.membershipFailed
       (productCollections w (productId item) (categoryId r)) = true) ->
  existsb (Spec.qualifies w rules) items = false.
Proof.
  intros H. apply not_true_is_false. intros Hex.
  apply existsb_exists in Hex. destruct Hex as (item & Hitem & Hq).
  unfold Spec.qualifies in Hq. apply existsb_exists in Hq.
  destruct Hq as (r & Hr & Hb). apply andb_true_iff in Hb. destruct Hb as [Hb _].
  rewrite (belongs_failed _ _ _ (H item r Hitem Hr)) in Hb. discriminate.
Qed.

(** C8. When the membership query for a product and the collection of a
    rule fails (the call throws or the answer carries errors), the check
    answers [false] after that single call; the rule leaves the best discount
    of the line as it was, so the line is priced as if the rule were not
    there; a line whose checks all fail gets no discount; the calculator
    issues exactly one check per rule per line, neither stopping early nor
    asking twice; and a request all of whose checks fail is still answered
    with status 200 and discountApplicable false, without a draft order. *)
Theorem failed_membership_check_means_not_member :
  forall (w : World) (productId : string) (rule : Rule),
    Spec.membershipFailed (productCollections w productId (categoryId rule)) = true ->
    checkProductInCollection w productId (categoryId rule)
      = mkM false [CheckMembership productId (categoryId rule)]
    /\ (forall st,
          ruleStep w productId st rule
          = mkM st [CheckMembership productId (categoryId rule)])
    /\ (forall before after,
          value (bestDiscountFor w productId (before ++ rule :: after)%list)
          = value (bestDiscountFor w productId (before ++ after)%list))
    /\ (forall rules,
          (forall r, In r rules ->
             Spec.membershipFailed (productCollections w productId (categoryId r)) = true) ->
          value (bestDiscountFor w productId rules) = (None, JS.num 0))
    /\ (forall rules items,
          trace (computeDiscounts w rules items) = Spec.membershipCalls rules items)
    /\ (forall req ctx,
          value (resolve w req) = inr ctx ->
          (forall item r, In item (ctxItems ctx) -> In r (rules (ctxPlan ctx)) ->
             Spec.membershipFailed
               (productCollections w (Order.productId item) (categoryId r)) = true) ->
          status (value (action w req)) = 200%Z /\
          discountApplicable (body (value (action w req))) = Some false /\
          draftIssued (trace (action w req)) = false).
Proof.
  intros w pid rule H. split; [| split; [| split; [| split; [| split]]]].
  - unfold checkProductInCollection.
    destruct (productCollections w pid (categoryId rule)); try discriminate; reflexivity.
  - intros st. apply ruleStep_failed, H.
  - intros before after. unfold bestDiscountFor.
    rewrite !value_foldM, !fold_left_app. cbn [fold_left].
    rewrite (ruleStep_failed w pid _ rule H). reflexivity.
  - intros rules Hall. unfold bestDiscountFor. rewrite value_foldM.
    generalize (@None Rule, JS.num 0) as st.
    induction rules as [| r rules IH]; intros st; cbn [fold_left].
    { reflexivity. }
    rewrite (ruleStep_failed w pid st r) by (apply Hall; left; reflexivity).
    apply IH. intros r' Hr'. apply Hall. right. exact Hr'.
  - intros rules items. apply computeDiscounts_trace.
  - intros req ctx E Hall.
    pose proof (qualifies_all_failed w _ _ Hall) as Hq.
    rewrite (action_draft_issued w req ctx E), Hq.
    rewrite (action_without_discount w req ctx E Hq). repeat split.
Qed.

End MembershipFailure.

Section MembershipFailureExamples.

Import Order.

Lemma failed_membership_check_means_not_member_witness :
  checkProductInCollection (Sample.world Sample.customerVip Sample.unreachable)
    "gid://shopify/Product/1" "gid://shopify/Collection/1"
  = mkM false [CheckMembership "gid://shopify/Product/1" "gid://shopify/Collection/1"]
  /\ value (bestDiscountFor (Sample.world Sample.customerVip Sample.unreachable)
              "gid://shopify/Product/1" (rules Sample.planVip))
     = (None, JS.num 0)
  /\ (status (value (action (Sample.world Sample.customerVip Sample.unreachable)
                       (Sample.request (CartArray [Sample.item 100 2])))) = 200%Z /\
      discountApplicable
        (body (value (action (Sample.world Sample.customerVip Sample.unreachable)
                        (Sample.request (CartArray [Sample.item 100 2]))))) = Some false /\
      draftIssued
        (trace (action (Sample.world Sample.customerVip Sample.unreachable)
                  (Sample.request (CartArray [Sample.item 100 2])))) = false).
Proof.
  destruct (failed_membership_check_means_not_member
              (Sample.world Sample.customerVip Sample.unreachable)
              "gid://shopify/Product/1" (Sample.rule "gid://shopify/Collection/1" 15)
              eq_refl) as (H1 & _ & _ & H4 & _ & H6).
  split; [exact H1 |]. split.
  - apply H4. intros r Hr. reflexivity.
  - apply (H6 (Sample.request (CartArray [Sample.item 100 2]))
              (Sample.contextVip [Sample.item 100 2])).
    + reflexivity.
    + intros item r Hitem Hr. reflexivity.
Defined.

End MembershipFailureExamples.

(** ** Absent customer, absent plan *)

Section NotFound.

Import Order.

Lemma findFirst_some (store : list DiscountPlan) (key : string) (plan : DiscountPlan) :
  PlanStore.findFirst store key = Some plan ->
  In plan store /\ targetType plan = "segment" /\ targetKey plan = key.
Proof.
  unfold PlanStore.findFirst. intros H. apply find_some in H.
  destruct H as [Hin H]. apply andb_true_iff in H. destruct H as [Ht Hk].
  split; [exact Hin |]. split; [apply isSegmentPlan_true, Ht | apply String.eqb_eq, Hk].
Qed.

Lemma isEmptyString_false (s : string) : s <> "" -> isEmptyString s = false.
Proof. destruct s; [congruence | reflexivity]. Qed.

(** The value of the first five steps for a well-formed request of an
    installed shop. *)
Lemma resolve_value (w : World) (req : Request) (item : CartItem)
  (items : list CartItem) (token : string) :
  shop req <> "" -> customerId req <> "" ->
  processCart (cartItems req) = inr (item :: items) ->
  sessions w (shop req) = Some token ->
  value (resolve w req)
  = match value (fetchCustomerData w (customerId req)) with
    | None => inl (jsonStatus (ErrorBody "Customer not found") 404)
    | Some customerData =>
        match value (fetchSegments w) with
        | None => inl (jsonStatus (ErrorBody "Failed to fetch segments") 500)
        | Some segments =>
            match Matcher.matchSegment segments (customerTags customerData) with
            | None => inl (json NoSegmentBody)
            | Some matchedSegment =>
                match value (findPlanFor w matchedSegment) with
                | None => inl (json NoPlanBody)
                | Some plan =>
                    match rules plan with
                    | [] => inl (json NoPlanBody)
                    | _ => inr {| ctxItems := item :: items;
                                  ctxSegment := matchedSegment;
                                  ctxPlan := plan |}
                    end
                end
            end
        end
    end.
Proof.
  intros Hshop Hcust Hcart Hsess. unfold resolve.
  rewrite (isEmptyString_false _ Hshop), (isEmptyString_false _ Hcust).
  assert (Hm : isMissing (cartItems req) = false)
    by (destruct (cartItems req); [discriminate Hcart | reflexivity ..]).
  rewrite Hm, Hcart. cbn [orb]. rewrite Hsess, !value_bind.
  destruct (value (fetchCustomerData w (customerId req))) as [customerData |];
    [| reflexivity].
  rewrite value_bind.
  destruct (value (fetchSegments w)) as [segments |]; [| reflexivity].
  destruct (Matcher.matchSegment segments (customerTags customerData))
    as [matchedSegment |]; [| reflexivity].
  rewrite value_bind.
  destruct (value (findPlanFor w matchedSegment)) as [plan |]; [| reflexivity].
  destruct (rules plan); reflexivity.
Qed.

Lemma findPlanFor_value (w : World) (segment : Segment) :
  value (findPlanFor w segment)
  = match PlanStore.findFirst (planStore w) (segmentId segment) with
    | Some plan => Some plan
    | None => PlanStore.findFirst (planStore w) (segmentName segment)
    end.
Proof.
  unfold findPlanFor. rewrite value_bind. unfold findFirstPlan.
  cbn [value mbind M_bind emit mret M_ret].
  destruct (PlanStore.findFirst (planStore w) (segmentId segment)); reflexivity.
Qed.

(** C5, as the code has it. For a well-formed request of an installed shop:
    an absent customer is answered with status 404 and the error "Customer
    not found"; a customer whose tags name no segment, and a matched segment
    that no plan with at least one rule targets (by id or by name), are
    answered with status 200 and discountApplicable false. *)
Theorem absent_plan_is_no_error_absent_customer_is_404 :
  forall (w : World) (req : Request) (item : CartItem) (items : list CartItem)
         (token : string),
    shop req <> "" -> customerId req <> "" ->
    processCart (cartItems req) = inr (item :: items) ->
    sessions w (shop req) = Some token ->
    (value (fetchCustomerData w (customerId req)) = None ->
     value (action w req) = jsonStatus (ErrorBody "Customer not found") 404)
    /\
    (forall customer segments,
        value (fetchCustomerData w (customerId req)) = Some customer ->
        segmentCatalog w = SegmentsData segments ->
        (Matcher.matchSegment segments (customerTags customer) = None ->
         value (action w req) = json NoSegmentBody /\
         status (value (action w req)) = 200%Z /\
         discountApplicable (body (value (action w req))) = Some false)
        /\
        (forall segment,
            Matcher.matchSegment segments (customerTags customer) = Some segment ->
            (forall plan,
                In plan (planStore w) -> targetType plan = "segment" ->
                targetKey plan = segmentId segment \/ targetKey plan = segmentName segment ->
                rules plan = []) ->
            value (action w req) = json NoPlanBody /\
            status (value (action w req)) = 200%Z /\
            discountApplicable (body (value (action w req))) = Some false)).
Proof.
  intros w req item items token Hshop Hcust Hcart Hsess.
  pose proof (resolve_value w req item items token Hshop Hcust Hcart Hsess) as R.
  split.
  - intros Hc. rewrite Hc in R. unfold action. rewrite value_bind, R. reflexivity.
  - intros customer segments Hc Hs. rewrite Hc in R.
    assert (Hf : value (fetchSegments w) = Some segments)
      by (unfold fetchSegments; cbn [value mbind M_bind emit mret M_ret];
          rewrite Hs; reflexivity).
    rewrite Hf in R. split.
    + intros Hm. rewrite Hm in R.
      assert (E : value (action w req) = json NoSegmentBody)
        by (unfold action; rewrite value_bind, R; reflexivity).
      rewrite E. repeat split.
    + intros segment Hm Hnone. rewrite Hm in R.
      assert (E : value (action w req) = json NoPlanBody).
      { unfold action. rewrite value_bind, R. clear R.
        rewrite findPlanFor_value.
        destruct (PlanStore.findFirst (planStore w) (segmentId segment)) as [p |] eqn:F1.
        - apply findFirst_some in F1. destruct F1 as (Hin & Ht & Hk).
          rewrite (Hnone p Hin Ht (or_introl Hk)). reflexivity.
        - destruct (PlanStore.findFirst (planStore w) (segmentName segment)) as [p |] eqn:F2;
            [| reflexivity].
          apply findFirst_some in F2. destruct F2 as (Hin & Ht & Hk).
          rewrite (Hnone p Hin Ht (or_intror Hk)). reflexivity. }
      rewrite E. repeat split.
Qed.

Lemma absent_plan_is_no_error_absent_customer_is_404_witness :
  value (action (Sample.world (CustomerData None) Sample.inCollection1)
           (Sample.request (CartArray [Sample.item 100 2])))
  = jsonStatus (ErrorBody "Customer not found") 404
  /\ (value (action (Sample.world Sample.customerRegular Sample.inCollection1)
               (Sample.request (CartArray [Sample.item 100 2])))
      = json NoSegmentBody /\
      status (value (action (Sample.world Sample.customerRegular Sample.inCollection1)
                       (Sample.request (CartArray [Sample.item 100 2])))) = 200%Z /\
      discountApplicable
        (body (value (action (Sample.world Sample.customerRegular Sample.inCollection1)
                        (Sample.request (CartArray [Sample.item 100 2]))))) = Some false)
  /\ (value (action (Sample.worldWithoutPlans Sample.customerVip)
               (Sample.request (CartArray [Sample.item 100 2])))
      = json NoPlanBody /\
      status (value (action (Sample.worldWithoutPlans Sample.customerVip)
                       (Sample.request (CartArray [Sample.item 100 2])))) = 200%Z /\
      discountApplicable
        (body (value (action (Sample.worldWithoutPlans Sample.customerVip)
                        (Sample.request (CartArray [Sample.item 100 2]))))) = Some false).
Proof.
  split; [| split].
  - destruct (absent_plan_is_no_error_absent_customer_is_404
                (Sample.world (CustomerData None) Sample.inCollection1)
                (Sample.request (CartArray [Sample.item 100 2]))
                (Sample.item 100 2) [] "token") as [H _];
      [discriminate | discriminate | reflexivity | reflexivity |].
    apply H. reflexivity.
  - destruct (absent_plan_is_no_error_absent_customer_is_404
                (Sample.world Sample.customerRegular Sample.inCollection1)
                (Sample.request (CartArray [Sample.item 100 2]))
                (Sample.item 100 2) [] "token") as [_ H];
      [discriminate | discriminate | reflexivity | reflexivity |].
    destruct (H {| customerGid := "gid://shopify/Customer/9";
                   customerTags := ["regular"] |}
                [Sample.segmentVip] eq_refl eq_refl) as [H1 _].
    apply H1. reflexivity.
  - destruct (absent_plan_is_no_error_absent_customer_is_404
                (Sample.worldWithoutPlans Sample.customerVip)
                (Sample.request (CartArray [Sample.item 100 2]))
                (Sample.item 100 2) [] "token") as [_ H];
      [discriminate | discriminate | reflexivity | reflexivity |].
    destruct (H {| customerGid := "gid://shopify/Customer/9";
                   customerTags := ["VIP"] |}
                [Sample.segmentVip] eq_refl eq_refl) as [_ H2].
    apply (H2 Sample.segmentVip); [reflexivity |].
    intros plan [].
Defined.

(** C5 as stated fails for the absent customer: the answer has status 404
    and no discountApplicable field. *)
Lemma absent_customer_is_answered_404 :
  status (value (action (Sample.world (CustomerData None) Sample.inCollection1)
                   (Sample.request (CartArray [Sample.item 100 2])))) = 404%Z /\
  isErrorStatus (value (action (Sample.world (CustomerData None) Sample.inCollection1)
                          (Sample.request (CartArray [Sample.item 100 2])))) = true /\
  discountApplicable
    (body (value (action (Sample.world (CustomerData None) Sample.inCollection1)
                    (Sample.request (CartArray [Sample.item 100 2]))))) = None.
Proof. repeat split; reflexivity. Qed.

(** The simple offer path, by contrast, answers a customer it does not know
    with [{ discountApplicable: false }]. *)
Lemma simple_offer_unknown_customer (w : SimpleOffer.World) (customerId : string)
  (tags : list string) (email name : option string) :
  customerId <> "" ->
  SimpleOffer.customerSegments w (SimpleOffer.customerNumericId customerId) = None ->
  SimpleOffer.offerOf
    (SimpleOffer.handle w
       (SimpleOffer.CustomerData
          (SimpleOffer.mkCustomer (Some (IdStr customerId)) email name (Some tags))))
  = Some None.
Proof.
  intros Hid Hc. unfold SimpleOffer.handle.
  cbn [SimpleOffer.customerId SimpleOffer.customerTags SimpleOffer.isFalsy
       SimpleOffer.toString].
  destruct customerId; [congruence |]. cbn [String.eqb]. rewrite Hc. reflexivity.
Qed.

(** "Customer tags ["regular"], no segment named "regular"": the offer path
    answers [{ discountApplicable: false }]. *)
Example offer_no_match_end_to_end :
  Offer.handle Offer.Action Sample.offline
    (Offer.CustomerData (Some "9") (Some ["regular"]) "")
  = Offer.Success Offer.NotApplicable.
Proof. reflexivity. Qed.

End NotFound.

(** ** Cart formats *)

Section CartFormats.

Import Order.

Lemma hundred_nonzero : JS.num 100 <> Q2Qc 0.
Proof. qc_eval. Qed.

Lemma times_100_div_100 (x : JS.number) : (JS.num 100 * (x / JS.num 100))%Qc = x.
Proof. apply Qcmult_div_r, hundred_nonzero. Qed.

Lemma times_100_differs (x : JS.number) : x <> JS.num 0 -> (JS.num 100 * x)%Qc <> x.
Proof.
  intros Hx E.
  assert (H : (JS.num 99 * x)%Qc = Q2Qc 0).
  { replace (JS.num 99) with (JS.num 100 - 1)%Qc by qc_eval.
    replace ((JS.num 100 - 1) * x)%Qc with (JS.num 100 * x - x)%Qc by ring.
    rewrite E. ring. }
  apply Qcmult_integral in H. destruct H as [H | H]; [| exact (Hx H)].
  revert H. change (JS.num 99 <> Q2Qc 0). qc_eval.
Qed.

Lemma sum_app (l1 l2 : list JS.number) :
  Spec.sum (l1 ++ l2)%list = (Spec.sum l1 + Spec.sum l2)%Qc.
Proof.
  induction l1 as [| x l1 IH]; simpl.
  - qc_ring.
  - rewrite IH. qc_ring.
Qed.

Lemma itemTotalPrice_sameFields (raw : ShopifyItem) (item : CartItem) :
  Spec.sameFields raw item ->
  itemTotalPrice item = (JS.num 100 * itemTotalPrice (ofShopifyItem raw))%Qc.
Proof.
  intros (_ & Hp & Hq). unfold itemTotalPrice. rewrite Hp, Hq.
  unfold ofShopifyItem, quantityOf. cbn [price quantity].
  rewrite <- (times_100_div_100 (JS.orDefault (item_price raw) (JS.num 0))) at 1.
  qc_ring.
Qed.

Lemma discountsOf_sameFields (w : World) (rules : list Rule)
  (raw : ShopifyItem) (item : CartItem) :
  Spec.sameFields raw item ->
  Spec.sum (map dDiscountAmount (Spec.discountsOf w rules [item]))
  = (JS.num 100
     * Spec.sum (map dDiscountAmount (Spec.discountsOf w rules [ofShopifyItem raw])))%Qc.
Proof.
  intros H. pose proof (itemTotalPrice_sameFields raw item H) as HT.
  destruct H as (Hid & _ & _).
  unfold Spec.discountsOf. cbn [flat_map]. rewrite !app_nil_r, Hid.
  change (productId (ofShopifyItem raw)) with (formatProductId (product_id raw)).
  destruct (fst (value (bestDiscountFor w (formatProductId (product_id raw)) rules)));
    cbn [map Spec.sum].
  - unfold discountOf. cbn [dDiscountAmount]. rewrite HT. unfold Qcdiv. qc_ring.
  - qc_ring.
Qed.

Lemma discountsOf_cons (w : World) (rules : list Rule) (item : CartItem)
  (items : list CartItem) :
  Spec.discountsOf w rules (item :: items)
  = (Spec.discountsOf w rules [item] ++ Spec.discountsOf w rules items)%list.
Proof. unfold Spec.discountsOf. cbn [flat_map]. rewrite app_nil_r. reflexivity. Qed.

Lemma totals_sameFields (w : World) (rules : list Rule)
  (raws : list ShopifyItem) (items : list CartItem) :
  Forall2 Spec.sameFields raws items ->
  Spec.sum (map itemTotalPrice items)
  = (JS.num 100 * Spec.sum (map itemTotalPrice (map ofShopifyItem raws)))%Qc
  /\ Spec.sum (map dDiscountAmount (Spec.discountsOf w rules items))
     = (JS.num 100
        * Spec.sum (map dDiscountAmount
                      (Spec.discountsOf w rules (map ofShopifyItem raws))))%Qc.
Proof.
  induction 1 as [| raw item raws items H _ [IH1 IH2]].
  - split; simpl; qc_ring.
  - split.
    + cbn [map Spec.sum]. rewrite IH1, (itemTotalPrice_sameFields raw item H). qc_ring.
    + cbn [map]. rewrite (discountsOf_cons w rules item),
        (discountsOf_cons w rules (ofShopifyItem raw)), !map_app, !sum_app.
      rewrite IH2, (discountsOf_sameFields w rules raw item H). qc_ring.
Qed.

(** C10. A cart given as an array is used as it is; a cart given as an
    object with an items array has the price, original_price and
    final_price of every item divided by 100. For the same products, prices
    and quantities in the two formats, the total and the total discount of
    the array format are 100 times those of the object format, hence
    different whenever they are not 0. *)
Theorem cart_object_prices_divided_by_100 :
  (forall items, processCart (CartArray items) = inr items)
  /\ (forall raws, processCart (CartObject (Some raws)) = inr (map ofShopifyItem raws))
  /\ (forall raw,
        price (ofShopifyItem raw)
        = (JS.orDefault (item_price raw) (JS.num 0) / JS.num 100)%Qc /\
        originalPrice (ofShopifyItem raw)
        = Some (JS.orDefault (original_price raw) (JS.num 0) / JS.num 100)%Qc /\
        finalPrice (ofShopifyItem raw)
        = Some (JS.orDefault (final_price raw) (JS.num 0) / JS.num 100)%Qc)
  /\ (forall (w : World) (rules : list Rule) (raws : list ShopifyItem)
             (items : list CartItem),
        Forall2 Spec.sameFields raws items ->
        totalOriginalPrice (value (computeDiscounts w rules items))
        = (JS.num 100
           * totalOriginalPrice
               (value (computeDiscounts w rules (map ofShopifyItem raws))))%Qc
        /\ totalDiscountAmount (value (computeDiscounts w rules items))
           = (JS.num 100
              * totalDiscountAmount
                  (value (computeDiscounts w rules (map ofShopifyItem raws))))%Qc
        /\ (totalOriginalPrice
              (value (computeDiscounts w rules (map ofShopifyItem raws))) <> JS.num 0 ->
            totalOriginalPrice (value (computeDiscounts w rules items))
            <> totalOriginalPrice
                 (value (computeDiscounts w rules (map ofShopifyItem raws))))
        /\ (totalDiscountAmount
              (value (computeDiscounts w rules (map ofShopifyItem raws))) <> JS.num 0 ->
            totalDiscountAmount (value (computeDiscounts w rules items))
            <> totalDiscountAmount
                 (value (computeDiscounts w rules (map ofShopifyItem raws))))).
Proof.
  split; [reflexivity |]. split; [reflexivity |]. split; [intros raw; repeat split |].
  intros w rules raws items H.
  destruct (totals_sameFields w rules raws items H) as [H1 H2].
  rewrite !computeDiscounts_value.
  cbn [applicableDiscounts totalOriginalPrice totalDiscountAmount].
  split; [exact H1 |]. split; [exact H2 |]. split.
  - intros Hnz. rewrite H1. apply times_100_differs, Hnz.
  - intros Hnz. rewrite H2. apply times_100_differs, Hnz.
Qed.

Lemma cart_object_prices_divided_by_100_witness :
  totalOriginalPrice
    (value (computeDiscounts (Sample.world Sample.customerVip Sample.inCollection1)
              (rules Sample.planVip) [Sample.item 100 2]))
  <> totalOriginalPrice
       (value (computeDiscounts (Sample.world Sample.customerVip Sample.inCollection1)
                 (rules Sample.planVip) (map ofShopifyItem [Sample.shopifyItem 100 2])))
  /\
  totalDiscountAmount
    (value (computeDiscounts (Sample.world Sample.customerVip Sample.inCollection1)
              (rules Sample.planVip) [Sample.item 100 2]))
  <> totalDiscountAmount
       (value (computeDiscounts (Sample.world Sample.customerVip Sample.inCollection1)
                 (rules Sample.planVip) (map ofShopifyItem [Sample.shopifyItem 100 2]))).
Proof.
  destruct cart_object_prices_divided_by_100 as (_ & _ & _ & H).
  destruct (H (Sample.world Sample.customerVip Sample.inCollection1)
              (rules Sample.planVip) [Sample.shopifyItem 100 2] [Sample.item 100 2])
    as (_ & _ & Hd & Hd').
  - constructor; [| constructor]. repeat split; qc_eval.
  - split; [apply Hd | apply Hd']; qc_eval.
Defined.

(** The price 100 and the quantity 2 in both formats: 200 and a discount of
    30 for the array, 2 and a discount of 3/10 for the cart object. *)
Example cart_formats_100_2 :
  totalOriginalPrice
    (value (computeDiscounts (Sample.world Sample.customerVip Sample.inCollection1)
              (rules Sample.planVip) [Sample.item 100 2])) = JS.num 200 /\
  totalDiscountAmount
    (value (computeDiscounts (Sample.world Sample.customerVip Sample.inCollection1)
              (rules Sample.planVip) [Sample.item 100 2])) = JS.num 30 /\
  totalOriginalPrice
    (value (computeDiscounts (Sample.world Sample.customerVip Sample.inCollection1)
              (rules Sample.planVip) (map ofShopifyItem [Sample.shopifyItem 100 2])))
  = JS.num 2 /\
  totalDiscountAmount
    (value (computeDiscounts (Sample.world Sample.customerVip Sample.inCollection1)
              (rules Sample.planVip) (map ofShopifyItem [Sample.shopifyItem 100 2])))
  = Q2Qc (3 # 10).
Proof. repeat split; qc_eval. Qed.

End CartFormats.

(** ** Collection metadata *)

Section Metadata.

Import Offer.

Lemma Forall2_map_r {A B} (R : A -> B -> Prop) (f : A -> B) (l : list A) :
  (forall a, In a l -> R a (f a)) -> Forall2 R l (map f l).
Proof.
  induction l as [| a l IH]; intros H; [constructor |].
  constructor; [apply H; left; reflexivity |]. apply IH. intros b Hb. apply H. right. exact Hb.
Qed.

Lemma Forall2_weaken_in {A B} (R Q : A -> B -> Prop) (l : list A) (l' : list B) :
  (forall a b, In a l -> R a b -> Q a b) -> Forall2 R l l' -> Forall2 Q l l'.
Proof.
  intros H F. induction F as [| a b l l' Hab F IH]; [constructor |].
  constructor; [apply H; [left; reflexivity | exact Hab] |].
  apply IH. intros a' b' Ha'. apply H. right. exact Ha'.
Qed.

Lemma fallbackCollections_placeholders (rs : list Rule) :
  fallbackCollections (Resolver.resolveRules rs)
  = map (Spec.placeholder rs) (Resolver.Object_keys (Resolver.resolveRules rs)).
Proof.
  unfold fallbackCollections. apply map_ext_in. intros k Hk.
  unfold fallbackCollection, Spec.placeholder. f_equal.
  exact (proj2 (resolved_key rs k Hk)).
Qed.

Lemma collectionPrefix_append (x : string) :
  collectionPrefix ++ x = String "g" ("id://shopify/Collection/" ++ x).
Proof. reflexivity. Qed.

Lemma startsWith_prefix_append (x : string) :
  JS.startsWith (collectionPrefix ++ x) collectionPrefix = true.
Proof. apply prefix_append. Qed.

Lemma numericIdOf_cases (k : string) :
  (JS.startsWith k collectionPrefix = false /\ numericIdOf k = k) \/
  (k = collectionPrefix ++ numericIdOf k).
Proof.
  unfold numericIdOf. destruct (JS.startsWith k collectionPrefix) eqn:E; [right | left; auto].
  unfold JS.startsWith in E. apply prefix_correct in E.
  assert (Hk : k = collectionPrefix ++ JS.dropChars (String.length collectionPrefix) k).
  { revert E. generalize collectionPrefix as p. revert k.
    induction k as [| c k IH]; intros p E.
    - destruct p; [reflexivity | discriminate].
    - destruct p as [| c' p]; [reflexivity |].
      simpl in E. injection E as -> E. rewrite append_cons. simpl.
      f_equal. apply IH, E. }
  rewrite Hk at 2. rewrite removeFirst_append. exact Hk.
Qed.

(** The node the storefront branch builds for a collection it cannot find. *)
Lemma storeNodes_failed (w : World) (ruleMap : Resolver.RuleMap) :
  match storeApi w with
  | StoreThrows => True
  | StoreJson None => True
  | StoreJson (Some _) => False
  end ->
  storeNodes w ruleMap
  = map (fun k => Some {| nodeId := collectionPrefix ++ numericIdOf k;
                          nodeTitle := "Collection " ++ numericIdOf k;
                          nodeHandle := "" |})
      (Resolver.Object_keys ruleMap).
Proof.
  intros H. unfold storeNodes. apply map_ext. intros k.
  destruct (storeApi w) as [| [cs |]]; [reflexivity | contradiction | reflexivity].
Qed.

(** Every entry of the collection map built from placeholder nodes is the
    placeholder of the numeric id it is filed under, with or without the
    prefix. *)
Lemma collectionMapOf_placeholders (P : string -> Prop) (keys : list string)
  (m0 : gmap string Node) :
  (forall k, In k keys -> P (numericIdOf k)) ->
  (forall (key : string) (n : Node), m0 !! key = Some n ->
     exists x, P x /\ n = mkNode (collectionPrefix ++ x) ("Collection " ++ x) "" /\
               (key = x \/ key = collectionPrefix ++ x)) ->
  forall (key : string) (n : Node),
    fold_left
      (fun (collectionMap : gmap string Node) node =>
         match node with
         | Some n =>
             match nodeId n with
             | EmptyString => collectionMap
             | _ =>
                 <[nodeId n := n]>
                   (<[JS.removeFirst (nodeId n) collectionPrefix := n]> collectionMap)
             end
         | None => collectionMap
         end)
      (map (fun k => Some {| nodeId := collectionPrefix ++ numericIdOf k;
                             nodeTitle := "Collection " ++ numericIdOf k;
                             nodeHandle := "" |}) keys)
      m0 !! key = Some n ->
    exists x, P x /\ n = mkNode (collectionPrefix ++ x) ("Collection " ++ x) "" /\
              (key = x \/ key = collectionPrefix ++ x).
Proof.
  revert m0. induction keys as [| k keys IH]; intros m0 HP H0 key n; [apply H0 |].
  cbn [map fold_left nodeId]. rewrite (collectionPrefix_append (numericIdOf k)).
  cbv iota. rewrite <- (collectionPrefix_append (numericIdOf k)), removeFirst_append.
  apply IH; [intros k' Hk'; apply HP; right; exact Hk' |].
  clear key n. intros key n Hl.
  assert (Pk : P (numericIdOf k)) by (apply HP; left; reflexivity).
  destruct (decide (collectionPrefix ++ numericIdOf k = key)) as [<- | Hne1].
  - rewrite lookup_insert_eq in Hl. injection Hl as <-.
    exists (numericIdOf k). auto.
  - rewrite lookup_insert_ne in Hl by exact Hne1.
    destruct (decide (numericIdOf k = key)) as [<- | Hne2].
    + rewrite lookup_insert_eq in Hl. injection Hl as <-.
      exists (numericIdOf k). auto.
    + rewrite lookup_insert_ne in Hl by exact Hne2. apply H0, Hl.
Qed.

Lemma strOr_placeholder (x d : string) : strOr ("Collection " ++ x) d = "Collection " ++ x.
Proof. reflexivity. Qed.

Lemma numericIdOf_plain (k : string) :
  JS.startsWith k collectionPrefix = false -> numericIdOf k = k.
Proof. intros H. unfold numericIdOf. rewrite H. reflexivity. Qed.

Lemma numericIdOf_prefixed (x : string) : numericIdOf (collectionPrefix ++ x) = x.
Proof.
  unfold numericIdOf. rewrite startsWith_prefix_append. apply removeFirst_append.
Qed.

(** With placeholder nodes only, the "real data" are the fallback data. *)
Lemma collectionsWithData_placeholders (ruleMap : Resolver.RuleMap) :
  Spec.plainIds ruleMap = true ->
  collectionsWithData ruleMap
    (map (fun k => Some {| nodeId := collectionPrefix ++ numericIdOf k;
                           nodeTitle := "Collection " ++ numericIdOf k;
                           nodeHandle := "" |})
       (Resolver.Object_keys ruleMap))
  = fallbackCollections ruleMap.
Proof.
  intros Hp. unfold Spec.plainIds in Hp. rewrite forallb_forall in Hp.
  pose proof (collectionMapOf_placeholders
                (fun x => JS.startsWith x collectionPrefix = false)
                (Resolver.Object_keys ruleMap) ∅) as HM'.
  assert (H1 : forall k, In k (Resolver.Object_keys ruleMap) ->
                         JS.startsWith (numericIdOf k) collectionPrefix = false)
    by (intros k Hk; apply negb_true_iff, Hp, Hk).
  assert (H2 : forall (key : string) (n : Node),
             (∅ : gmap string Node) !! key = Some n ->
             exists x, JS.startsWith x collectionPrefix = false /\
                       n = mkNode (collectionPrefix ++ x) ("Collection " ++ x) "" /\
                       (key = x \/ key = collectionPrefix ++ x))
    by (intros key n E; rewrite lookup_empty in E; discriminate).
  specialize (HM' H1 H2). clear H2.
  unfold collectionsWithData, fallbackCollections, collectionMapOf.
  apply map_ext_in. intros k Hk. unfold fallbackCollection.
  assert (Hplain : JS.startsWith (numericIdOf k) collectionPrefix = false)
    by (apply H1, Hk).
  match goal with
  | |- context [?m !! numericIdOf k] => destruct (m !! numericIdOf k) as [n |] eqn:E1
  end.
  - destruct (HM' _ _ E1) as (x & Px & -> & [Hx | Hx]).
    + rewrite <- Hx. cbn [nodeTitle nodeHandle]. rewrite strOr_placeholder. reflexivity.
    + exfalso. rewrite Hx, startsWith_prefix_append in Hplain. discriminate.
  - match goal with
    | |- context [?m !! k] => destruct (m !! k) as [n |] eqn:E2
    end; [| reflexivity].
    destruct (HM' _ _ E2) as (x & Px & -> & [Hx | Hx]).
    + subst x. cbn [nodeTitle nodeHandle]. rewrite strOr_placeholder.
      rewrite (numericIdOf_plain k Px). reflexivity.
    + cbn [nodeTitle nodeHandle]. rewrite strOr_placeholder.
      rewrite Hx, numericIdOf_prefixed. reflexivity.
Qed.

Lemma collections_fall_back (h : Handler) (w : World) (storeUrl : string)
  (ruleMap : Resolver.RuleMap) :
  Spec.metadataFails h w storeUrl = true ->
  (Spec.usesStorefront h w storeUrl = true -> Spec.plainIds ruleMap = true) ->
  match h with
  | Action => actionCollections w storeUrl ruleMap
  | Loader => loaderCollections w ruleMap
  end = fallbackCollections ruleMap.
Proof.
  unfold Spec.metadataFails, Spec.usesStorefront, actionCollections, loaderCollections.
  intros Hf Hp.
  destruct (adminSession w) as [[| | nodes] |]; try discriminate;
    try (destruct h; reflexivity).
  destruct h; [| reflexivity].
  destruct storeUrl as [| c storeUrl]; [reflexivity |].
  rewrite storeNodes_failed.
  - apply collectionsWithData_placeholders, Hp. reflexivity.
  - destruct (storeApi w) as [| [cs |]]; [exact I | discriminate | exact I].
Qed.

Lemma selectBestPlan_nonempty (discountPlans : list DiscountPlan) r :
  Selector.selectBestPlan discountPlans = Some r -> Matcher.isEmpty discountPlans = false.
Proof. destruct discountPlans; [discriminate | reflexivity]. Qed.

(** The placeholder node of a collection. *)
Lemma collectionMapOf_snoc (nodes : list (option Node)) (x title : string) :
  collectionMapOf (nodes ++ [Some (mkNode (collectionPrefix ++ x) title "")])
  = <[collectionPrefix ++ x := mkNode (collectionPrefix ++ x) title ""]>
      (<[x := mkNode (collectionPrefix ++ x) title ""]> (collectionMapOf nodes)).
Proof.
  unfold collectionMapOf. rewrite fold_left_app. cbn [fold_left nodeId].
  rewrite (collectionPrefix_append x). cbv iota.
  rewrite <- (collectionPrefix_append x), removeFirst_append. reflexivity.
Qed.

(** Every collection is filed under its numeric id. *)
Lemma collectionMapOf_files (keys : list string) (k : string) :
  In k keys ->
  is_Some (collectionMapOf
             (map (fun k => Some {| nodeId := collectionPrefix ++ numericIdOf k;
                                    nodeTitle := "Collection " ++ numericIdOf k;
                                    nodeHandle := "" |}) keys)
           !! numericIdOf k).
Proof.
  induction keys as [| k0 keys IH] using rev_ind; [intros [] |].
  intros Hk. rewrite map_app. cbn [map]. rewrite collectionMapOf_snoc.
  apply lookup_insert_is_Some.
  destruct (decide (collectionPrefix ++ numericIdOf k0 = numericIdOf k)) as [E | E];
    [left; exact E | right; split; [exact E |]].
  apply lookup_insert_is_Some.
  destruct (decide (numericIdOf k0 = numericIdOf k)) as [E' | E'];
    [left; exact E' | right; split; [exact E' |]].
  apply in_app_iff in Hk. destruct Hk as [Hk | [-> | []]]; [exact (IH Hk) | congruence].
Qed.

(** What the storefront branch gives when it finds nothing: the fallback
    data, except that a collection whose numeric id is itself the full id of
    another collection of the offer may get the title of that one. *)
Lemma collectionsWithData_failed (ruleMap : Resolver.RuleMap) :
  Forall2
    (fun collectionId c =>
       colId c = numericIdOf collectionId /\
       colPercentOff c = Resolver.get collectionId ruleMap /\
       colHandle c = "" /\
       colName c = colTitle c /\
       (colTitle c = "Collection " ++ numericIdOf collectionId \/
        exists other,
          In other (Resolver.Object_keys ruleMap) /\
          numericIdOf collectionId = collectionPrefix ++ numericIdOf other /\
          colTitle c = "Collection " ++ numericIdOf other))
    (Resolver.Object_keys ruleMap)
    (collectionsWithData ruleMap
       (map (fun k => Some {| nodeId := collectionPrefix ++ numericIdOf k;
                              nodeTitle := "Collection " ++ numericIdOf k;
                              nodeHandle := "" |})
          (Resolver.Object_keys ruleMap))).
Proof.
  pose proof (collectionMapOf_placeholders
                (fun x => exists other, In other (Resolver.Object_keys ruleMap) /\
                                        numericIdOf other = x)
                (Resolver.Object_keys ruleMap) ∅) as HM.
  assert (H1 : forall k, In k (Resolver.Object_keys ruleMap) ->
                         exists other, In other (Resolver.Object_keys ruleMap) /\
                                       numericIdOf other = numericIdOf k)
    by (intros k Hk; exists k; split; [exact Hk | reflexivity]).
  assert (H2 : forall (key : string) (n : Node),
             (∅ : gmap string Node) !! key = Some n ->
             exists x, (exists other, In other (Resolver.Object_keys ruleMap) /\
                                      numericIdOf other = x) /\
                       n = mkNode (collectionPrefix ++ x) ("Collection " ++ x) "" /\
                       (key = x \/ key = collectionPrefix ++ x))
    by (intros key n E; rewrite lookup_empty in E; discriminate).
  specialize (HM H1 H2). clear H1 H2.
  unfold collectionsWithData. apply Forall2_map_r. intros k Hk.
  cbn [colId colPercentOff colHandle colName colTitle].
  destruct (collectionMapOf_files _ k Hk) as (n & E1).
  unfold collectionMapOf in E1 |- *. rewrite E1.
  destruct (HM _ _ E1) as (x & (other & Hother & Hx) & -> & Hkey).
  cbn [nodeTitle nodeHandle]. rewrite strOr_placeholder.
  split; [reflexivity |]. split; [reflexivity |]. split; [reflexivity |].
  split; [reflexivity |].
  destruct Hkey as [Hkey | Hkey].
  - left. rewrite Hkey. reflexivity.
  - right. exists other. rewrite Hx. split; [exact Hother |].
    split; [exact Hkey | reflexivity].
Qed.

(** C6, as the code has it. When the collection metadata cannot be had --
    the admin call throws or answers without data, there is neither admin
    access nor a store URL, or the storefront call fails -- a request whose
    tags select a plan is still answered with discountApplicable true, and
    every collection of the offer carries its numeric id, the maximum
    percentOff of its rules, an empty handle, and as title and name a
    placeholder, never an empty text: "Collection " followed by its numeric
    id. The one exception is on the storefront branch, for a collection
    whose id carries the collection prefix twice: its numeric id is then
    the full id of another collection of the offer, whose placeholder it
    may get. *)
Theorem metadata_failure_gives_placeholders :
  forall (h : Handler) (w : World) (customerId : string) (tags : list string)
         (storeUrl : string) (bestPlan : DiscountPlan) (bestPlanMaxPercent : JS.number),
    customerId <> "" ->
    Selector.selectBestPlan (Matcher.findCandidatePlans (planStore w) tags)
    = Some (bestPlan, bestPlanMaxPercent) ->
    Spec.metadataFails h w storeUrl = true ->
    exists offer,
      handle h w (CustomerData (Some customerId) (Some tags) storeUrl)
      = Success (Applicable offer) /\
      discountApplicable (Applicable offer) = true /\
      offerPlanName offer = planName bestPlan /\
      highestDiscountRate offer = bestPlanMaxPercent /\
      Forall2
        (fun collectionId c =>
           colId c = numericIdOf collectionId /\
           colPercentOff c = Spec.maxPercentFor collectionId (rules bestPlan) /\
           colHandle c = "" /\
           colName c = colTitle c /\
           (colTitle c = "Collection " ++ numericIdOf collectionId \/
            Spec.usesStorefront h w storeUrl = true /\
            exists other,
              In other (Resolver.Object_keys (Resolver.resolveRules (rules bestPlan))) /\
              numericIdOf collectionId = collectionPrefix ++ numericIdOf other /\
              colTitle c = "Collection " ++ numericIdOf other))
        (Resolver.Object_keys (Resolver.resolveRules (rules bestPlan)))
        (offerCollections offer) /\
      (Spec.usesStorefront h w storeUrl = false \/
       Spec.plainIds (Resolver.resolveRules (rules bestPlan)) = true ->
       offerCollections offer
       = map (Spec.placeholder (rules bestPlan))
           (Resolver.Object_keys (Resolver.resolveRules (rules bestPlan)))).
Proof.
  intros h w customerId tags storeUrl bestPlan best Hid Hsel Hf.
  unfold handle. destruct customerId as [| c customerId]; [congruence |].
  rewrite (selectBestPlan_nonempty _ _ Hsel), Hsel.
  eexists. split; [reflexivity |]. cbn [offerPlanName highestDiscountRate offerCollections].
  split; [reflexivity |]. split; [reflexivity |]. split; [reflexivity |]. split.
  - assert (F : Forall2
                  (fun collectionId c =>
                     colId c = numericIdOf collectionId /\
                     colPercentOff c
                     = Resolver.get collectionId (Resolver.resolveRules (rules bestPlan)) /\
                     colHandle c = "" /\
                     colName c = colTitle c /\
                     (colTitle c = "Collection " ++ numericIdOf collectionId \/
                      Spec.usesStorefront h w storeUrl = true /\
                      exists other,
                        In other (Resolver.Object_keys
                                    (Resolver.resolveRules (rules bestPlan))) /\
                        numericIdOf collectionId = collectionPrefix ++ numericIdOf other /\
                        colTitle c = "Collection " ++ numericIdOf other))
                  (Resolver.Object_keys (Resolver.resolveRules (rules bestPlan)))
                  match h with
                  | Action => actionCollections w storeUrl
                                (Resolver.resolveRules (rules bestPlan))
                  | Loader => loaderCollections w (Resolver.resolveRules (rules bestPlan))
                  end).
    { destruct (Spec.usesStorefront h w storeUrl) eqn:U.
      - revert Hf. unfold Spec.metadataFails. rewrite U.
        unfold Spec.usesStorefront in U.
        destruct h; [| discriminate U].
        unfold actionCollections.
        destruct (adminSession w) as [g |]; [discriminate U |].
        destruct storeUrl as [| a storeUrl]; [discriminate U |].
        intros Hf. rewrite storeNodes_failed
          by (destruct (storeApi w) as [| [cs |]]; [exact I | discriminate Hf | exact I]).
        eapply Forall2_impl; [apply collectionsWithData_failed |].
        cbv beta. intros k col (H1 & H2 & H3 & H4 & H5).
        repeat (split; [assumption |]).
        destruct H5 as [H5 | H5]; [left; exact H5 | right; split; [reflexivity | exact H5]].
      - rewrite (collections_fall_back h w storeUrl _ Hf)
          by (intros U'; congruence).
        apply Forall2_map_r. intros k _. unfold fallbackCollection.
        cbn [colId colPercentOff colHandle colName colTitle].
        repeat (split; [reflexivity |]). left. reflexivity. }
    eapply Forall2_weaken_in; [| exact F]. cbv beta.
    intros k col Hk (H1 & H2 & H3 & H4 & H5).
    split; [exact H1 |].
    split; [rewrite H2; exact (proj2 (resolved_key _ _ Hk)) |].
    split; [exact H3 |]. split; [exact H4 | exact H5].
  - intros Hp. rewrite <- fallbackCollections_placeholders.
    apply collections_fall_back; [exact Hf |].
    intros U. destruct Hp as [Hp | Hp]; [congruence | exact Hp].
Qed.

Lemma metadata_failure_gives_placeholders_witness :
  Spec.usesStorefront Action Sample.offline "https://shop.example" = true /\
  exists offer,
    handle Action Sample.offline
      (CustomerData (Some "9") (Some ["VIP"]) "https://shop.example")
    = Success (Applicable offer) /\
    discountApplicable (Applicable offer) = true /\
    offerPlanName offer = "gold" /\
    highestDiscountRate offer = JS.num 15 /\
    offerCollections offer
    = map (Spec.placeholder [Sample.rule "gid://shopify/Collection/1" 15])
        (Resolver.Object_keys
           (Resolver.resolveRules [Sample.rule "gid://shopify/Collection/1" 15])).
Proof.
  split; [reflexivity |].
  destruct (metadata_failure_gives_placeholders Action Sample.offline "9" ["VIP"]
              "https://shop.example"
              (Sample.plan "gold" "vip" [Sample.rule "gid://shopify/Collection/1" 15])
              (JS.num 15))
    as (offer & H & Ha & Hn & Hr & _ & Hc).
  - discriminate.
  - reflexivity.
  - reflexivity.
  - exists offer. split; [exact H |]. split; [exact Ha |]. split; [exact Hn |].
    split; [exact Hr |]. apply Hc. right. reflexivity.
Defined.

(** The exception at work: the second collection is filed under the numeric
    id of the first, whose own placeholder is lost. *)
Example doubled_prefix_takes_the_other_placeholder :
  map colId
    (actionCollections Sample.offline "https://shop.example"
       (Resolver.resolveRules
          [Sample.rule "gid://shopify/Collection/gid://shopify/Collection/5" 10;
           Sample.rule "gid://shopify/Collection/5" 20]))
  = ["gid://shopify/Collection/5"; "5"]
  /\ map colTitle
       (actionCollections Sample.offline "https://shop.example"
          (Resolver.resolveRules
             [Sample.rule "gid://shopify/Collection/gid://shopify/Collection/5" 10;
              Sample.rule "gid://shopify/Collection/5" 20]))
     = ["Collection 5"; "Collection 5"].
Proof. split; vm_compute; reflexivity. Qed.

(** C6 as stated fails on the title: without admin access and without a
    store URL the only collection of the offer has the id "1", an empty
    handle, 15% off, and the title "Collection 1", which is not empty. *)
Lemma fallback_title_is_a_placeholder :
  Spec.metadataFails Action Sample.offline "" = true /\
  exists offer,
    handle Action Sample.offline (CustomerData (Some "9") (Some ["VIP"]) "")
    = Success (Applicable offer) /\
    map colId (offerCollections offer) = ["1"] /\
    map colPercentOff (offerCollections offer) = [Some (JS.num 15)] /\
    map colHandle (offerCollections offer) = [""] /\
    map colTitle (offerCollections offer) = ["Collection 1"] /\
    Forall (fun c => colTitle c <> "") (offerCollections offer).
Proof.
  split; [reflexivity |]. eexists. split; [reflexivity |].
  repeat split. constructor; [discriminate | constructor].
Qed.

End Metadata.

(** * Further properties of the order path *)

Section OrderResponses.

Import Order.

Lemma malformed_resolve (w : World) (req : Request) :
  Derived.malformed req = true ->
  exists error,
    resolve w req = mkM (inl (jsonStatus (ErrorBody error) 400)) [].
Proof.
  unfold Derived.malformed, resolve, fail. intros H.
  destruct (isEmptyString (shop req)); [eexists; reflexivity |].
  destruct (isEmptyString (customerId req)); [eexists; reflexivity |].
  cbn [orb] in *.
  destruct (isMissing (cartItems req)); [eexists; reflexivity |].
  destruct (processCart (cartItems req)) as [error | [| item items]];
    [eexists; reflexivity | eexists; reflexivity | discriminate].
Qed.

Lemma wellformed_cart (req : Request) :
  Derived.malformed req = false ->
  shop req <> "" /\ customerId req <> "" /\
  exists item items, processCart (cartItems req) = inr (item :: items).
Proof.
  unfold Derived.malformed. intros H.
  apply orb_false_iff in H. destruct H as [H Hc].
  apply orb_false_iff in H. destruct H as [Hs Hi].
  split; [destruct (shop req); [discriminate | congruence] |].
  split; [destruct (customerId req); [discriminate | congruence] |].
  destruct (processCart (cartItems req)) as [e | [| item items]]; try discriminate.
  eauto.
Qed.

(** Steps 1 to 5 for a well-formed request: the answer or the context, and
    the calls made on the way. *)
Lemma resolve_wellformed (w : World) (req : Request) (item : CartItem)
  (items : list CartItem) :
  shop req <> "" -> customerId req <> "" ->
  processCart (cartItems req) = inr (item :: items) ->
  resolve w req
  = match sessions w (shop req) with
    | None =>
        mkM (inl (jsonStatus
                    (ErrorBody "No session found for this shop. Please ensure the app is properly installed.")
                    401))
            [SessionLookup (shop req)]
    | Some _ =>
        match value (fetchCustomerData w (customerId req)) with
        | None =>
            mkM (inl (jsonStatus (ErrorBody "Customer not found") 404))
                [SessionLookup (shop req);
                 FetchCustomer (formatCustomerId (customerId req))]
        | Some customerData =>
            match value (fetchSegments w) with
            | None =>
                mkM (inl (jsonStatus (ErrorBody "Failed to fetch segments") 500))
                    [SessionLookup (shop req);
                     FetchCustomer (formatCustomerId (customerId req));
                     FetchSegments]
            | Some segments =>
                match Matcher.matchSegment segments (customerTags customerData) with
                | None =>
                    mkM (inl (json NoSegmentBody))
                        [SessionLookup (shop req);
                         FetchCustomer (formatCustomerId (customerId req));
                         FetchSegments]
                | Some matchedSegment =>
                    match value (findPlanFor w matchedSegment) with
                    | None =>
                        mkM (inl (json NoPlanBody))
                            (Derived.lookupCalls w req matchedSegment ++ [PlanFindMany])
                    | Some plan =>
                        match rules plan with
                        | [] =>
                            mkM (inl (json NoPlanBody))
                                (Derived.lookupCalls w req matchedSegment ++ [PlanFindMany])
                        | _ =>
                            mkM (inr {| ctxItems := item :: items;
                                        ctxSegment := matchedSegment;
                                        ctxPlan := plan |})
                                (Derived.lookupCalls w req matchedSegment)
                        end
                    end
                end
            end
        end
    end.
Proof.
  intros Hshop Hcust Hcart. unfold resolve.
  rewrite (isEmptyString_false _ Hshop), (isEmptyString_false _ Hcust).
  assert (Hm : isMissing (cartItems req) = false)
    by (destruct (cartItems req); [discriminate Hcart | reflexivity ..]).
  rewrite Hm, Hcart. cbn [orb].
  destruct (sessions w (shop req)) as [token |]; [| reflexivity].
  unfold fetchCustomerData.
  destruct (customerService w (formatCustomerId (customerId req)))
    as [| | [customerData |]]; try reflexivity.
  unfold fetchSegments. destruct (segmentCatalog w) as [| | segments]; try reflexivity.
  cbn [value mbind M_bind mret M_ret emit].
  destruct (Matcher.matchSegment segments (customerTags customerData))
    as [matchedSegment |]; [| reflexivity].
  unfold findPlanFor, findFirstPlan, Derived.lookupCalls.
  cbn [value mbind M_bind mret M_ret emit].
  destruct (PlanStore.findFirst (planStore w) (segmentId matchedSegment)) as [p |];
    cbn [value mbind M_bind mret M_ret emit].
  - destruct (rules p); reflexivity.
  - destruct (PlanStore.findFirst (planStore w) (segmentName matchedSegment)) as [p |];
      cbn [value mbind M_bind mret M_ret emit];
      [destruct (rules p) |]; reflexivity.
Qed.

Lemma M_eta {A} (m : M A) : m = mkM (value m) (trace m).
Proof. destruct m; reflexivity. Qed.

(** What a request that reaches the calculator has gone through. *)
Lemma resolve_inr (w : World) (req : Request) (ctx : Context) :
  value (resolve w req) = inr ctx ->
  Derived.malformed req = false /\
  processCart (cartItems req) = inr (ctxItems ctx) /\
  trace (resolve w req) = Derived.lookupCalls w req (ctxSegment ctx) /\
  value (findPlanFor w (ctxSegment ctx)) = Some (ctxPlan ctx) /\
  rules (ctxPlan ctx) <> [] /\
  exists customerData segments,
    value (fetchCustomerData w (customerId req)) = Some customerData /\
    value (fetchSegments w) = Some segments /\
    Matcher.matchSegment segments (customerTags customerData) = Some (ctxSegment ctx).
Proof.
  intros E. destruct (Derived.malformed req) eqn:Hmal.
  { destruct (malformed_resolve w req Hmal) as [error Hr]. rewrite Hr in E. discriminate. }
  destruct (wellformed_cart req Hmal) as (Hshop & Hcust & item & items & Hcart).
  rewrite (resolve_wellformed w req item items Hshop Hcust Hcart) in E |- *.
  destruct (sessions w (shop req)); [| discriminate].
  destruct (value (fetchCustomerData w (customerId req))) as [customerData |];
    [| discriminate].
  destruct (value (fetchSegments w)) as [segments |]; [| discriminate].
  destruct (Matcher.matchSegment segments (customerTags customerData))
    as [matchedSegment |] eqn:Hseg; [| discriminate].
  destruct (value (findPlanFor w matchedSegment)) as [plan |] eqn:Hplan; [| discriminate].
  destruct (rules plan) as [| r rs] eqn:Hrules; [discriminate |].
  cbn [value trace] in *. injection E as <-. cbn [ctxItems ctxSegment ctxPlan].
  split; [reflexivity |]. split; [exact Hcart |]. split; [reflexivity |].
  split; [exact Hplan |]. split; [congruence |].
  exists customerData, segments. auto.
Qed.

Lemma settle_trace_full (w : World) (req : Request) (ctx : Context) :
  trace (settle w req ctx)
  = (Spec.membershipCalls (rules (ctxPlan ctx)) (ctxItems ctx)
     ++ match Spec.discountsOf w (rules (ctxPlan ctx)) (ctxItems ctx) with
        | [] => []
        | ds =>
            [CreateDraftOrder (formatCustomerId (customerId req))
               (map (lineItemOf ds) (ctxItems ctx))]
        end)%list.
Proof.
  unfold settle. rewrite trace_bind, computeDiscounts_trace, computeDiscounts_value.
  cbn [applicableDiscounts].
  destruct (Spec.discountsOf w (rules (ctxPlan ctx)) (ctxItems ctx)); reflexivity.
Qed.

Lemma settle_value (w : World) (req : Request) (ctx : Context) :
  value (settle w req ctx)
  = match Spec.discountsOf w (rules (ctxPlan ctx)) (ctxItems ctx) with
    | [] =>
        json (NoDiscountBody
                (summaryOf (ctxSegment ctx) (ctxPlan ctx) (ctxItems ctx)
                   (value (computeDiscounts w (rules (ctxPlan ctx)) (ctxItems ctx)))
                   (JS.num 0)))
    | d :: ds =>
        match value (createDraftOrder w (customerId req) (ctxItems ctx) (d :: ds)) with
        | DraftSuccess draftOrder =>
            json (DraftCreatedBody (invoiceUrl draftOrder)
                    (summaryOf (ctxSegment ctx) (ctxPlan ctx) (ctxItems ctx)
                       (value (computeDiscounts w (rules (ctxPlan ctx)) (ctxItems ctx)))
                       (maxPercentOff d ds)))
        | DraftFailure error => jsonStatus (DraftFailedBody error) 500
        end
    end.
Proof.
  unfold settle. rewrite value_bind.
  assert (E : applicableDiscounts
                (value (computeDiscounts w (rules (ctxPlan ctx)) (ctxItems ctx)))
              = Spec.discountsOf w (rules (ctxPlan ctx)) (ctxItems ctx))
    by (rewrite computeDiscounts_value; reflexivity).
  destruct (applicableDiscounts
              (value (computeDiscounts w (rules (ctxPlan ctx)) (ctxItems ctx))))
    as [| d ds]; rewrite <- E; reflexivity.
Qed.

Lemma action_of_context (w : World) (req : Request) (ctx : Context) :
  value (resolve w req) = inr ctx ->
  value (action w req) = value (settle w req ctx) /\
  trace (action w req) = (trace (resolve w req) ++ trace (settle w req ctx))%list.
Proof.
  intros E. unfold action. rewrite value_bind, trace_bind, E. split; reflexivity.
Qed.

Lemma action_of_answer (w : World) (req : Request) (response : Response) :
  value (resolve w req) = inl response ->
  value (action w req) = response /\
  trace (action w req) = trace (resolve w req).
Proof.
  intros E. unfold action. rewrite value_bind, trace_bind, E. cbn.
  split; [reflexivity | apply app_nil_r].
Qed.

(** The answers of a well-formed request: never 400, and a status of 200
    exactly when the body says whether a discount applies, at top level or
    in its summary. *)
Lemma wellformed_status (w : World) (req : Request) :
  Derived.malformed req = false ->
  (status (value (action w req)) = 200%Z /\
   (discountApplicable (body (value (action w req))) = Some false /\
    summaryDiscountApplicable (body (value (action w req))) = None /\
    draftIssued (trace (action w req)) = false
    \/
    discountApplicable (body (value (action w req))) = None /\
    summaryDiscountApplicable (body (value (action w req))) = Some true /\
    draftIssued (trace (action w req)) = true))
  \/
  ((status (value (action w req)) = 401%Z \/
    status (value (action w req)) = 404%Z \/
    status (value (action w req)) = 500%Z) /\
   discountApplicable (body (value (action w req))) = None /\
   summaryDiscountApplicable (body (value (action w req))) = None).
Proof.
  intros Hmal.
  destruct (wellformed_cart req Hmal) as (Hshop & Hcust & item & items & Hcart).
  destruct (value (resolve w req)) as [response | ctx] eqn:E.
  - destruct (action_of_answer w req response E) as [-> ->].
    pose proof (resolve_no_draft w req) as Hno.
    pose proof (resolve_wellformed w req item items Hshop Hcust Hcart) as R.
    rewrite R in E. clear R.
    destruct (sessions w (shop req));
      [| injection E as <-; right; split; [left; reflexivity | split; reflexivity]].
    destruct (value (fetchCustomerData w (customerId req))) as [customerData |];
      [| injection E as <-; right; split; [right; left; reflexivity | split; reflexivity]].
    destruct (value (fetchSegments w)) as [segments |];
      [| injection E as <-; right; split; [right; right; reflexivity | split; reflexivity]].
    destruct (Matcher.matchSegment segments (customerTags customerData))
      as [matchedSegment |];
      [| injection E as <-; left; split; [reflexivity | left; auto]].
    destruct (value (findPlanFor w matchedSegment)) as [plan |];
      [| injection E as <-; left; split; [reflexivity | left; auto]].
    destruct (rules plan); [| discriminate].
    injection E as <-. left. split; [reflexivity | left; auto].
  - rewrite (action_draft_issued w req ctx E), discountsOf_nil.
    destruct (action_of_context w req ctx E) as [-> _]. rewrite settle_value.
    destruct (Spec.discountsOf w (rules (ctxPlan ctx)) (ctxItems ctx)) as [| d ds].
    + left. split; [reflexivity | left; auto].
    + destruct (value (createDraftOrder w (customerId req) (ctxItems ctx) (d :: ds))).
      * left. split; [reflexivity | right; auto].
      * right. split; [right; right; reflexivity | split; reflexivity].
Qed.

(** X1. A request without shop or customer id, or whose cart is missing,
    ill-formed or empty, is answered with status 400 before any collaborator
    is called; and no other request is answered with status 400. *)
Theorem malformed_request_rejected_without_calls :
  forall (w : World) (req : Request),
    (Derived.malformed req = true ->
     status (value (action w req)) = 400%Z /\
     trace (action w req) = [] /\
     discountApplicable (body (value (action w req))) = None)
    /\
    (status (value (action w req)) = 400%Z -> Derived.malformed req = true).
Proof.
  intros w req. split.
  - intros Hmal. destruct (malformed_resolve w req Hmal) as [error Hr].
    unfold action. rewrite Hr. repeat split.
  - intros Hs. destruct (Derived.malformed req) eqn:Hmal; [reflexivity |].
    destruct (wellformed_status w req Hmal) as [[H _] | [[H | [H | H]] _]];
      rewrite H in Hs; discriminate.
Qed.

Lemma malformed_request_rejected_without_calls_witness :
  (status (value (action (Sample.world Sample.customerVip Sample.inCollection1)
                    (Sample.request (CartArray [])))) = 400%Z /\
   trace (action (Sample.world Sample.customerVip Sample.inCollection1)
            (Sample.request (CartArray []))) = [] /\
   discountApplicable
     (body (value (action (Sample.world Sample.customerVip Sample.inCollection1)
                     (Sample.request (CartArray []))))) = None)
  /\ Derived.malformed (Sample.request (CartObject None)) = true.
Proof.
  split.
  - apply (malformed_request_rejected_without_calls
             (Sample.world Sample.customerVip Sample.inCollection1)
             (Sample.request (CartArray []))).
    reflexivity.
  - apply (malformed_request_rejected_without_calls
             (Sample.world Sample.customerVip Sample.inCollection1)
             (Sample.request (CartObject None))).
    reflexivity.
Defined.

(** X2. The status of every answer to a request with a parsed body (an
    OPTIONS request is answered before, by the CORS preflight) is 200, 400,
    401, 404 or 500. No answer
    says discountApplicable true at top level: the answers that report no
    discount say discountApplicable false there, and the answer that reports
    a draft order says discountApplicable true inside its discountSummary.
    The answers of status 200 are exactly these two kinds, and no answer is
    of both; the first is given only when no draft order was asked for, the
    second only after one was. *)
Theorem status_and_discount_flag :
  forall (w : World) (req : Request),
    (status (value (action w req)) = 200%Z \/
     status (value (action w req)) = 400%Z \/
     status (value (action w req)) = 401%Z \/
     status (value (action w req)) = 404%Z \/
     status (value (action w req)) = 500%Z)
    /\ discountApplicable (body (value (action w req))) <> Some true
    /\ summaryDiscountApplicable (body (value (action w req))) <> Some false
    /\ (status (value (action w req)) = 200%Z <->
        discountApplicable (body (value (action w req))) = Some false \/
        summaryDiscountApplicable (body (value (action w req))) = Some true)
    /\ (discountApplicable (body (value (action w req))) = Some false ->
        summaryDiscountApplicable (body (value (action w req))) = None /\
        draftIssued (trace (action w req)) = false)
    /\ (summaryDiscountApplicable (body (value (action w req))) = Some true ->
        discountApplicable (body (value (action w req))) = None /\
        draftIssued (trace (action w req)) = true).
Proof.
  intros w req. destruct (Derived.malformed req) eqn:Hmal.
  - destruct (malformed_resolve w req Hmal) as [error Hr].
    unfold action. rewrite Hr. cbn. split; [auto |].
    split; [discriminate |]. split; [discriminate |].
    split; [split; [discriminate | intros [H | H]; discriminate H] |].
    split; discriminate.
  - destruct (wellformed_status w req Hmal)
      as [[H [(H1 & H2 & H3) | (H1 & H2 & H3)]] | [H (H1 & H2)]];
      rewrite H1, H2;
      (split; [destruct H as [H | [H | H]] || idtac; auto |]);
      (split; [discriminate |]); (split; [discriminate |]).
    + split; [split; [auto | intros _; exact H] |].
      split; [intros _; split; [reflexivity | exact H3] | discriminate].
    + split; [split; [auto | intros _; exact H] |].
      split; [discriminate | intros _; split; [reflexivity | exact H3]].
    + split; [| split; discriminate].
      split; [| intros [H' | H']; discriminate H'].
      intros H'. destruct H as [H | [H | H]]; rewrite H in H'; discriminate H'.
Qed.

Lemma status_and_discount_flag_witness :
  draftIssued
    (trace (action (Sample.world Sample.customerVip Sample.inCollection1)
              (Sample.request (CartArray [Sample.item 100 2])))) = true
  /\ draftIssued
       (trace (action (Sample.world Sample.customerVip Sample.inNoCollection)
                 (Sample.request (CartArray [Sample.item 100 2])))) = false.
Proof.
  split.
  - apply (status_and_discount_flag
             (Sample.world Sample.customerVip Sample.inCollection1)
             (Sample.request (CartArray [Sample.item 100 2]))).
    reflexivity.
  - apply (status_and_discount_flag
             (Sample.world Sample.customerVip Sample.inNoCollection)
             (Sample.request (CartArray [Sample.item 100 2]))).
    reflexivity.
Defined.

(** X3. A failing step ends a well-formed request with the calls made so
    far: without a session the answer is 401 after the session lookup alone;
    with an unknown or unreadable customer it is 404 after the customer
    call; when the segments cannot be fetched it is 500 after the segment
    call; the Plan Store is not queried in any of these cases. *)
Theorem failing_step_ends_the_request :
  forall (w : World) (req : Request),
    Derived.malformed req = false ->
    (sessions w (shop req) = None ->
     status (value (action w req)) = 401%Z /\
     trace (action w req) = [SessionLookup (shop req)])
    /\
    (forall token,
        sessions w (shop req) = Some token ->
        value (fetchCustomerData w (customerId req)) = None ->
        status (value (action w req)) = 404%Z /\
        trace (action w req)
        = [SessionLookup (shop req);
           FetchCustomer (formatCustomerId (customerId req))])
    /\
    (forall token customerData,
        sessions w (shop req) = Some token ->
        value (fetchCustomerData w (customerId req)) = Some customerData ->
        value (fetchSegments w) = None ->
        status (value (action w req)) = 500%Z /\
        trace (action w req)
        = [SessionLookup (shop req);
           FetchCustomer (formatCustomerId (customerId req));
           FetchSegments]).
Proof.
  intros w req Hmal.
  destruct (wellformed_cart req Hmal) as (Hshop & Hcust & item & items & Hcart).
  pose proof (resolve_wellformed w req item items Hshop Hcust Hcart) as R.
  split; [| split].
  - intros Hs. rewrite Hs in R. unfold action. rewrite R. split; reflexivity.
  - intros token Hs Hc. rewrite Hs, Hc in R. unfold action. rewrite R.
    split; reflexivity.
  - intros token customerData Hs Hc Hseg. rewrite Hs, Hc, Hseg in R.
    unfold action. rewrite R. split; reflexivity.
Qed.

Lemma failing_step_ends_the_request_witness :
  (status (value (action (Sample.world (CustomerData None) Sample.inCollection1)
                    (Sample.request (CartArray [Sample.item 100 2])))) = 404%Z /\
   trace (action (Sample.world (CustomerData None) Sample.inCollection1)
            (Sample.request (CartArray [Sample.item 100 2])))
   = [SessionLookup "shop.example"; FetchCustomer "gid://shopify/Customer/9"]).
Proof.
  destruct (failing_step_ends_the_request
              (Sample.world (CustomerData None) Sample.inCollection1)
              (Sample.request (CartArray [Sample.item 100 2])) eq_refl)
    as (_ & H & _).
  apply (H "token"); reflexivity.
Defined.

Lemma membershipCalls_length (rules : list Rule) (items : list CartItem) :
  length (Spec.membershipCalls rules items) = (length items * length rules)%nat.
Proof.
  unfold Spec.membershipCalls.
  induction items as [| item items IH]; [reflexivity |].
  cbn [flat_map length Nat.mul]. rewrite length_app, length_map, IH. reflexivity.
Qed.

(** The percentOff of the first recorded discount of a product. *)
Lemma find_discount_percent (w : World) (rules : list Rule) (items : list CartItem)
  (pid : string) :
  option_map dPercentOff
    (List.find (fun d => String.eqb (dProductId d) pid) (Spec.discountsOf w rules items))
  = if existsb (fun it => String.eqb (productId it) pid) items
    then match fst (value (bestDiscountFor w pid rules)) with
         | Some _ => Some (snd (value (bestDiscountFor w pid rules)))
         | None => None
         end
    else None.
Proof.
  induction items as [| it items IH]; [reflexivity |].
  rewrite discountsOf_cons. unfold Spec.discountsOf at 1. cbn [flat_map existsb].
  rewrite app_nil_r.
  destruct (String.eqb (productId it) pid) eqn:E.
  - apply String.eqb_eq in E. rewrite E. cbn [orb].
    destruct (fst (value (bestDiscountFor w pid rules))) as [r |] eqn:B.
    + cbn [app List.find discountOf dProductId]. rewrite E, String.eqb_refl. reflexivity.
    + cbn [app]. rewrite IH. destruct (existsb _ items); reflexivity.
  - cbn [orb].
    destruct (fst (value (bestDiscountFor w (productId it) rules))) as [r |].
    + cbn [app List.find discountOf dProductId]. rewrite E. exact IH.
    + exact IH.
Qed.

Lemma existsb_same_product (items : list CartItem) (item : CartItem) :
  In item items ->
  existsb (fun it => String.eqb (productId it) (productId item)) items = true.
Proof.
  intros H. apply existsb_exists. exists item. split; [exact H | apply String.eqb_refl].
Qed.

(** Every line item sent to the order sink carries the best percentOff of
    its own line, or no discount. *)
Lemma lineItem_expected (w : World) (rules : list Rule) (items : list CartItem)
  (item : CartItem) :
  In item items ->
  lineItemOf (Spec.discountsOf w rules items) item
  = Derived.expectedLineItem w rules item.
Proof.
  intros Hitem. unfold lineItemOf, Derived.expectedLineItem. f_equal.
  pose proof (find_discount_percent w rules items (productId item)) as F.
  rewrite (existsb_same_product items item Hitem) in F.
  rewrite bestDiscountFor_qualifies.
  destruct (bestDiscountFor_invariant w (productId item) rules)
    as [(Hs & _) | (before & best & after & _ & Hs & _ & Hpos & _)];
    rewrite Hs in F |- *; cbn [fst snd] in *.
  - destruct (List.find _ _); [discriminate | reflexivity].
  - destruct (List.find _ _) as [d |]; [| discriminate].
    cbn in F. injection F as ->.
    assert (G : JS.gt (percentOff best) (JS.num 0) = true) by qc_order.
    rewrite G. reflexivity.
Qed.

Lemma action_trace_inr (w : World) (req : Request) (ctx : Context) :
  value (resolve w req) = inr ctx ->
  trace (action w req)
  = (Derived.lookupCalls w req (ctxSegment ctx)
     ++ Spec.membershipCalls (rules (ctxPlan ctx)) (ctxItems ctx)
     ++ match Spec.discountsOf w (rules (ctxPlan ctx)) (ctxItems ctx) with
        | [] => []
        | ds =>
            [CreateDraftOrder (formatCustomerId (customerId req))
               (map (lineItemOf ds) (ctxItems ctx))]
        end)%list.
Proof.
  intros E. destruct (action_of_context w req ctx E) as [_ ->].
  destruct (resolve_inr w req ctx E) as (_ & _ & -> & _).
  rewrite settle_trace_full. reflexivity.
Qed.

Lemma lookupCalls_no_draft (w : World) (req : Request) (segment : Segment) :
  draftIssued (Derived.lookupCalls w req segment) = false.
Proof.
  unfold Derived.lookupCalls.
  destruct (PlanStore.findFirst (planStore w) (segmentId segment)); reflexivity.
Qed.

(** X4. A request that reaches the calculator has made, in this order: the
    session lookup, the customer call with the prefixed customer id, the
    segment call, one plan lookup by segment id and, only when that finds
    nothing, one by segment name; then one membership check for each rule of
    each cart line, lines x rules in all; and last, exactly when some line
    has a discount, one draft-order call with one line item per cart line. *)
Theorem calls_of_a_priced_request :
  forall (w : World) (req : Request) (ctx : Context),
    value (resolve w req) = inr ctx ->
    trace (action w req)
    = (Derived.lookupCalls w req (ctxSegment ctx)
       ++ Spec.membershipCalls (rules (ctxPlan ctx)) (ctxItems ctx)
       ++ (if existsb (Spec.qualifies w (rules (ctxPlan ctx))) (ctxItems ctx)
           then [CreateDraftOrder (formatCustomerId (customerId req))
                   (map (lineItemOf
                           (Spec.discountsOf w (rules (ctxPlan ctx)) (ctxItems ctx)))
                      (ctxItems ctx))]
           else []))%list
    /\ length (Spec.membershipCalls (rules (ctxPlan ctx)) (ctxItems ctx))
       = (length (ctxItems ctx) * length (rules (ctxPlan ctx)))%nat.
Proof.
  intros w req ctx E. split; [| apply membershipCalls_length].
  rewrite (action_trace_inr w req ctx E), discountsOf_nil.
  destruct (Spec.discountsOf w (rules (ctxPlan ctx)) (ctxItems ctx)); reflexivity.
Qed.

Lemma calls_of_a_priced_request_witness :
  trace (action (Sample.world Sample.customerVip Sample.inCollection1)
           (Sample.request (CartArray [Sample.item 100 2])))
  = [SessionLookup "shop.example";
     FetchCustomer "gid://shopify/Customer/9";
     FetchSegments;
     PlanFindFirst "gid://shopify/Segment/1";
     CheckMembership "gid://shopify/Product/1" "gid://shopify/Collection/1";
     CreateDraftOrder "gid://shopify/Customer/9"
       [{| liVariantId := "gid://shopify/ProductVariant/1";
           liQuantity := Some (JS.num 2);
           liAppliedDiscount := Some (JS.num 15) |}]].
Proof.
  destruct (calls_of_a_priced_request
              (Sample.world Sample.customerVip Sample.inCollection1)
              (Sample.request (CartArray [Sample.item 100 2]))
              (Sample.contextVip [Sample.item 100 2]) eq_refl) as [H _].
  rewrite H. reflexivity.
Defined.

(** X5. Whatever the collaborators answer, a request issues at most one
    draft-order call, and that call is the last one of the request. *)
Theorem at_most_one_draft_call :
  forall (w : World) (req : Request),
    exists calls rest,
      trace (action w req) = (calls ++ rest)%list /\
      draftIssued calls = false /\
      (rest = [] \/ exists customerGid lineItems,
                      rest = [CreateDraftOrder customerGid lineItems]).
Proof.
  intros w req. destruct (value (resolve w req)) as [response | ctx] eqn:E.
  - exists (trace (action w req)), []. split; [symmetry; apply app_nil_r |].
    split; [| left; reflexivity].
    destruct (action_of_answer w req response E) as [_ ->]. apply resolve_no_draft.
  - exists (Derived.lookupCalls w req (ctxSegment ctx)
            ++ Spec.membershipCalls (rules (ctxPlan ctx)) (ctxItems ctx))%list.
    eexists. split; [rewrite (action_trace_inr w req ctx E), <- app_assoc; reflexivity |].
    split.
    + unfold draftIssued. rewrite existsb_app.
      fold (draftIssued (Derived.lookupCalls w req (ctxSegment ctx))).
      fold (draftIssued (Spec.membershipCalls (rules (ctxPlan ctx)) (ctxItems ctx))).
      rewrite lookupCalls_no_draft, membershipCalls_no_draft. reflexivity.
    + destruct (Spec.discountsOf w (rules (ctxPlan ctx)) (ctxItems ctx));
        [left; reflexivity | right; eauto].
Qed.

(** X6. For a cart whose lines name pairwise different products and a plan
    whose rules name pairwise different collections (so that the membership
    of a product in a collection is asked once): the line item sent for a
    cart line has the variant and the quantity of the line. It carries no
    discount exactly when no rule above 0% covers the product of the line; a
    discount it carries is positive, is the percentOff of a rule of the plan
    whose collection holds the product, and no such rule has a greater
    percentOff. *)
Theorem line_items_carry_the_best_percent :
  forall (w : World) (rules : list Rule) (items : list CartItem) (item : CartItem),
    NoDup (map productId items) ->
    NoDup (map categoryId rules) ->
    In item items ->
    liVariantId (lineItemOf (Spec.discountsOf w rules items) item) = variantId item /\
    liQuantity (lineItemOf (Spec.discountsOf w rules items) item) = quantity item /\
    (liAppliedDiscount (lineItemOf (Spec.discountsOf w rules items) item) = None <->
     Spec.qualifies w rules item = false) /\
    (forall p,
        liAppliedDiscount (lineItemOf (Spec.discountsOf w rules items) item) = Some p ->
        (JS.num 0 < p)%Qc /\
        (exists r, In r rules /\ percentOff r = p /\
                   Spec.belongs w (productId item) (categoryId r) = true) /\
        (forall r, In r rules ->
                   Spec.belongs w (productId item) (categoryId r) = true ->
                   (percentOff r <= p)%Qc)).
Proof.
  intros w rules items item _ _ Hitem.
  pose proof (lineItem_expected w rules items item Hitem) as E.
  rewrite E. unfold Derived.expectedLineItem. cbn [liVariantId liQuantity liAppliedDiscount].
  split; [reflexivity |]. split; [reflexivity |].
  rewrite bestDiscountFor_qualifies.
  destruct (bestDiscountFor_invariant w (productId item) rules)
    as [(Hs & _) | (before & best & after & El & Hs & Hb & Hpos & Hbef & Haft)];
    rewrite Hs; cbn [fst snd].
  - split; [split; reflexivity | discriminate].
  - split; [split; discriminate |].
    intros p [= <-]. split; [exact Hpos |]. split.
    + exists best. split; [rewrite El; apply in_app_iff; right; left; reflexivity |].
      split; [reflexivity | exact Hb].
    + intros r Hr Hbel. rewrite El in Hr. apply in_app_iff in Hr.
      destruct Hr as [Hr | [<- | Hr]].
      * specialize (Hbef r Hr Hbel). qc_order.
      * qc_order.
      * apply Haft; assumption.
Qed.

Lemma line_items_carry_the_best_percent_witness :
  liAppliedDiscount
    (lineItemOf
       (Spec.discountsOf (Sample.world Sample.customerVip Sample.inNoCollection)
          (rules Sample.planVip) [Sample.item 50 1])
       (Sample.item 50 1)) = None
  /\ (exists r, In r (rules Sample.planVip) /\ percentOff r = JS.num 15 /\
                Spec.belongs (Sample.world Sample.customerVip Sample.inCollection1)
                  (productId (Sample.item 100 2)) (categoryId r) = true).
Proof.
  split.
  - destruct (line_items_carry_the_best_percent
                (Sample.world Sample.customerVip Sample.inNoCollection)
                (rules Sample.planVip) [Sample.item 50 1]
                (Sample.item 50 1)) as (_ & _ & H & _).
    + apply NoDup_ListNoDup. repeat constructor. intros [].
    + apply NoDup_ListNoDup. repeat constructor. intros [].
    + left. reflexivity.
    + apply H. reflexivity.
  - destruct (line_items_carry_the_best_percent
                (Sample.world Sample.customerVip Sample.inCollection1)
                (rules Sample.planVip) [Sample.item 100 2]
                (Sample.item 100 2)) as (_ & _ & _ & H).
    + apply NoDup_ListNoDup. repeat constructor. intros [].
    + apply NoDup_ListNoDup. repeat constructor. intros [].
    + left. reflexivity.
    + exact (proj1 (proj2 (H (JS.num 15) eq_refl))).
Defined.

(** X7. When some line has a discount, the answer follows the order sink:
    if it returns a draft order, the answer has status 200, the invoice URL
    of that order and a summary with the recorded discounts, their number,
    the number of lines, and as highestDiscountRate the greatest percentOff
    among the discounts; in every other case (the call throws, the answer
    does not parse, carries errors or no order) the answer has status 500. *)
Theorem draft_outcome_decides_the_answer :
  forall (w : World) (req : Request) (ctx : Context) (d : Discount) (ds : list Discount),
    value (resolve w req) = inr ctx ->
    Spec.discountsOf w (rules (ctxPlan ctx)) (ctxItems ctx) = d :: ds ->
    (forall draftOrder,
        orderSink w (formatCustomerId (customerId req))
          (map (lineItemOf (d :: ds)) (ctxItems ctx)) = DraftData (Some draftOrder) ->
        exists summary,
          value (action w req)
          = json (DraftCreatedBody (invoiceUrl draftOrder) summary) /\
          sumApplicableDiscounts summary = d :: ds /\
          itemsWithDiscount summary = length (d :: ds) /\
          totalItems summary = length (ctxItems ctx) /\
          (forall x, In x (d :: ds) -> (dPercentOff x <= highestDiscountRate summary)%Qc) /\
          (exists x, In x (d :: ds) /\ dPercentOff x = highestDiscountRate summary))
    /\
    ((forall draftOrder,
         orderSink w (formatCustomerId (customerId req))
           (map (lineItemOf (d :: ds)) (ctxItems ctx)) <> DraftData (Some draftOrder)) ->
     status (value (action w req)) = 500%Z /\
     exists error, body (value (action w req)) = DraftFailedBody error).
Proof.
  intros w req ctx d ds E D.
  destruct (action_of_context w req ctx E) as [-> _]. rewrite settle_value, D.
  unfold createDraftOrder. cbn [value mbind M_bind mret M_ret emit].
  split.
  - intros draftOrder Hs. rewrite Hs. eexists. split; [reflexivity |].
    unfold summaryOf. cbn [sumApplicableDiscounts itemsWithDiscount totalItems
                           highestDiscountRate].
    rewrite computeDiscounts_value. cbn [applicableDiscounts]. rewrite D.
    split; [reflexivity |]. split; [reflexivity |]. split; [reflexivity |].
    unfold maxPercentOff. split.
    + intros x [<- | Hx]; [apply fold_max_ge_seed |].
      apply fold_max_ge_elem, in_map, Hx.
    + destruct (fold_max_attained (map dPercentOff ds) (dPercentOff d)) as [Ea | Hin].
      * exists d. split; [left; reflexivity | symmetry; exact Ea].
      * apply in_map_iff in Hin. destruct Hin as (x & Ex & Hx).
        exists x. split; [right; exact Hx | exact Ex].
  - intros Hs.
    destruct (orderSink w (formatCustomerId (customerId req))
                (map (lineItemOf (d :: ds)) (ctxItems ctx)))
      as [message | | | | [draftOrder |]] eqn:S;
      try (split; [reflexivity | eexists; reflexivity]).
    exfalso. exact (Hs draftOrder eq_refl).
Qed.

Lemma draft_outcome_decides_the_answer_witness :
  exists summary,
    value (action (Sample.world Sample.customerVip Sample.inCollection1)
             (Sample.request (CartArray [Sample.item 100 2])))
    = json (DraftCreatedBody "https://shop.example/invoice/1" summary) /\
    totalItems summary = 1%nat.
Proof.
  destruct (draft_outcome_decides_the_answer
              (Sample.world Sample.customerVip Sample.inCollection1)
              (Sample.request (CartArray [Sample.item 100 2]))
              (Sample.contextVip [Sample.item 100 2])
              (discountOf (Sample.item 100 2)
                 (Sample.rule "gid://shopify/Collection/1" 15) (JS.num 15))
              [] eq_refl eq_refl) as [H _].
  destruct (H Sample.draft eq_refl) as (summary & Hv & _ & _ & Ht & _).
  exists summary. split; [exact Hv | exact Ht].
Defined.

End OrderResponses.

(** * Further properties of the lookups *)

Section Lookups.

Import Order.

(** [find] returns the first element that passes the test. *)
Lemma find_first {A} (f : A -> bool) (l : list A) (x : A) :
  List.find f l = Some x <->
  exists l1 l2, l = (l1 ++ x :: l2)%list /\ f x = true /\ forall y, In y l1 -> f y = false.
Proof.
  induction l as [| a l IH]; simpl.
  - split; [discriminate |]. intros (l1 & l2 & E & _). destruct l1; discriminate.
  - destruct (f a) eqn:Fa.
    + split.
      * intros [= <-]. exists [], l. split; [reflexivity |]. split; [exact Fa |].
        intros y [].
      * intros (l1 & l2 & E & Fx & Hl1). destruct l1 as [| b l1].
        -- injection E as -> _. reflexivity.
        -- injection E as -> _. rewrite (Hl1 b (or_introl eq_refl)) in Fa. discriminate.
    + rewrite IH. split.
      * intros (l1 & l2 & -> & Fx & Hl1). exists (a :: l1), l2.
        split; [reflexivity |]. split; [exact Fx |].
        intros y [<- | Hy]; [exact Fa | apply Hl1, Hy].
      * intros (l1 & l2 & E & Fx & Hl1). destruct l1 as [| b l1].
        -- injection E as <- _. congruence.
        -- injection E as <- ->. exists l1, l2. split; [reflexivity |].
           split; [exact Fx |]. intros y Hy. apply Hl1. right. exact Hy.
Qed.

Lemma existsb_eqb_In (x : string) (l : list string) :
  existsb (String.eqb x) l = true <-> In x l.
Proof.
  rewrite existsb_exists. split.
  - intros (y & Hy & E). apply String.eqb_eq in E. subst y. exact Hy.
  - intros H. exists x. split; [exact H | apply String.eqb_refl].
Qed.

Lemma existsb_eqb_not_In (x : string) (l : list string) :
  existsb (String.eqb x) l = false <-> ~ In x l.
Proof.
  rewrite <- existsb_eqb_In. destruct (existsb (String.eqb x) l); split; congruence.
Qed.

(** X8. The order path matches the first segment, in the order of the
    catalog, whose name is one of the customer's tags verbatim; when no
    segment name is a tag it matches nothing; and the order of the tags does
    not matter. *)
Theorem first_segment_of_the_catalog_wins :
  forall (segments : list Segment) (tags : list string),
    (forall segment,
        Matcher.matchSegment segments tags = Some segment <->
        exists before after,
          segments = (before ++ segment :: after)%list /\
          In (segmentName segment) tags /\
          forall s, In s before -> ~ In (segmentName s) tags)
    /\ (Matcher.matchSegment segments tags = None <->
        forall s, In s segments -> ~ In (segmentName s) tags)
    /\ (forall tags', Permutation tags tags' ->
          Matcher.matchSegment segments tags = Matcher.matchSegment segments tags').
Proof.
  intros segments tags. split; [| split].
  - intros segment. unfold Matcher.matchSegment. rewrite find_first.
    split; intros (before & after & E & Hx & Hb); exists before, after;
      (split; [exact E |]).
    + split; [apply existsb_eqb_In, Hx |].
      intros s Hs. apply existsb_eqb_not_In, Hb, Hs.
    + split; [apply existsb_eqb_In, Hx |].
      intros s Hs. apply existsb_eqb_not_In, Hb, Hs.
  - unfold Matcher.matchSegment. split.
    + intros H s Hs. apply existsb_eqb_not_In. exact (find_none _ _ H s Hs).
    + intros H. destruct (List.find _ segments) as [s |] eqn:F; [| reflexivity].
      apply find_some in F. destruct F as [Hs Hx]. apply existsb_eqb_In in Hx.
      exfalso. exact (H s Hs Hx).
  - intros tags' P. unfold Matcher.matchSegment.
    induction segments as [| s segments IH]; [reflexivity |].
    cbn [List.find].
    assert (Ex : existsb (String.eqb (segmentName s)) tags
                 = existsb (String.eqb (segmentName s)) tags').
    { destruct (existsb (String.eqb (segmentName s)) tags) eqn:X; symmetry.
      - apply existsb_eqb_In. apply existsb_eqb_In in X. exact (Permutation_in _ P X).
      - apply existsb_eqb_not_In. apply existsb_eqb_not_In in X.
        intros H. apply X. exact (Permutation_in _ (Permutation_sym P) H). }
    rewrite Ex, IH. reflexivity.
Qed.

Lemma first_segment_of_the_catalog_wins_witness :
  Matcher.matchSegment
    [mkSegment "s1" "Gold"; mkSegment "s2" "VIP"; mkSegment "s3" "Wholesale"]
    ["Wholesale"; "VIP"]
  = Matcher.matchSegment
      [mkSegment "s1" "Gold"; mkSegment "s2" "VIP"; mkSegment "s3" "Wholesale"]
      ["VIP"; "Wholesale"]
  /\ Matcher.matchSegment
       [mkSegment "s1" "Gold"; mkSegment "s2" "VIP"; mkSegment "s3" "Wholesale"]
       ["Wholesale"; "VIP"]
     = Some (mkSegment "s2" "VIP")
  /\ Matcher.matchSegment [mkSegment "s1" "Gold"] ["VIP"] = None.
Proof.
  split; [| split].
  - apply (first_segment_of_the_catalog_wins
             [mkSegment "s1" "Gold"; mkSegment "s2" "VIP"; mkSegment "s3" "Wholesale"]
             ["Wholesale"; "VIP"]).
    apply perm_swap.
  - apply (first_segment_of_the_catalog_wins
             [mkSegment "s1" "Gold"; mkSegment "s2" "VIP"; mkSegment "s3" "Wholesale"]
             ["Wholesale"; "VIP"]).
    exists [mkSegment "s1" "Gold"], [mkSegment "s3" "Wholesale"].
    split; [reflexivity |]. split; [right; left; reflexivity |].
    intros s [<- | []] [H | [H | []]]; discriminate.
  - apply (first_segment_of_the_catalog_wins [mkSegment "s1" "Gold"] ["VIP"]).
    intros s [<- | []] [H | []]. discriminate.
Defined.

(** X9. The plan of a segment is the first plan of the store keyed by the
    segment id and, only when there is none, the first one keyed by the
    segment name. A plan keyed by the id hides the plans keyed by the name
    even when it has no rule: a well-formed request is then answered with
    "no discount plan", after a single plan lookup and the listing of all
    plans. *)
Theorem plan_by_id_hides_plan_by_name :
  forall (w : World) (segment : Segment),
    (forall plan,
        PlanStore.findFirst (planStore w) (segmentId segment) = Some plan ->
        findPlanFor w segment = mkM (Some plan) [PlanFindFirst (segmentId segment)])
    /\
    (PlanStore.findFirst (planStore w) (segmentId segment) = None ->
     findPlanFor w segment
     = mkM (PlanStore.findFirst (planStore w) (segmentName segment))
         [PlanFindFirst (segmentId segment); PlanFindFirst (segmentName segment)])
    /\
    (forall req token customerData segments plan,
        Derived.malformed req = false ->
        sessions w (shop req) = Some token ->
        value (fetchCustomerData w (customerId req)) = Some customerData ->
        value (fetchSegments w) = Some segments ->
        Matcher.matchSegment segments (customerTags customerData) = Some segment ->
        PlanStore.findFirst (planStore w) (segmentId segment) = Some plan ->
        rules plan = [] ->
        action w req
        = mkM (json NoPlanBody)
            [SessionLookup (shop req);
             FetchCustomer (formatCustomerId (customerId req));
             FetchSegments;
             PlanFindFirst (segmentId segment);
             PlanFindMany]).
Proof.
  intros w segment. split; [| split].
  - intros plan H. unfold findPlanFor, findFirstPlan.
    cbn [value mbind M_bind mret M_ret emit]. rewrite H. reflexivity.
  - intros H. unfold findPlanFor, findFirstPlan.
    cbn [value mbind M_bind mret M_ret emit]. rewrite H. reflexivity.
  - intros req token customerData segments plan Hmal Hs Hc Hseg Hm Hf Hr.
    destruct (wellformed_cart req Hmal) as (Hshop & Hcust & item & items & Hcart).
    unfold action.
    rewrite (resolve_wellformed w req item items Hshop Hcust Hcart).
    rewrite Hs, Hc, Hseg, Hm, findPlanFor_value, Hf, Hr.
    unfold Derived.lookupCalls. rewrite Hf. reflexivity.
Qed.

Lemma plan_by_id_hides_plan_by_name_witness :
  action Sample.worldShadowed (Sample.request (CartArray [Sample.item 100 2]))
  = mkM (json NoPlanBody)
      [SessionLookup "shop.example";
       FetchCustomer "gid://shopify/Customer/9";
       FetchSegments;
       PlanFindFirst "gid://shopify/Segment/1";
       PlanFindMany]
  /\ PlanStore.findFirst (planStore Sample.worldShadowed) "VIP"
     = Some (Sample.plan "by-name" "VIP" [Sample.rule "gid://shopify/Collection/1" 15]).
Proof.
  split; [| reflexivity].
  destruct (plan_by_id_hides_plan_by_name Sample.worldShadowed Sample.segmentVip)
    as (_ & _ & H).
  apply (H (Sample.request (CartArray [Sample.item 100 2])) "token"
           {| customerGid := "gid://shopify/Customer/9"; customerTags := ["VIP"] |}
           [Sample.segmentVip]
           (Sample.plan "by-id" "gid://shopify/Segment/1" []));
    reflexivity.
Defined.

End Lookups.

(** * Further properties of the amounts *)

Section Amounts.

Import Order.

Lemma zero_is_zero : JS.num 0 = Q2Qc 0.
Proof. reflexivity. Qed.




Lemma div_le_one (a b : JS.number) :
  (a <= b)%Qc -> (JS.num 0 < b)%Qc -> (a / b <= 1)%Qc.
Proof.
  intros Ha Hb. apply (Qcmult_lt_0_le_reg_r _ _ b Hb).
  assert (Hn : b <> Q2Qc 0).
  { intros E. rewrite E in Hb. vm_compute in Hb. discriminate Hb. }
  rewrite (test_field a b Hn).
  replace (1 * b)%Qc with b by ring. exact Ha.
Qed.

Lemma minus_nonneg (a b : JS.number) : (a <= b)%Qc -> (JS.num 0 <= b - a)%Qc.
Proof. intros H. apply Qcle_minus_iff in H. exact H. Qed.










End Amounts.

(** * Further properties of the rules of a plan *)

Section RuleOrder.

Import Order.

(** The best percentOff of a product is bounded below by every covering rule. *)
Lemma best_percent_upper_bound (w : World) (pid : string) (rules : list Rule) (r : Rule) :
  In r rules -> Spec.belongs w pid (categoryId r) = true ->
  (percentOff r <= snd (value (bestDiscountFor w pid rules)))%Qc.
Proof.
  intros Hr Hbel.
  destruct (bestDiscountFor_invariant w pid rules)
    as [(Hs & Hall) | (before & best & after & El & Hs & Hb & Hpos & Hbef & Haft)];
    rewrite Hs; cbn [snd].
  - apply Hall; assumption.
  - rewrite El in Hr. apply in_app_iff in Hr. destruct Hr as [Hr | [<- | Hr]].
    + apply Qclt_le_weak, Hbef; assumption.
    + apply Qcle_refl.
    + apply Haft; assumption.
Qed.

Lemma best_percent_perm (w : World) (pid : string) (rules rules' : list Rule) :
  Permutation rules rules' ->
  snd (value (bestDiscountFor w pid rules)) = snd (value (bestDiscountFor w pid rules'))
  /\ (fst (value (bestDiscountFor w pid rules)) = None <->
      fst (value (bestDiscountFor w pid rules')) = None).
Proof.
  intros P.
  pose proof (fun r Hr => best_percent_upper_bound w pid rules r
                            (Permutation_in _ (Permutation_sym P) Hr)) as U.
  pose proof (fun r Hr => best_percent_upper_bound w pid rules' r
                            (Permutation_in _ P Hr)) as U'.
  destruct (bestDiscountFor_invariant w pid rules)
    as [(Hs & Hall) | (before & best & after & El & Hs & Hb & Hpos & _)];
  destruct (bestDiscountFor_invariant w pid rules')
    as [(Hs' & Hall') | (before' & best' & after' & El' & Hs' & Hb' & Hpos' & _)];
    rewrite Hs, Hs' in *; cbn [fst snd] in *.
  - split; [reflexivity | tauto].
  - exfalso. assert (Hin : In best' rules')
      by (rewrite El'; apply in_app_iff; right; left; reflexivity).
    specialize (U best' Hin Hb'). qc_order.
  - exfalso. assert (Hin : In best rules)
      by (rewrite El; apply in_app_iff; right; left; reflexivity).
    specialize (U' best Hin Hb). qc_order.
  - split; [| split; discriminate].
    assert (Hin : In best rules)
      by (rewrite El; apply in_app_iff; right; left; reflexivity).
    assert (Hin' : In best' rules')
      by (rewrite El'; apply in_app_iff; right; left; reflexivity).
    apply Qcle_antisym; [apply U', Hb; exact Hin | apply U, Hb'; exact Hin'].
Qed.

Lemma qualifies_perm (w : World) (rules rules' : list Rule) (item : CartItem) :
  Permutation rules rules' ->
  Spec.qualifies w rules item = Spec.qualifies w rules' item.
Proof.
  intros P. rewrite !bestDiscountFor_qualifies.
  destruct (best_percent_perm w (productId item) rules rules' P) as [_ H].
  destruct (fst (value (bestDiscountFor w (productId item) rules)));
    destruct (fst (value (bestDiscountFor w (productId item) rules')));
    try reflexivity.
  - destruct H as [_ H]. discriminate (H eq_refl).
  - destruct H as [H _]. discriminate (H eq_refl).
Qed.

Lemma discountsOf_perm (w : World) (rules rules' : list Rule) (items : list CartItem) :
  Permutation rules rules' ->
  Forall2 Derived.sameAmounts
    (Spec.discountsOf w rules items) (Spec.discountsOf w rules' items).
Proof.
  intros P. induction items as [| item items IH]; [constructor |].
  rewrite (discountsOf_cons w rules), (discountsOf_cons w rules').
  apply Forall2_app; [| exact IH].
  unfold Spec.discountsOf. cbn [flat_map]. rewrite !app_nil_r.
  destruct (best_percent_perm w (productId item) rules rules' P) as [Hp Hn].
  destruct (value (bestDiscountFor w (productId item) rules)) as [[b |] p];
    destruct (value (bestDiscountFor w (productId item) rules')) as [[b' |] p'];
    cbn [fst snd] in *.
  - subst p'. constructor; [| constructor].
    unfold Derived.sameAmounts, discountOf.
    cbn [dProductId dPercentOff dOriginalPrice dDiscountedPrice dDiscountAmount].
    repeat split; reflexivity.
  - destruct Hn as [_ Hn]. discriminate (Hn eq_refl).
  - destruct Hn as [Hn _]. discriminate (Hn eq_refl).
  - constructor.
Qed.

Lemma sum_sameAmounts (ds ds' : list Discount) :
  Forall2 Derived.sameAmounts ds ds' ->
  Spec.sum (map dDiscountAmount ds) = Spec.sum (map dDiscountAmount ds').
Proof.
  induction 1 as [| d d' ds ds' (_ & _ & _ & _ & Ha) _ IH]; [reflexivity |].
  cbn [map Spec.sum]. rewrite Ha, IH. reflexivity.
Qed.

(** X11. The order of the rules of the plan does not change what a customer
    pays: for two rule lists that are permutations of one another the
    calculator records discounts for the same lines with the same
    percentOff and amounts (only the collection named with a discount can
    differ, when two collections tie), the same totals and savings
    percentage, and the same line items are sent to the order sink. *)
Theorem rule_order_does_not_change_amounts :
  forall (w : World) (rules rules' : list Rule) (items : list CartItem),
    Permutation rules rules' ->
    let totals := value (computeDiscounts w rules items) in
    let totals' := value (computeDiscounts w rules' items) in
    Forall2 Derived.sameAmounts (applicableDiscounts totals) (applicableDiscounts totals')
    /\ totalOriginalPrice totals = totalOriginalPrice totals'
    /\ totalDiscountAmount totals = totalDiscountAmount totals'
    /\ savingsPercentage totals = savingsPercentage totals'
    /\ map (lineItemOf (applicableDiscounts totals)) items
       = map (lineItemOf (applicableDiscounts totals')) items.
Proof.
  intros w rules rules' items P totals totals'. subst totals totals'.
  rewrite !computeDiscounts_value.
  cbn [applicableDiscounts totalOriginalPrice totalDiscountAmount].
  pose proof (discountsOf_perm w rules rules' items P) as F.
  pose proof (sum_sameAmounts _ _ F) as S.
  split; [exact F |]. split; [reflexivity |]. split; [exact S |]. split.
  - unfold savingsPercentage. cbn [totalOriginalPrice totalDiscountAmount].
    rewrite S. reflexivity.
  - apply map_ext_in. intros item Hitem.
    rewrite !(lineItem_expected _ _ items item Hitem).
    unfold Derived.expectedLineItem.
    rewrite (qualifies_perm w rules rules' item P).
    destruct (best_percent_perm w (productId item) rules rules' P) as [-> _].
    reflexivity.
Qed.

Lemma rule_order_does_not_change_amounts_witness :
  totalDiscountAmount
    (value (computeDiscounts (Sample.world Sample.customerVip Sample.inCollection1)
              [Sample.rule "gid://shopify/Collection/1" 15;
               Sample.rule "gid://shopify/Collection/2" 30]
              [Sample.item 100 2]))
  = totalDiscountAmount
      (value (computeDiscounts (Sample.world Sample.customerVip Sample.inCollection1)
                [Sample.rule "gid://shopify/Collection/2" 30;
                 Sample.rule "gid://shopify/Collection/1" 15]
                [Sample.item 100 2])).
Proof.
  destruct (rule_order_does_not_change_amounts
              (Sample.world Sample.customerVip Sample.inCollection1)
              [Sample.rule "gid://shopify/Collection/1" 15;
               Sample.rule "gid://shopify/Collection/2" 30]
              [Sample.rule "gid://shopify/Collection/2" 30;
               Sample.rule "gid://shopify/Collection/1" 15]
              [Sample.item 100 2]) as (_ & _ & H & _).
  - apply perm_swap.
  - exact H.
Defined.


(** X12. The order path and the offer path agree on the rate of a product.
    For a plan whose rules name pairwise different collections, none of them
    after a member of [Object.prototype] (so that each collection is checked
    once for the product and every rule is kept by the resolver): the
    percentOff applied to a cart line is the one the rule resolver gives to
    the collection recorded with the discount, and the resolver gives no
    collection that holds the product a higher percentOff. *)
Theorem applied_rate_is_the_resolved_rate :
  forall (w : World) (rules : list Rule) (pid : string),
    NoDup (map categoryId rules) ->
    Forall (fun r => Resolver.isPrototypeMember (categoryId r) = false) rules ->
    (forall r, fst (value (bestDiscountFor w pid rules)) = Some r ->
       Resolver.get (categoryId r) (Resolver.resolveRules rules)
       = Some (snd (value (bestDiscountFor w pid rules)))) /\
    (forall k v, Spec.belongs w pid k = true ->
       Resolver.get k (Resolver.resolveRules rules) = Some v ->
       (v <= snd (value (bestDiscountFor w pid rules)))%Qc).
Proof.
  intros w rules pid _ Hproto.
  assert (Hub : forall k v, Spec.belongs w pid k = true ->
            Resolver.get k (Resolver.resolveRules rules) = Some v ->
            (v <= snd (value (bestDiscountFor w pid rules)))%Qc).
  { intros k v Hbel G. rewrite get_resolveRules in G.
    destruct (Resolver.isPrototypeMember k); [discriminate G |].
    apply maxPercentFor_Some in G. destruct G as [(r & Hr & Hk & <-) _].
    apply best_percent_upper_bound; [exact Hr | rewrite Hk; exact Hbel]. }
  split; [| exact Hub].
  intros r Hr.
  destruct (bestDiscountFor_invariant w pid rules)
    as [(Hs & _) | (before & best & after & El & Hs & Hb & _)];
    rewrite Hs in Hr |- *; cbn [fst snd] in *; [discriminate |].
  injection Hr as <-.
  assert (Hin : In best rules)
    by (rewrite El; apply in_app_iff; right; left; reflexivity).
  pose proof (proj1 (List.Forall_forall _ _) Hproto best Hin) as Hp. cbn beta in Hp.
  destruct (Resolver.get (categoryId best) (Resolver.resolveRules rules)) as [v |] eqn:G.
  - f_equal. apply Qcle_antisym.
    + specialize (Hub _ _ Hb G). rewrite Hs in Hub. exact Hub.
    + rewrite get_resolveRules, Hp in G. apply maxPercentFor_Some in G.
      destruct G as [_ G]. apply G; [exact Hin | reflexivity].
  - rewrite get_resolveRules, Hp in G.
    exfalso. exact (maxPercentFor_None _ _ G best Hin eq_refl).
Qed.

End RuleOrder.

(** * Further properties of the offer path *)

Section OfferPath.

Import Offer.

Lemma orElse_In (a b : list DiscountPlan) (p : DiscountPlan) :
  In p (Matcher.orElse a b) -> In p a \/ In p b.
Proof. unfold Matcher.orElse. destruct a; simpl; auto. Qed.

Lemma orElse_of_nonempty (a b : list DiscountPlan) :
  a <> [] -> Matcher.orElse a b = a.
Proof. destruct a; [congruence | reflexivity]. Qed.

Lemma containsMatch_iff (store : list DiscountPlan) (customerTags : list string)
  (p : DiscountPlan) :
  In p (Matcher.containsMatch store customerTags) <->
  In p store /\ targetType p = "segment" /\
  exists tag, In tag customerTags /\
              JS.includes (JS.toLowerCase (targetKey p)) tag = true.
Proof.
  unfold Matcher.containsMatch, PlanStore.findManySegment.
  rewrite !filter_In, isSegmentPlan_true, existsb_exists. tauto.
Qed.

Lemma findCandidatePlans_segment (store : list DiscountPlan) (tags : list string)
  (p : DiscountPlan) :
  In p (Matcher.findCandidatePlans store tags) ->
  In p store /\ targetType p = "segment".
Proof.
  unfold Matcher.findCandidatePlans, Matcher.exactMatch, Matcher.gidMatch,
    Matcher.upperCaseMatch, Matcher.capitalizedMatch.
  intros H.
  repeat (apply orElse_In in H; destruct H as [H | H]);
    try (apply findManyIn_In in H; tauto).
  apply containsMatch_iff in H. tauto.
Qed.

(** X13. The candidates of the offer path are segment plans of the store.
    A strategy of the cascade is consulted only while the earlier ones found
    nothing: when the exact strategy finds plans, they are the candidates.
    Without tags there is no candidate. When the four equality strategies
    find nothing, the candidates are exactly the segment plans whose
    lowercased key contains a lowercased tag as a substring. *)
Theorem cascade_candidates :
  forall (store : list DiscountPlan) (tags : list string),
    (forall p, In p (Matcher.findCandidatePlans store tags) ->
               In p store /\ targetType p = "segment")
    /\ (Matcher.exactMatch store (map JS.toLowerCase tags) <> [] ->
        Matcher.findCandidatePlans store tags
        = Matcher.exactMatch store (map JS.toLowerCase tags))
    /\ (tags = [] -> Matcher.findCandidatePlans store tags = [])
    /\ (Matcher.exactMatch store (map JS.toLowerCase tags) = [] ->
        Matcher.gidMatch store (map JS.toLowerCase tags) = [] ->
        Matcher.upperCaseMatch store (map JS.toLowerCase tags) = [] ->
        Matcher.capitalizedMatch store (map JS.toLowerCase tags) = [] ->
        forall p,
          In p (Matcher.findCandidatePlans store tags) <->
          In p store /\ targetType p = "segment" /\
          exists tag, In tag tags /\
            JS.includes (JS.toLowerCase (targetKey p)) (JS.toLowerCase tag) = true).
Proof.
  intros store tags. split; [apply findCandidatePlans_segment |]. split; [| split].
  - intros H. unfold Matcher.findCandidatePlans.
    rewrite !(orElse_of_nonempty _ _ H). reflexivity.
  - intros ->. unfold Matcher.findCandidatePlans, Matcher.exactMatch, Matcher.gidMatch,
      Matcher.upperCaseMatch, Matcher.capitalizedMatch, Matcher.containsMatch,
      PlanStore.findManyIn. cbn [map existsb].
    assert (F : forall (f : DiscountPlan -> bool) l,
               List.filter (fun plan => f plan && false) l = []).
    { intros f l. induction l as [| x l IH]; [reflexivity |].
      cbn [List.filter]. rewrite andb_false_r. exact IH. }
    rewrite F. cbn [Matcher.orElse Matcher.isEmpty].
    induction (PlanStore.findManySegment store) as [| x l IH]; [reflexivity | exact IH].
  - intros H1 H2 H3 H4 p. unfold Matcher.findCandidatePlans.
    rewrite H1. cbn [Matcher.orElse Matcher.isEmpty].
    rewrite H2. cbn [Matcher.orElse Matcher.isEmpty].
    rewrite H3. cbn [Matcher.orElse Matcher.isEmpty].
    rewrite H4. cbn [Matcher.orElse Matcher.isEmpty].
    rewrite containsMatch_iff. split.
    + intros (Hs & Ht & tag & Htag & Hinc). apply in_map_iff in Htag.
      destruct Htag as (tag0 & <- & Htag0). eauto 6.
    + intros (Hs & Ht & tag & Htag & Hinc). split; [exact Hs |]. split; [exact Ht |].
      exists (JS.toLowerCase tag). split; [apply in_map, Htag | exact Hinc].
Qed.

Lemma cascade_candidates_witness :
  In (Sample.plan "gold" "gid://shopify/Segment/77" [Sample.rule "c1" 10])
     (Matcher.findCandidatePlans
        [Sample.plan "gold" "gid://shopify/Segment/77" [Sample.rule "c1" 10]]
        ["Shopify"])
  /\ Matcher.findCandidatePlans
       [Sample.plan "gold" "gid://shopify/Segment/77" [Sample.rule "c1" 10]] [] = [].
Proof.
  destruct (cascade_candidates
              [Sample.plan "gold" "gid://shopify/Segment/77" [Sample.rule "c1" 10]]
              ["Shopify"]) as (_ & _ & _ & H).
  destruct (cascade_candidates
              [Sample.plan "gold" "gid://shopify/Segment/77" [Sample.rule "c1" 10]]
              []) as (_ & _ & H0 & _).
  split; [| exact (H0 eq_refl)].
  apply (H eq_refl eq_refl eq_refl eq_refl).
  split; [left; reflexivity |]. split; [reflexivity |].
  exists "Shopify". split; [left; reflexivity | reflexivity].
Defined.

Lemma placeholder_nonempty (x : string) : "Collection " ++ x <> "".
Proof. discriminate. Qed.

Lemma strOr_nonempty (x d : string) : d <> "" -> strOr x d <> "".
Proof. intros H. destruct x; [exact H | discriminate]. Qed.


Lemma fallbackCollections_describes (ruleMap : Resolver.RuleMap) :
  Forall2 (Derived.describes ruleMap) (Resolver.Object_keys ruleMap)
    (fallbackCollections ruleMap).
Proof.
  apply Forall2_map_r. intros k _. unfold Derived.describes, fallbackCollection.
  cbn [colId colPercentOff colName colTitle].
  repeat split. apply placeholder_nonempty.
Qed.

Lemma collectionsWithData_describes (ruleMap : Resolver.RuleMap)
  (nodes : list (option Node)) :
  Forall2 (Derived.describes ruleMap) (Resolver.Object_keys ruleMap)
    (collectionsWithData ruleMap nodes).
Proof.
  apply Forall2_map_r. intros k _. unfold Derived.describes.
  cbn [colId colPercentOff colName colTitle].
  repeat split.
  destruct (match collectionMapOf nodes !! numericIdOf k with
            | Some n => Some n
            | None => collectionMapOf nodes !! k
            end) as [n |].
  - apply strOr_nonempty, placeholder_nonempty.
  - apply placeholder_nonempty.
Qed.

Lemma collections_describe (h : Handler) (w : World) (storeUrl : string)
  (ruleMap : Resolver.RuleMap) :
  Forall2 (Derived.describes ruleMap) (Resolver.Object_keys ruleMap)
    match h with
    | Action => actionCollections w storeUrl ruleMap
    | Loader => loaderCollections w ruleMap
    end.
Proof.
  destruct h; unfold actionCollections, loaderCollections, collectionsOfOutcome;
    destruct (adminSession w) as [[| | nodes] |]; try destruct storeUrl;
    first [apply fallbackCollections_describes | apply collectionsWithData_describes].
Qed.

(** X14. The collection metadata decides the title and the handle of a
    collection and nothing else: whatever the admin call and the storefront
    answer, both handlers report one collection per key of the rule map, in
    the order of the keys, each with the numeric id of its key, the
    percentOff the map gives to the key, a name equal to the title and a
    title that is not empty. *)
Theorem metadata_only_names_collections :
  forall (w : World) (storeUrl : string) (ruleMap : Resolver.RuleMap),
    Forall2 (Derived.describes ruleMap) (Resolver.Object_keys ruleMap)
      (actionCollections w storeUrl ruleMap)
    /\ Forall2 (Derived.describes ruleMap) (Resolver.Object_keys ruleMap)
         (loaderCollections w ruleMap).
Proof.
  intros w storeUrl ruleMap. split.
  - exact (collections_describe Action w storeUrl ruleMap).
  - exact (collections_describe Loader w storeUrl ruleMap).
Qed.

End OfferPath.

Section OfferCoherence.

Import Offer.

Lemma selectBestPlan_Some (discountPlans : list DiscountPlan) (bestPlan : DiscountPlan)
  (bestPlanMaxPercent : JS.number) :
  Selector.selectBestPlan discountPlans = Some (bestPlan, bestPlanMaxPercent) ->
  In bestPlan discountPlans /\
  bestPlanMaxPercent = Selector.planMax bestPlan /\
  (JS.num 0 < bestPlanMaxPercent)%Qc /\
  rules bestPlan <> [].
Proof.
  unfold Selector.selectBestPlan.
  destruct (scan_invariant discountPlans)
    as [(Hb & _) | (before & best & after & E & Hs & Hpos & _)].
  - destruct (Selector.scan discountPlans) as [b m]. cbn [fst] in Hb. subst b.
    discriminate.
  - rewrite Hs. destruct (rules best) as [| r rs] eqn:R; [discriminate |].
    intros [= <- <-]. split; [rewrite E; apply in_app_iff; right; left; reflexivity |].
    split; [reflexivity |]. split; [exact Hpos |]. rewrite R. discriminate.
Qed.

Lemma planMax_ge_rule (plan : DiscountPlan) (r : Rule) :
  In r (rules plan) -> (percentOff r <= Selector.planMax plan)%Qc.
Proof.
  intros H. unfold Selector.planMax. rewrite fold_max_percentOff.
  apply fold_max_ge_elem, in_map, H.
Qed.

Lemma planMax_attained (plan : DiscountPlan) :
  (JS.num 0 < Selector.planMax plan)%Qc ->
  exists r, In r (rules plan) /\ percentOff r = Selector.planMax plan.
Proof.
  unfold Selector.planMax. rewrite fold_max_percentOff. intros Hpos.
  destruct (fold_max_attained (map percentOff (rules plan)) (JS.num 0)) as [E | Hin].
  - rewrite E in Hpos. exfalso. qc_order.
  - apply in_map_iff in Hin. destruct Hin as (r & Er & Hr). exists r. auto.
Qed.

(** The rule map of a plan: one key for each category of its rules, with a
    percentOff that no rule of the plan exceeds. *)
Lemma resolveRules_of_rule (rs : list Rule) (r : Rule) :
  In r rs -> Resolver.isPrototypeMember (categoryId r) = false ->
  exists v, Resolver.get (categoryId r) (Resolver.resolveRules rs) = Some v /\
            (percentOff r <= v)%Qc.
Proof.
  intros Hr Hp. rewrite get_resolveRules, Hp.
  destruct (Spec.maxPercentFor (categoryId r) rs) as [v |] eqn:E.
  - exists v. split; [reflexivity |]. apply maxPercentFor_Some in E.
    destruct E as [_ E]. apply E; [exact Hr | reflexivity].
  - exfalso. exact (maxPercentFor_None _ _ E r Hr eq_refl).
Qed.

Lemma resolveRules_value (rs : list Rule) (k : string) (v : JS.number) :
  Resolver.get k (Resolver.resolveRules rs) = Some v ->
  exists r, In r rs /\ categoryId r = k /\ percentOff r = v.
Proof.
  rewrite get_resolveRules. destruct (Resolver.isPrototypeMember k); [discriminate |].
  intros E. apply maxPercentFor_Some in E. tauto.
Qed.

(** With rules that are all kept, some key of the resolved object carries
    the greatest percentOff of the plan. *)
Lemma resolved_top (plan : DiscountPlan) :
  (JS.num 0 < Selector.planMax plan)%Qc ->
  Derived.plainCategories (rules plan) ->
  exists k, In k (Resolver.Object_keys (Resolver.resolveRules (rules plan))) /\
            Resolver.get k (Resolver.resolveRules (rules plan))
            = Some (Selector.planMax plan).
Proof.
  intros Hpos Hplain.
  destruct (planMax_attained plan Hpos) as (top & Htop & Etop).
  destruct (resolveRules_of_rule _ _ Htop
              (proj1 (List.Forall_forall _ _) Hplain top Htop)) as (v & G & Hle).
  exists (categoryId top). split; [exact (get_Some_keys _ _ _ G) |].
  rewrite G. f_equal. apply Qcle_antisym; [| rewrite <- Etop; exact Hle].
  destruct (resolveRules_value _ _ _ G) as (r & Hr & _ & <-).
  apply planMax_ge_rule, Hr.
Qed.

Lemma Forall2_In_r {A B} (R : A -> B -> Prop) (l : list A) (l' : list B) (b : B) :
  Forall2 R l l' -> In b l' -> exists a, In a l /\ R a b.
Proof.
  induction 1 as [| x y l l' Hxy _ IH]; intros Hin; [destruct Hin |].
  destruct Hin as [<- | Hin].
  - exists x. split; [left; reflexivity | exact Hxy].
  - destruct (IH Hin) as (a & Ha & Hab). exists a. split; [right; exact Ha | exact Hab].
Qed.

Lemma Forall2_In_l {A B} (R : A -> B -> Prop) (l : list A) (l' : list B) (a : A) :
  Forall2 R l l' -> In a l -> exists b, In b l' /\ R a b.
Proof.
  induction 1 as [| x y l l' Hxy _ IH]; intros Hin; [destruct Hin |].
  destruct Hin as [<- | Hin].
  - exists y. split; [left; reflexivity | exact Hxy].
  - destruct (IH Hin) as (b & Hb & Hab). exists b. split; [right; exact Hb | exact Hab].
Qed.

(** X15. An offer is coherent, whatever the metadata. When either handler
    answers with discountApplicable true, the offer names a segment plan of
    the store that has rules; its highestDiscountRate is positive and is
    the greatest percentOff of the rules of that plan; every listed
    collection has a percentOff, which is the percentOff of a rule of the
    plan and at most the highestDiscountRate. When no rule of the plan names
    its collection after a member of [Object.prototype], the offer lists at
    least one collection and some listed collection has exactly the
    highestDiscountRate. *)
Theorem offer_is_coherent :
  forall (h : Handler) (w : World) (req : Request) (offer : OfferData),
    handle h w req = Success (Applicable offer) ->
    exists bestPlan,
      In bestPlan (planStore w) /\ targetType bestPlan = "segment" /\
      rules bestPlan <> [] /\
      offerPlanName offer = planName bestPlan /\
      highestDiscountRate offer = Spec.planMax bestPlan /\
      (JS.num 0 < highestDiscountRate offer)%Qc /\
      (forall c, In c (offerCollections offer) ->
         exists r, In r (rules bestPlan) /\
                   colPercentOff c = Some (percentOff r) /\
                   (percentOff r <= highestDiscountRate offer)%Qc) /\
      (Derived.plainCategories (rules bestPlan) ->
       offerCollections offer <> [] /\
       exists c, In c (offerCollections offer) /\
                 colPercentOff c = Some (highestDiscountRate offer)).
Proof.
  intros h w req offer H. unfold handle in H.
  destruct req as [| | [[| c0 customerId] |] [tags |] storeUrl]; try discriminate H.
  destruct (Matcher.isEmpty (Matcher.findCandidatePlans (planStore w) tags));
    [discriminate H |].
  destruct (Selector.selectBestPlan (Matcher.findCandidatePlans (planStore w) tags))
    as [[bestPlan m] |] eqn:Hsel; [| discriminate H].
  injection H as <-.
  cbn [offerPlanName highestDiscountRate offerCollections].
  destruct (selectBestPlan_Some _ _ _ Hsel) as (Hin & -> & Hpos & Hrules).
  destruct (findCandidatePlans_segment _ _ _ Hin) as [Hstore Htype].
  pose proof (collections_describe h w storeUrl (Resolver.resolveRules (rules bestPlan)))
    as D.
  exists bestPlan.
  split; [exact Hstore |]. split; [exact Htype |]. split; [exact Hrules |].
  split; [reflexivity |].
  split; [exact (proj1 (planMax_positive bestPlan Hpos)) |]. split; [exact Hpos |].
  split.
  - intros c Hc. destruct (Forall2_In_r _ _ _ _ D Hc) as (k & Hk & _ & Hp' & _).
    destruct (keys_get_Some _ _ Hk) as (v & G). rewrite G in Hp'.
    destruct (resolveRules_value _ _ _ G) as (r & Hr & _ & <-).
    exists r. split; [exact Hr |]. split; [exact Hp' | apply planMax_ge_rule, Hr].
  - intros Hplain.
    destruct (resolved_top bestPlan Hpos Hplain) as (k & Hk & G).
    destruct (Forall2_In_l _ _ _ _ D Hk) as (ctop & Hctop & _ & Hp & _).
    split; [intros E; rewrite E in Hctop; exact Hctop |].
    exists ctop. split; [exact Hctop |]. rewrite Hp. exact G.
Qed.

Lemma offer_is_coherent_witness :
  exists bestPlan,
    In bestPlan (planStore Sample.offline) /\
    highestDiscountRate
      {| offerSegmentName := "vip";
         offerPlanName := "gold";
         offerCollections :=
           [{| colId := "1"; colTitle := "Collection 1"; colName := "Collection 1";
               colHandle := ""; colPercentOff := Some (JS.num 15) |}];
         highestDiscountRate := JS.num 15 |}
    = Spec.planMax bestPlan.
Proof.
  destruct (offer_is_coherent Loader Sample.offline
              (CustomerData (Some "9") (Some ["VIP"]) "")
              {| offerSegmentName := "vip";
                 offerPlanName := "gold";
                 offerCollections :=
                   [{| colId := "1"; colTitle := "Collection 1"; colName := "Collection 1";
                       colHandle := ""; colPercentOff := Some (JS.num 15) |}];
                 highestDiscountRate := JS.num 15 |} eq_refl)
    as (bestPlan & Hin & _ & _ & _ & Hmax & _).
  exists bestPlan. split; [exact Hin | exact Hmax].
Defined.

(** A plan whose only rule is named "constructor" is offered with its
    rate and without a collection. *)
Example offer_without_collections :
  handle Loader
    {| planStore := [Sample.plan "gold" "vip" [Sample.rule "constructor" 10]];
       adminSession := None;
       storeApi := StoreThrows |}
    (CustomerData (Some "9") (Some ["VIP"]) "")
  = Success (Applicable {| offerSegmentName := "vip";
                           offerPlanName := "gold";
                           offerCollections := [];
                           highestDiscountRate := JS.num 10 |}).
Proof. reflexivity. Qed.

End OfferCoherence.

(** * Further properties of the identifiers *)

Section Identifiers.

Import Order.

Lemma allDigits_string_of_uint (d : Decimal.uint) :
  JS.allDigits (NilEmpty.string_of_uint d) = true.
Proof. induction d; simpl; auto. Qed.

Lemma showInt_digits (n : Z) :
  (0 <= n)%Z -> JS.allDigits (JS.showInt n) = true /\ JS.showInt n <> "".
Proof.
  intros Hn. unfold JS.showInt. destruct n as [| p | p]; [split; [reflexivity | discriminate] | | lia].
  cbn [Z.to_int NilZero.string_of_int]. unfold NilZero.string_of_uint.
  destruct (Pos.to_uint p) eqn:E; try (split; [reflexivity | discriminate]);
    (split; [apply (allDigits_string_of_uint (_ u)) | discriminate]).
Qed.

Lemma digits_not_prefixed (c : ascii) (p s : string) :
  JS.isDigit c = false -> JS.allDigits s = true -> s <> "" ->
  JS.startsWith s (String c p) = false.
Proof.
  intros Hc Hs Hne. destruct s as [| c' s]; [congruence |].
  unfold JS.startsWith. cbn [String.prefix].
  destruct (ascii_dec c c') as [<- | _]; [| reflexivity].
  cbn [JS.allDigits] in Hs. rewrite Hc in Hs. discriminate.
Qed.

Lemma digitsOnly_digits (s : string) : JS.allDigits s = true -> JS.digitsOnly s = s.
Proof.
  induction s as [| c s IH]; [reflexivity |]. cbn [JS.allDigits JS.digitsOnly].
  intros H. apply andb_true_iff in H. destruct H as [Hc Hs].
  rewrite Hc, (IH Hs). reflexivity.
Qed.

Lemma isNumeric_digits (s : string) :
  JS.allDigits s = true -> s <> "" -> JS.isNumeric s = true.
Proof. intros H Hne. destruct s; [congruence | exact H]. Qed.

Lemma formatCustomerId_digits (s : string) :
  JS.allDigits s = true -> s <> "" -> formatCustomerId s = customerPrefix ++ s.
Proof.
  intros H Hne. unfold formatCustomerId, customerPrefix.
  rewrite (digits_not_prefixed "g"%char _ s eq_refl H Hne), (digitsOnly_digits s H). reflexivity.
Qed.

(** X16. A product or a variant given as a number (a non-negative safe
    integer) or as the decimal string of that number is normalised to the
    same identifier, the prefix of its kind followed by the digits; the
    same holds for a customer given by that string. *)
Theorem number_and_decimal_string_agree :
  forall n : Z,
    (0 <= n < 2 ^ 53)%Z ->
    formatProductId (IdStr (JS.showInt n)) = formatProductId (IdNum n)
    /\ formatVariantId (IdStr (JS.showInt n)) = formatVariantId (IdNum n)
    /\ formatCustomerId (JS.showInt n) = customerPrefix ++ JS.showInt n.
Proof.
  intros n [Hn _]. destruct (showInt_digits n Hn) as [Hd Hne].
  split; [| split].
  - unfold formatProductId, productPrefix.
    rewrite (digits_not_prefixed "g"%char _ _ eq_refl Hd Hne), (isNumeric_digits _ Hd Hne).
    reflexivity.
  - unfold formatVariantId, variantPrefix.
    rewrite (digits_not_prefixed "g"%char _ _ eq_refl Hd Hne), (digitsOnly_digits _ Hd).
    reflexivity.
  - apply formatCustomerId_digits; assumption.
Qed.

Lemma number_and_decimal_string_agree_witness :
  formatProductId (IdStr "7654321") = formatProductId (IdNum 7654321)
  /\ formatVariantId (IdStr "7654321") = formatVariantId (IdNum 7654321)
  /\ formatCustomerId "7654321" = "gid://shopify/Customer/7654321".
Proof.
  apply (number_and_decimal_string_agree 7654321). lia.
Defined.

(** The handler uses the customer id through its normal form only. *)
Lemma action_customer_ext (w : World) (s a b : string) (cart : CartInput) :
  formatCustomerId a = formatCustomerId b ->
  isEmptyString a = isEmptyString b ->
  action w (mkRequest s a cart) = action w (mkRequest s b cart).
Proof.
  intros Hf He.
  unfold action, resolve, settle, fetchCustomerData, createDraftOrder.
  cbn [shop customerId cartItems]. rewrite Hf, He. reflexivity.
Qed.

(** X17. The order path identifies the customer by the normalised id: the
    bare number and the full identifier of a customer give the same answer
    and the same calls, and so do two unprefixed ids with the same digits,
    whatever else they contain. *)
Theorem customer_is_identified_by_the_digits :
  forall (w : World) (s : string) (cart : CartInput),
    (forall x, JS.allDigits x = true -> x <> "" ->
       action w (mkRequest s (customerPrefix ++ x) cart)
       = action w (mkRequest s x cart))
    /\ (forall a b, a <> "" -> b <> "" ->
          JS.startsWith a customerPrefix = false ->
          JS.startsWith b customerPrefix = false ->
          JS.digitsOnly a = JS.digitsOnly b ->
          action w (mkRequest s a cart) = action w (mkRequest s b cart)).
Proof.
  intros w s cart. split.
  - intros x Hx Hne. apply action_customer_ext.
    + rewrite (formatCustomerId_digits x Hx Hne).
      apply formatCustomerId_canonical, prefix_append.
    + destruct x; [congruence | reflexivity].
  - intros a b Ha Hb Pa Pb Hd. apply action_customer_ext.
    + unfold formatCustomerId. rewrite Pa, Pb, Hd. reflexivity.
    + destruct a; [congruence |]. destruct b; [congruence | reflexivity].
Qed.

Lemma customer_is_identified_by_the_digits_witness :
  action (Sample.world Sample.customerVip Sample.inCollection1)
    (mkRequest "shop.example" "gid://shopify/Customer/9" (CartArray [Sample.item 100 2]))
  = action (Sample.world Sample.customerVip Sample.inCollection1)
      (mkRequest "shop.example" "9" (CartArray [Sample.item 100 2]))
  /\ action (Sample.world Sample.customerVip Sample.inCollection1)
       (mkRequest "shop.example" "customer #9" (CartArray [Sample.item 100 2]))
     = action (Sample.world Sample.customerVip Sample.inCollection1)
         (mkRequest "shop.example" "9" (CartArray [Sample.item 100 2])).
Proof.
  destruct (customer_is_identified_by_the_digits
              (Sample.world Sample.customerVip Sample.inCollection1)
              "shop.example" (CartArray [Sample.item 100 2])) as [H1 H2].
  split.
  - apply (H1 "9"); [reflexivity | discriminate].
  - apply (H2 "customer #9" "9"); first [discriminate | reflexivity].
Defined.









End Identifiers.

(** * Further properties of the rule map and of the simple offer *)

Section KeyOrder.

Import Offer.

Lemma keys_step (m : Resolver.RuleMap) (r : Rule) :
  Resolver.ownKeys (Resolver.step m r)
  = match Resolver.get (categoryId r) m with
    | Some _ => Resolver.ownKeys m
    | None =>
        if Resolver.isPrototypeMember (categoryId r) then Resolver.ownKeys m
        else (Resolver.ownKeys m ++ [categoryId r])%list
    end.
Proof.
  unfold Resolver.step, Resolver.read.
  destruct (Resolver.get (categoryId r) m) as [existing |] eqn:G.
  - destruct (JS.gt (percentOff r) existing); [| reflexivity].
    rewrite keys_set, G. reflexivity.
  - destruct (Resolver.isPrototypeMember (categoryId r)); [reflexivity |].
    rewrite keys_set, G. reflexivity.
Qed.

Lemma keys_fold (rs : list Rule) (m : Resolver.RuleMap) (seen : list string) :
  Derived.plainCategories rs ->
  (forall k, In k seen <-> In k (Resolver.ownKeys m)) ->
  Resolver.ownKeys (fold_left Resolver.step rs m)
  = (Resolver.ownKeys m ++ Derived.firstOccurrences seen rs)%list.
Proof.
  intros Hplain. revert m seen.
  induction Hplain as [| r rs Hr _ IH]; intros m seen Hseen.
  - cbn [fold_left Derived.firstOccurrences]. rewrite app_nil_r. reflexivity.
  - cbn [fold_left Derived.firstOccurrences].
    destruct (Resolver.get (categoryId r) m) as [v |] eqn:G.
    + assert (Hin : existsb (String.eqb (categoryId r)) seen = true).
      { apply existsb_eqb_In, Hseen. exact (get_Some_ownKeys _ _ _ G). }
      rewrite Hin. rewrite (IH (Resolver.step m r) seen).
      * rewrite keys_step, G. reflexivity.
      * intros k. rewrite keys_step, G. apply Hseen.
    + assert (Hin : existsb (String.eqb (categoryId r)) seen = false).
      { apply existsb_eqb_not_In. intros H. apply Hseen in H.
        exact (get_None_keys _ _ G H). }
      rewrite Hin. rewrite (IH (Resolver.step m r) (categoryId r :: seen)).
      * rewrite keys_step, G, Hr, <- app_assoc. reflexivity.
      * intros k. rewrite keys_step, G, Hr, in_app_iff. cbn [In].
        rewrite (Hseen k). tauto.
Qed.

Lemma firstOccurrences_In (seen : list string) (rs : list Rule) (k : string) :
  In k (Derived.firstOccurrences seen rs) -> exists r, In r rs /\ categoryId r = k.
Proof.
  revert seen. induction rs as [| r rs IH]; intros seen; [intros [] |].
  cbn [Derived.firstOccurrences].
  destruct (existsb (String.eqb (categoryId r)) seen).
  - intros H. destruct (IH _ H) as (r' & Hr' & E). exists r'. split; [right |]; assumption.
  - intros [<- | H]; [exists r; split; [left |]; reflexivity |].
    destruct (IH _ H) as (r' & Hr' & E). exists r'. split; [right |]; assumption.
Qed.

Lemma not_numeric_not_index (k : string) :
  JS.isNumeric k = false -> Resolver.isArrayIndex k = false.
Proof.
  intros H. unfold Resolver.isArrayIndex, Resolver.arrayIndex. rewrite H. reflexivity.
Qed.

Lemma describes_ids (ruleMap : Resolver.RuleMap) (keys : list string)
  (cs : list Collection) :
  Forall2 (Derived.describes ruleMap) keys cs -> map colId cs = map numericIdOf keys.
Proof.
  induction 1 as [| k c keys cs (Hid & _) _ IH]; [reflexivity |].
  cbn [map]. rewrite Hid, IH. reflexivity.
Qed.

(** X19. For category ids that are neither plain numbers (array indices
    are enumerated first, in ascending order) nor names of members of
    [Object.prototype] (rules so named are not kept), the keys of the rule
    map come in the order in which the categories first occur among the
    rules of the plan, and the collections of an offer follow that order in
    both handlers and in the simple offer, whatever the metadata. *)
Theorem collections_follow_the_first_occurrences :
  forall (rules : list Rule),
    Forall (fun r => JS.isNumeric (categoryId r) = false) rules ->
    Derived.plainCategories rules ->
    Resolver.Object_keys (Resolver.resolveRules rules)
    = Derived.firstOccurrences [] rules
    /\ (forall w storeUrl,
          map colId (actionCollections w storeUrl (Resolver.resolveRules rules))
          = map numericIdOf (Derived.firstOccurrences [] rules))
    /\ (forall w,
          map colId (loaderCollections w (Resolver.resolveRules rules))
          = map numericIdOf (Derived.firstOccurrences [] rules))
    /\ map SimpleOffer.colId (SimpleOffer.collectionsOf (Resolver.resolveRules rules))
       = map numericIdOf (Derived.firstOccurrences [] rules).
Proof.
  intros rules Hnum Hplain.
  assert (O : Resolver.ownKeys (Resolver.resolveRules rules)
              = Derived.firstOccurrences [] rules).
  { unfold Resolver.resolveRules. rewrite (keys_fold rules [] [] Hplain); [reflexivity |].
    intros k. reflexivity. }
  assert (K : Resolver.Object_keys (Resolver.resolveRules rules)
              = Derived.firstOccurrences [] rules).
  { rewrite <- O. apply Object_keys_plain. rewrite O.
    apply List.Forall_forall. intros k Hk.
    destruct (firstOccurrences_In _ _ _ Hk) as (r & Hr & <-).
    apply not_numeric_not_index.
    exact (proj1 (List.Forall_forall _ _) Hnum r Hr). }
  split; [exact K |]. rewrite <- K. split; [| split].
  - intros w storeUrl.
    exact (describes_ids _ _ _ (collections_describe Action w storeUrl _)).
  - intros w. exact (describes_ids _ _ _ (collections_describe Loader w "" _)).
  - unfold SimpleOffer.collectionsOf. rewrite map_map. reflexivity.
Qed.

Lemma collections_follow_the_first_occurrences_witness :
  Resolver.Object_keys
    (Resolver.resolveRules
       [Sample.rule "gid://shopify/Collection/2" 5;
        Sample.rule "gid://shopify/Collection/1" 10;
        Sample.rule "gid://shopify/Collection/2" 20])
  = ["gid://shopify/Collection/2"; "gid://shopify/Collection/1"].
Proof.
  apply (collections_follow_the_first_occurrences
           [Sample.rule "gid://shopify/Collection/2" 5;
            Sample.rule "gid://shopify/Collection/1" 10;
            Sample.rule "gid://shopify/Collection/2" 20]).
  - repeat constructor.
  - repeat constructor.
Defined.

(** Array indices come first and in ascending order, whatever the order of
    the rules. *)
Example array_indices_are_enumerated_first :
  Resolver.Object_keys
    (Resolver.resolveRules [Sample.rule "c1" 5; Sample.rule "20" 10; Sample.rule "3" 20])
  = ["3"; "20"; "c1"].
Proof. reflexivity. Qed.

End KeyOrder.

Section SimpleOfferProperties.

Import SimpleOffer.

Lemma customerNumericId_bare (x : string) :
  JS.startsWith x "gid://" = false -> customerNumericId x = x.
Proof.
  intros H. unfold customerNumericId. rewrite H. apply removeFirst_append.
Qed.

Lemma customerNumericId_gid (x : string) :
  customerNumericId (customerPrefix ++ x) = x.
Proof.
  unfold customerNumericId.
  replace (JS.startsWith (customerPrefix ++ x) "gid://") with true by reflexivity.
  apply removeFirst_append.
Qed.

Lemma handle_customer (w : World) (customer : Customer) :
  handle w (CustomerData customer)
  = match customerId customer, customerTags customer with
    | Some id, Some _ =>
        if isFalsy id then Error 400 "Customer object must contain id and tags"
        else
          match customerSegments w (customerNumericId (toString id)) with
          | None => NotApplicable customer
          | Some [] => NotApplicable customer
          | Some segmentIds =>
              let discountPlans := PlanStore.findManyIn (planStore w) segmentIds in
              if Matcher.isEmpty discountPlans then NotApplicable customer
              else
                match Selector.selectBestPlan discountPlans with
                | None => NotApplicable customer
                | Some (bestPlan, bestPlanMaxPercent) =>
                    Applicable
                      {| offerSegmentName := targetKey bestPlan;
                         offerPlanName := planName bestPlan;
                         offerCollections :=
                           collectionsOf (Resolver.resolveRules (rules bestPlan));
                         highestDiscountRate := bestPlanMaxPercent |}
                      customer
                end
          end
    | _, _ => Error 400 "Customer object must contain id and tags"
    end.
Proof. reflexivity. Qed.

(** X20. The simple offer looks the customer up by the bare id: for a
    customer given by the full customer identifier and the same customer
    given by the bare id the answers carry the same offer and fail with the
    same error, and every success answer repeats the customer object of its
    own request. An offer it makes is for a segment the local table lists
    for that customer: it names a plan of the store keyed by one of the
    customer's segment ids, with a positive highestDiscountRate equal to the
    greatest percentOff of the plan's rules; each collection of the offer is
    named "Collection " followed by its numeric id and carries the
    percentOff of a rule of the plan; and where no categoryId of the plan is
    the name of a member every object inherits, the offer lists at least one
    collection. *)
Theorem simple_offer_is_for_a_segment_of_the_customer :
  forall (w : World),
    (forall x email name tags,
        x <> "" -> JS.startsWith x "gid://" = false ->
        let full := CustomerData (mkCustomer (Some (IdStr (customerPrefix ++ x))) email name tags) in
        let bare := CustomerData (mkCustomer (Some (IdStr x)) email name tags) in
        offerOf (handle w full) = offerOf (handle w bare) /\
        (forall status message,
            handle w full = Error status message <-> handle w bare = Error status message))
    /\
    (forall customer echoed,
        customerOf (handle w (CustomerData customer)) = Some echoed -> echoed = customer)
    /\
    (forall customer offer echoed,
        handle w (CustomerData customer) = Applicable offer echoed ->
        exists id segmentIds bestPlan,
          customerId customer = Some id /\
          customerSegments w (customerNumericId (toString id)) = Some segmentIds /\
          In bestPlan (planStore w) /\ targetType bestPlan = "segment" /\
          In (targetKey bestPlan) segmentIds /\
          offerSegmentName offer = targetKey bestPlan /\
          offerPlanName offer = planName bestPlan /\
          highestDiscountRate offer = Spec.planMax bestPlan /\
          (JS.num 0 < highestDiscountRate offer)%Qc /\
          (Derived.plainCategories (rules bestPlan) -> offerCollections offer <> []) /\
          (forall c, In c (offerCollections offer) ->
             colName c = "Collection " ++ colId c /\
             exists r, In r (rules bestPlan) /\
                       colPercentOff c = Some (percentOff r) /\
                       (percentOff r <= highestDiscountRate offer)%Qc)).
Proof.
  intros w. split; [| split].
  - intros x email name tags Hne Hx full bare. subst full bare.
    rewrite !handle_customer. cbv zeta.
    cbn [customerId customerTags isFalsy toString].
    rewrite customerNumericId_gid, (customerNumericId_bare x Hx).
    destruct x as [| c x]; [congruence |].
    replace (String.eqb (customerPrefix ++ String c x) "") with false by reflexivity.
    cbn [String.eqb].
    destruct tags as [tags |]; [| split; [reflexivity | intros; split; intros E; exact E]].
    destruct (customerSegments w (String c x)) as [[| s segmentIds] |];
      try (split; [reflexivity | intros; split; discriminate]).
    destruct (Matcher.isEmpty (PlanStore.findManyIn (planStore w) (s :: segmentIds)));
      [split; [reflexivity | intros; split; discriminate] |].
    destruct (Selector.selectBestPlan (PlanStore.findManyIn (planStore w) (s :: segmentIds)))
      as [[bestPlan m] |];
      split; try reflexivity; intros; split; discriminate.
  - intros customer echoed. rewrite handle_customer.
    destruct (customerId customer) as [id |]; [| discriminate].
    destruct (customerTags customer) as [tags |]; [| discriminate].
    destruct (isFalsy id); [discriminate |].
    cbv zeta.
    destruct (customerSegments w (customerNumericId (toString id)))
      as [[| s segmentIds] |]; try (cbn; congruence).
    destruct (Matcher.isEmpty (PlanStore.findManyIn (planStore w) (s :: segmentIds)));
      [cbn; congruence |].
    destruct (Selector.selectBestPlan (PlanStore.findManyIn (planStore w) (s :: segmentIds)))
      as [[bestPlan m] |]; cbn; congruence.
  - intros customer offer echoed H. rewrite handle_customer in H. cbv zeta in H.
    destruct (customerId customer) as [id |] eqn:Hid; [| discriminate H].
    destruct (customerTags customer) as [tags |]; [| discriminate H].
    destruct (isFalsy id); [discriminate H |].
    destruct (customerSegments w (customerNumericId (toString id)))
      as [[| s segmentIds] |] eqn:Hseg; try discriminate H.
    destruct (Matcher.isEmpty (PlanStore.findManyIn (planStore w) (s :: segmentIds)));
      [discriminate H |].
    destruct (Selector.selectBestPlan (PlanStore.findManyIn (planStore w) (s :: segmentIds)))
      as [[bestPlan m] |] eqn:Hsel; [| discriminate H].
    inversion H; subst offer echoed; clear H.
    cbn [offerSegmentName offerPlanName highestDiscountRate offerCollections].
    destruct (selectBestPlan_Some _ _ _ Hsel) as (Hin & -> & Hpos & Hrules).
    apply findManyIn_In in Hin. destruct Hin as (Hstore & Htype & Hkey).
    exists id, (s :: segmentIds), bestPlan.
    split; [reflexivity |]. split; [exact Hseg |]. split; [exact Hstore |].
    split; [exact Htype |].
    split; [exact Hkey |]. split; [reflexivity |]. split; [reflexivity |].
    split; [exact (proj1 (planMax_positive bestPlan Hpos)) |]. split; [exact Hpos |].
    split.
    + intros Hplain.
      destruct (planMax_attained bestPlan Hpos) as (top & Htop & _).
      assert (Hp : Resolver.isPrototypeMember (categoryId top) = false)
        by exact (proj1 (List.Forall_forall _ _) Hplain top Htop).
      destruct (resolveRules_of_rule _ _ Htop Hp) as (v & G & _).
      apply get_Some_keys in G. unfold collectionsOf.
      destruct (Resolver.Object_keys (Resolver.resolveRules (rules bestPlan)));
        [destruct G | discriminate].
    + intros c Hc. unfold collectionsOf in Hc. apply in_map_iff in Hc.
      destruct Hc as (k & <- & Hk). cbn [colName colId colPercentOff].
      split; [reflexivity |].
      destruct (keys_get_Some _ _ Hk) as (v & G). rewrite G.
      destruct (resolveRules_value _ _ _ G) as (r & Hr & _ & <-).
      exists r. split; [exact Hr |]. split; [reflexivity | apply planMax_ge_rule, Hr].
Qed.

Lemma simple_offer_is_for_a_segment_of_the_customer_witness :
  offerOf (handle Sample.simpleWorld
             (CustomerData (mkCustomer (Some (IdStr "gid://shopify/Customer/9"))
                              (Some "vip@example.com") None (Some ["VIP"]))))
  = offerOf (handle Sample.simpleWorld
               (CustomerData (mkCustomer (Some (IdStr "9"))
                                (Some "vip@example.com") None (Some ["VIP"]))))
  /\ exists id segmentIds bestPlan,
       Some (IdStr "9") = Some id /\
       customerSegments Sample.simpleWorld (customerNumericId (toString id))
       = Some segmentIds /\
       In bestPlan (planStore Sample.simpleWorld) /\
       In (targetKey bestPlan) segmentIds /\
       (Derived.plainCategories (rules bestPlan) ->
        [{| colId := "1"; colName := "Collection 1";
            colPercentOff := Some (JS.num 15) |}] <> []).
Proof.
  destruct (simple_offer_is_for_a_segment_of_the_customer Sample.simpleWorld)
    as (H1 & _ & H3).
  split.
  - apply (H1 "9" (Some "vip@example.com") None (Some ["VIP"]));
      [discriminate | reflexivity].
  - destruct (H3 (mkCustomer (Some (IdStr "9")) (Some "vip@example.com") None (Some ["VIP"]))
                {| offerSegmentName := "gid://shopify/Segment/1";
                   offerPlanName := "gold";
                   offerCollections :=
                     [{| colId := "1"; colName := "Collection 1";
                         colPercentOff := Some (JS.num 15) |}];
                   highestDiscountRate := JS.num 15 |}
                (mkCustomer (Some (IdStr "9")) (Some "vip@example.com") None (Some ["VIP"]))
                eq_refl)
      as (id & segmentIds & bestPlan & Hid & Hs & Hin & _ & Hk & _ & _ & _ & _ & Hne & _).
    exists id, segmentIds, bestPlan.
    split; [exact Hid |]. split; [exact Hs |]. split; [exact Hin |].
    split; [exact Hk | exact Hne].
Defined.

End SimpleOfferProperties.

(** * Properties of the storefront script *)

Section StorefrontScript.

Import Storefront.

Lemma fetchOffer_fresh (env : Env) (c : Customer) (id : string) (now later : Z) :
  customerId c = Some id -> id <> "" ->
  fetchOffer env (Some c) now later NoItem
  = match backend env (payloadOf env c) with
    | OkBody (Some json) =>
        (Some (normalize c json),
         setCachedOffer (writable env) later (normalize c json) NoItem,
         [payloadOf env c])
    | _ => (None, NoItem, [payloadOf env c])
    end.
Proof.
  intros Hid Hne. unfold fetchOffer. rewrite Hid.
  destruct id as [| a id]; [congruence |]. cbn [getCachedOffer].
  destruct (backend env (payloadOf env c)) as [| st | [json |]]; reflexivity.
Qed.

Lemma fetchOffer_cached (env : Env) (c : Customer) (id : string) (now later t0 : Z)
  (o : OfferObj) :
  customerId c = Some id -> id <> "" ->
  fetchOffer env (Some c) now later (Item (Some t0) (Some o))
  = if (now - t0 >? CACHE_TTL_MS)%Z
    then fetchOffer env (Some c) now later NoItem
    else (Some o, Item (Some t0) (Some o), []).
Proof.
  intros Hid Hne. unfold fetchOffer. rewrite Hid.
  destruct id as [| a id]; [congruence |]. cbn [getCachedOffer].
  destruct (now - t0 >? CACHE_TTL_MS)%Z; reflexivity.
Qed.

(** X21. The cache of the script is kept per browser session, not per
    customer. After an offer was fetched with an empty cache and stored,
    every later request made for a customer with an id, whoever it is,
    within five minutes of the time of storing, is answered with that stored
    offer and without asking the backend; after five minutes the entry is
    dropped and the backend is asked as with an empty cache. *)
Theorem cached_offer_is_served_for_five_minutes :
  forall (env : Env) (c1 : Customer) (now1 later1 : Z) (o : OfferObj)
         (storage1 : Stored) (calls1 : list Payload),
    writable env = true ->
    fetchOffer env (Some c1) now1 later1 NoItem = (Some o, storage1, calls1) ->
    calls1 = [payloadOf env c1] /\
    storage1 = Item (Some later1) (Some o) /\
    forall (c2 : Customer) (id : string) (now2 later2 : Z),
      customerId c2 = Some id -> id <> "" ->
      ((now2 - later1 <= 5 * 60 * 1000)%Z ->
       fetchOffer env (Some c2) now2 later2 storage1 = (Some o, storage1, []))
      /\
      ((now2 - later1 > 5 * 60 * 1000)%Z ->
       fetchOffer env (Some c2) now2 later2 storage1
       = fetchOffer env (Some c2) now2 later2 NoItem).
Proof.
  intros env c1 now1 later1 o storage1 calls1 Hw H.
  assert (Hid : exists id, customerId c1 = Some id /\ id <> "").
  { unfold fetchOffer in H. destruct (customerId c1) as [[| a id] |]; try discriminate H.
    eexists. split; [reflexivity | discriminate]. }
  destruct Hid as (id1 & Hid1 & Hne1).
  rewrite (fetchOffer_fresh env c1 id1 now1 later1 Hid1 Hne1) in H.
  destruct (backend env (payloadOf env c1)) as [| st | [json |]]; try discriminate H.
  unfold setCachedOffer in H. rewrite Hw in H.
  assert (Ho : o = normalize c1 json) by congruence.
  assert (Hs : storage1 = Item (Some later1) (Some (normalize c1 json))) by congruence.
  assert (Hc : calls1 = [payloadOf env c1]) by congruence.
  subst o storage1 calls1.
  split; [reflexivity |]. split; [reflexivity |].
  intros c2 id now2 later2 Hid Hne.
  rewrite (fetchOffer_cached env c2 id now2 later2 later1 _ Hid Hne).
  unfold CACHE_TTL_MS. split; intros Ht.
  - destruct (Z.gtb_spec (now2 - later1) (5 * 60 * 1000)) as [G | G]; [lia | reflexivity].
  - destruct (Z.gtb_spec (now2 - later1) (5 * 60 * 1000)) as [G | G]; [reflexivity | lia].
Qed.

Lemma cached_offer_is_served_for_five_minutes_witness :
  exists o storage1,
    fetchOffer Sample.shopPage (Some Sample.shopper) 1000 1200 NoItem
    = (Some o, storage1, [payloadOf Sample.shopPage Sample.shopper]) /\
    fetchOffer Sample.shopPage
      (Some {| customerId := Some "10"; customerEmail := None;
               customerName := None; customerTags := None |})
      300000 300500 storage1
    = (Some o, storage1, []).
Proof.
  eexists. eexists. split; [reflexivity |].
  destruct (cached_offer_is_served_for_five_minutes Sample.shopPage Sample.shopper
              1000 1200 _ _ _ eq_refl eq_refl) as (_ & _ & H).
  destruct (H {| customerId := Some "10"; customerEmail := None;
                 customerName := None; customerTags := None |}
              "10" 300000%Z 300500%Z eq_refl) as [H1 _]; [discriminate |].
  apply H1. vm_compute. discriminate.
Defined.

(** X22. A request that fails is not cached and a request is sent at most
    once: when the script has no offer to return, the storage holds what it
    held before or nothing, never a new entry, and the backend was asked at
    most once; it is not asked at all for a page without a customer or a
    customer without an id. *)
Theorem failed_fetch_is_not_cached :
  forall (env : Env) (customer : option Customer) (now later : Z) (storage : Stored),
    (length (snd (fetchOffer env customer now later storage)) <= 1)%nat
    /\ (fst (fst (fetchOffer env customer now later storage)) = None ->
        snd (fst (fetchOffer env customer now later storage)) = storage \/
        snd (fst (fetchOffer env customer now later storage)) = NoItem)
    /\ ((customer = None \/
         exists c, customer = Some c /\
                   (customerId c = None \/ customerId c = Some "")) ->
        fetchOffer env customer now later storage = (None, storage, [])).
Proof.
  intros env customer now later storage. split; [| split].
  - unfold fetchOffer. destruct customer as [c |]; [| cbn; lia].
    destruct (customerId c) as [[| a id] |]; try (cbn; lia).
    destruct (getCachedOffer now storage) as [[cached |] storage']; [cbn; lia |].
    destruct (backend env (payloadOf env c)) as [| st | [json |]]; cbn; lia.
  - unfold fetchOffer. destruct customer as [c |]; [| left; reflexivity].
    destruct (customerId c) as [[| a id] |]; try (left; reflexivity).
    destruct (getCachedOffer now storage) as [[cached |] storage'] eqn:G;
      [discriminate |].
    assert (Hs : storage' = storage \/ storage' = NoItem).
    { unfold getCachedOffer in G. destruct storage as [| | fetchedAt data].
      - injection G as <-. auto.
      - injection G as <-. auto.
      - destruct (_ >? _)%Z; inversion G; subst; auto. }
    destruct (backend env (payloadOf env c)) as [| st | [json |]];
      cbn [fst snd]; intros H; try exact Hs. discriminate H.
  - intros [-> | (c & -> & [Hc | Hc])]; unfold fetchOffer; try rewrite Hc; reflexivity.
Qed.

Lemma failed_fetch_is_not_cached_witness :
  fetchOffer Sample.shopPage
    (Some {| customerId := Some ""; customerEmail := None;
             customerName := None; customerTags := None |})
    1000 1200 Unreadable
  = (None, Unreadable, []).
Proof.
  apply (failed_fetch_is_not_cached Sample.shopPage
           (Some {| customerId := Some ""; customerEmail := None;
                    customerName := None; customerTags := None |})
           1000 1200 Unreadable).
  right. eexists. split; [reflexivity |]. right. reflexivity.
Defined.

End StorefrontScript.

Section StorefrontAndEndpoint.

Import Storefront.

(** The endpoint answers every customer that has an id and a tag list. *)
Lemma handle_answers (h : Offer.Handler) (w : Offer.World) (id : string)
  (tags : list string) (storeUrl : string) :
  id <> "" ->
  exists body,
    Offer.handle h w (Offer.CustomerData (Some id) (Some tags) storeUrl)
    = Offer.Success body.
Proof.
  intros Hne. destruct id as [| a id]; [congruence |]. unfold Offer.handle.
  destruct (Matcher.isEmpty _); [eauto |].
  destruct (Selector.selectBestPlan _) as [[bestPlan m] |]; eauto.
Qed.

Lemma offer_collections_described (h : Offer.Handler) (w : Offer.World)
  (req : Offer.Request) (o : Offer.OfferData) :
  Offer.handle h w req = Offer.Success (Offer.Applicable o) ->
  exists ruleMap,
    Forall2 (Derived.describes ruleMap) (Resolver.Object_keys ruleMap)
      (Offer.offerCollections o).
Proof.
  intros H. unfold Offer.handle in H.
  destruct req as [| | [[| c0 customerId] |] [tags |] storeUrl]; try discriminate H.
  destruct (Matcher.isEmpty _); [discriminate H |].
  destruct (Selector.selectBestPlan _) as [[bestPlan m] |] eqn:Hsel; [| discriminate H].
  injection H as <-. cbn [Offer.offerCollections].
  eexists. exact (collections_describe h w storeUrl (Resolver.resolveRules (rules bestPlan))).
Qed.

Lemma tagOf_shows (env : Env) (c : Offer.Collection) :
  Offer.colName c = Offer.colTitle c -> Offer.colTitle c <> "" ->
  Derived.tagShows env c (tagOf env (normalizeCollection (rawCollectionOf c))).
Proof.
  intros Hn Ht. unfold Derived.tagShows, tagOf, normalizeCollection, rawCollectionOf.
  cbn [colTitle colHandle colId colPercentOff rawTitle rawName rawHandle rawId
       rawPercentOff label href tagPercentOff].
  destruct (Offer.colTitle c) as [| a t] eqn:T; [congruence |].
  cbn [orString orText].
  split; [reflexivity |]. split; [discriminate |]. split; [reflexivity |].
  destruct (Offer.colHandle c); reflexivity.
Qed.

Lemma orText_planName (s : string) : orText (orString (orString (Some s) None) None) "" = s.
Proof. destruct s; reflexivity. Qed.

(** X23. The script and the endpoint together. For a page that is not
    initialised, has nothing cached and shows no marquee, and a customer
    with an id, the script sends one request, with the origin of the page
    as store URL and a tag list (empty when the customer has none), which
    the endpoint never rejects. When the endpoint reports no offer, no
    marquee is shown; nor is one shown when it reports an offer that lists
    no collection. When it reports an offer with collections, the marquee is
    shown with the plan name and one link for each collection of the offer,
    in the same order; each link shows the title of its collection, never an
    empty text, and its percentOff, and leads to the collection page of the
    shop, or to "#" when the endpoint could not learn the handle. *)
Theorem marquee_shows_the_offer_of_the_endpoint :
  forall (w : Offer.World) (env : Env) (window : Window) (p : Page)
         (customer : Customer) (id : string) (now later : Z),
    backend env = segmentOfferEndpoint w ->
    isInitialized p = false -> storage p = NoItem -> marquee p = None ->
    getCustomerData window = Some customer ->
    customerId customer = Some id -> id <> "" ->
    exists body,
      Offer.handle Offer.Action w
        (Offer.CustomerData (Some id) (Some (tagsOf customer)) (origin env))
      = Offer.Success body /\
      snd (init env window now later p) = [payloadOf env customer] /\
      match body with
      | Offer.NotApplicable => marquee (fst (init env window now later p)) = None
      | Offer.Applicable o =>
          match Offer.offerCollections o with
          | [] => marquee (fst (init env window now later p)) = None
          | _ :: _ =>
              exists m,
                marquee (fst (init env window now later p)) = Some m /\
                marqueePlanName m = Offer.offerPlanName o /\
                parts m <> [] /\
                Forall2 (Derived.tagShows env) (Offer.offerCollections o) (parts m)
          end
      end.
Proof.
  intros w env window p customer id now later Hb Hi Hs Hm Hc Hid Hne.
  destruct (handle_answers Offer.Action w id (tagsOf customer) (origin env) Hne)
    as (body & Hbody).
  exists body. split; [exact Hbody |].
  unfold init. rewrite Hi, Hc. cbn [storage]. rewrite Hs.
  rewrite (fetchOffer_fresh env customer id now later Hid Hne), Hb.
  unfold segmentOfferEndpoint.
  cbn [payloadOf payloadCustomer customerId customerTags payloadStoreUrl].
  rewrite Hid, Hbody. cbn [fst snd]. split; [reflexivity |].
  destruct body as [| o].
  - unfold shown, normalize, offerMember.
    cbn [jsonOffer rawOfferOf rawDiscountApplicable jsonDiscountApplicable nullish
         offer discountApplicable marquee]. exact Hm.
  - destruct (offer_collections_described _ _ _ _ Hbody) as (ruleMap & D).
    unfold shown, normalize, offerMember, renderMarquee.
    cbn [jsonOffer rawOfferOf rawDiscountApplicable jsonDiscountApplicable nullish
         rawCollections rawPlanName rawSegmentName jsonPlanName jsonSegment
         offer discountApplicable marquee collections planName segmentName negb].
    rewrite Hm.
    destruct (Offer.offerCollections o) as [| c cs] eqn:Ecs; [reflexivity |].
    cbn [map]. eexists. split; [reflexivity |].
    cbn [marqueePlanName parts]. split; [apply orText_planName |].
    split; [discriminate |].
    assert (T : forall c', In c' (c :: cs) ->
              Derived.tagShows env c' (tagOf env (normalizeCollection (rawCollectionOf c')))).
    { intros c' Hc'.
      destruct (Forall2_In_r _ _ _ _ D Hc') as (k & _ & _ & _ & Hn & Ht).
      apply tagOf_shows; assumption. }
    constructor; [apply T; left; reflexivity |].
    rewrite !map_map. apply Forall2_map_r. intros c' Hc'. apply T. right. exact Hc'.
Qed.

Lemma marquee_shows_the_offer_of_the_endpoint_witness :
  marquee (fst (init Sample.shopPage Sample.shopWindow 1000 1200 Sample.blankPage))
  = Some {| marqueeSegmentName := "vip";
            marqueePlanName := "gold";
            parts := [{| href := "#"; label := "Collection 1";
                         tagPercentOff := Some (JS.num 15) |}] |}
  /\ (exists body,
         Offer.handle Offer.Action Sample.offline
           (Offer.CustomerData (Some "9") (Some ["VIP"]) "https://shop.example")
         = Offer.Success body)
  /\ marquee
       (fst (init
               {| origin := "https://shop.example";
                  backend :=
                    segmentOfferEndpoint
                      {| Offer.planStore :=
                           [Sample.plan "gold" "vip" [Sample.rule "constructor" 10]];
                         Offer.adminSession := None;
                         Offer.storeApi := Offer.StoreThrows |};
                  writable := true |}
               Sample.shopWindow 1000 1200 Sample.blankPage))
     = None.
Proof.
  split; [reflexivity |]. split.
  - destruct (marquee_shows_the_offer_of_the_endpoint Sample.offline Sample.shopPage
                Sample.shopWindow Sample.blankPage Sample.shopper "9" 1000 1200
                eq_refl eq_refl eq_refl eq_refl eq_refl eq_refl)
      as (body & H & _); [discriminate |].
    exists body. exact H.
  - destruct (marquee_shows_the_offer_of_the_endpoint
                {| Offer.planStore :=
                     [Sample.plan "gold" "vip" [Sample.rule "constructor" 10]];
                   Offer.adminSession := None;
                   Offer.storeApi := Offer.StoreThrows |}
                {| origin := "https://shop.example";
                   backend :=
                     segmentOfferEndpoint
                       {| Offer.planStore :=
                            [Sample.plan "gold" "vip" [Sample.rule "constructor" 10]];
                          Offer.adminSession := None;
                          Offer.storeApi := Offer.StoreThrows |};
                   writable := true |}
                Sample.shopWindow Sample.blankPage Sample.shopper "9" 1000 1200
                eq_refl eq_refl eq_refl eq_refl eq_refl eq_refl)
      as (body & H & _ & Hm); [discriminate |].
    assert (E : body = Offer.Applicable
                         {| Offer.offerSegmentName := "vip";
                            Offer.offerPlanName := "gold";
                            Offer.offerCollections := [];
                            Offer.highestDiscountRate := JS.num 10 |}).
    { assert (E' : Offer.Success
                     (Offer.Applicable
                        {| Offer.offerSegmentName := "vip";
                           Offer.offerPlanName := "gold";
                           Offer.offerCollections := [];
                           Offer.highestDiscountRate := JS.num 10 |})
                   = Offer.Success body) by exact H.
      injection E' as <-. reflexivity. }
    rewrite E in Hm. exact Hm.
Defined.

Lemma shown_marquee (env : Env) (o : OfferObj) (p : Page) (s : Stored) (m : Marquee) :
  marquee p = Some m -> marquee (shown env o p s) = Some m.
Proof.
  intros H. unfold shown, renderMarquee. cbn [marquee]. rewrite H.
  destruct (discountApplicable (offer o)); reflexivity.
Qed.

(** X24. The page. Initialising twice is initialising once: after [init]
    the page is initialised, and a second [init] changes nothing and sends
    nothing. [refresh] does not read the cache: for a customer with an id it
    asks the backend exactly once, whatever is stored. Neither replaces a
    marquee that is already shown, so after a refresh the page still shows
    the marquee of the earlier offer. *)
Theorem init_runs_once_and_the_marquee_stays :
  forall (env : Env) (window : Window) (now later : Z) (p : Page),
    isInitialized (fst (init env window now later p)) = true
    /\ (forall now' later',
          init env window now' later' (fst (init env window now later p))
          = (fst (init env window now later p), []))
    /\ (forall customer id,
          getCustomerData window = Some customer ->
          customerId customer = Some id -> id <> "" ->
          snd (refresh env window now later p) = [payloadOf env customer])
    /\ (forall m,
          marquee p = Some m ->
          marquee (fst (init env window now later p)) = Some m /\
          marquee (fst (refresh env window now later p)) = Some m).
Proof.
  intros env window now later p.
  assert (I : isInitialized (fst (init env window now later p)) = true).
  { unfold init. destruct (isInitialized p) eqn:Hi; [exact Hi |].
    destruct (getCustomerData window) as [customer |]; [| reflexivity].
    cbn [storage].
    destruct (fetchOffer env (Some customer) now later (storage p))
      as [[[o |] s] calls]; reflexivity. }
  split; [exact I |]. split; [| split].
  - intros now' later'. unfold init at 1. rewrite I. reflexivity.
  - intros customer id Hc Hid Hne. unfold refresh. rewrite Hc.
    rewrite (fetchOffer_fresh env customer id now later Hid Hne).
    destruct (backend env (payloadOf env customer)) as [| st | [json |]]; reflexivity.
  - intros m Hm. split.
    + unfold init. destruct (isInitialized p); [exact Hm |].
      destruct (getCustomerData window) as [customer |]; [| exact Hm].
      cbn [storage].
      destruct (fetchOffer env (Some customer) now later (storage p))
        as [[[o |] s] calls]; cbn [fst]; [| exact Hm].
      apply shown_marquee. exact Hm.
    + unfold refresh. destruct (getCustomerData window) as [customer |]; [| exact Hm].
      destruct (fetchOffer env (Some customer) now later NoItem)
        as [[[o |] s] calls]; cbn [fst]; [| exact Hm].
      apply shown_marquee. exact Hm.
Qed.

Lemma init_runs_once_and_the_marquee_stays_witness :
  snd (refresh Sample.shopPage Sample.shopWindow 2000 2100
         (fst (init Sample.shopPage Sample.shopWindow 1000 1200 Sample.blankPage)))
  = [payloadOf Sample.shopPage Sample.shopper].
Proof.
  destruct (init_runs_once_and_the_marquee_stays Sample.shopPage Sample.shopWindow
              2000 2100
              (fst (init Sample.shopPage Sample.shopWindow 1000 1200 Sample.blankPage)))
    as (_ & _ & H & _).
  apply (H Sample.shopper "9"); [reflexivity | reflexivity | discriminate].
Defined.

End StorefrontAndEndpoint.

(** * Collection identifiers across the two paths *)

Section BareCategoryIds.

Import Order.

Lemma belongs_bare (w : World) (pid k : string) :
  Derived.reportsGids w -> JS.startsWith k collectionPrefix = false ->
  Spec.belongs w pid k = false.
Proof.
  intros Hw Hk. unfold Spec.belongs, checkProductInCollection.
  cbn [value mbind M_bind mret M_ret emit].
  destruct (productCollections w pid k) as [| | [cs |]] eqn:E; try reflexivity.
  apply not_true_is_false. intros Hex. apply existsb_eqb_In in Hex.
  pose proof (proj1 (List.Forall_forall _ _) (Hw pid k cs E) k Hex) as Hp.
  cbn beta in Hp. congruence.
Qed.

Lemma qualifies_bare (w : World) (rules : list Rule) (items : list CartItem) :
  Derived.reportsGids w ->
  Forall (fun r => JS.startsWith (categoryId r) collectionPrefix = false) rules ->
  existsb (Spec.qualifies w rules) items = false.
Proof.
  intros Hw Hr. apply not_true_is_false. intros Hex.
  apply existsb_exists in Hex. destruct Hex as (item & _ & Hq).
  unfold Spec.qualifies in Hq. apply existsb_exists in Hq.
  destruct Hq as (r & Hin & Hq).
  rewrite (belongs_bare w _ _ Hw (proj1 (List.Forall_forall _ _) Hr r Hin)) in Hq.
  discriminate Hq.
Qed.

Lemma numericIdOf_bare (k : string) :
  JS.startsWith k collectionPrefix = false -> Offer.numericIdOf k = k.
Proof. intros H. unfold Offer.numericIdOf. rewrite H. reflexivity. Qed.

(** X25. The two paths read collection identifiers differently. The order
    path compares the categoryId of a rule verbatim with the collections of
    the product, so with a catalog that names collections by their full
    identifiers a plan whose rules carry bare collection ids never gives a
    discount: a request that reaches the calculator is answered with
    discountApplicable false, no discount, a total discount of 0 and no
    draft-order call. The offer path accepts both forms: for the same rules
    every handler lists each of these collections, unless its id is the
    name of a member every object inherits, under its id with a percentOff
    at least that of the rule. *)
Theorem bare_category_ids_get_no_discount :
  forall (w : World) (req : Request) (ctx : Context),
    Derived.reportsGids w ->
    Forall (fun r => JS.startsWith (categoryId r) collectionPrefix = false)
      (rules (ctxPlan ctx)) ->
    value (resolve w req) = inr ctx ->
    (exists summary,
        value (action w req) = json (NoDiscountBody summary) /\
        sumApplicableDiscounts summary = [] /\
        sumTotalDiscountAmount summary = JS.num 0)
    /\ draftIssued (trace (action w req)) = false
    /\ (forall (h : Offer.Handler) (ow : Offer.World) (storeUrl : string) (r : Rule),
          In r (rules (ctxPlan ctx)) ->
          Resolver.isPrototypeMember (categoryId r) = false ->
          exists c v,
            In c (Derived.collectionsFor h ow storeUrl
                    (Resolver.resolveRules (rules (ctxPlan ctx)))) /\
            Offer.colId c = categoryId r /\
            Offer.colPercentOff c = Some v /\
            (percentOff r <= v)%Qc).
Proof.
  intros w req ctx Hw Hr E.
  pose proof (qualifies_bare w _ (ctxItems ctx) Hw Hr) as Hq.
  split; [| split].
  - rewrite (action_without_discount w req ctx E Hq). eexists.
    split; [reflexivity |]. split; reflexivity.
  - rewrite (action_trace_inr w req ctx E).
    rewrite discountsOf_nil in Hq.
    destruct (Spec.discountsOf w (rules (ctxPlan ctx)) (ctxItems ctx));
      [| discriminate Hq].
    rewrite app_nil_r. unfold draftIssued. rewrite existsb_app.
    fold (draftIssued (Derived.lookupCalls w req (ctxSegment ctx))).
    fold (draftIssued (Spec.membershipCalls (rules (ctxPlan ctx)) (ctxItems ctx))).
    rewrite lookupCalls_no_draft, membershipCalls_no_draft. reflexivity.
  - intros h ow storeUrl r Hin Hp'.
    destruct (resolveRules_of_rule _ _ Hin Hp') as (v & G & Hle).
    pose proof (collections_describe h ow storeUrl
                  (Resolver.resolveRules (rules (ctxPlan ctx)))) as D.
    destruct (Forall2_In_l _ _ _ _ D (get_Some_keys _ _ _ G))
      as (c & Hc & Hid & Hp & _).
    exists c, v. split; [destruct h; exact Hc |].
    split; [rewrite Hid; apply numericIdOf_bare;
            exact (proj1 (List.Forall_forall _ _) Hr r Hin) |].
    split; [rewrite Hp; exact G | exact Hle].
Qed.

Lemma bare_category_ids_get_no_discount_witness :
  (exists summary,
      value (action Sample.worldBareIds (Sample.request (CartArray [Sample.item 100 2])))
      = json (NoDiscountBody summary))
  /\ exists c v,
       In c (Derived.collectionsFor Offer.Loader Sample.offline ""
               (Resolver.resolveRules [Sample.rule "1" 15])) /\
       Offer.colId c = "1" /\ Offer.colPercentOff c = Some v /\
       (JS.num 15 <= v)%Qc.
Proof.
  destruct (bare_category_ids_get_no_discount Sample.worldBareIds
              (Sample.request (CartArray [Sample.item 100 2]))
              {| ctxItems := [Sample.item 100 2];
                 ctxSegment := Sample.segmentVip;
                 ctxPlan := Sample.plan "gold" "gid://shopify/Segment/1"
                              [Sample.rule "1" 15] |})
    as ((summary & Hs & _) & _ & H3).
  - intros pid k cs [= <-]. repeat constructor.
  - repeat constructor.
  - reflexivity.
  - split; [exists summary; exact Hs |].
    exact (H3 Offer.Loader Sample.offline "" (Sample.rule "1" 15)
             (or_introl eq_refl) eq_refl).
Defined.

End BareCategoryIds.

(** * Properties of the CORS helpers *)

Section CorsHeaders.

Import Cors.

Ltac header_names :=
  unfold addCorsHeaders, handleCorsPreflight, set, get, delete;
  repeat match goal with
         | |- context [JS.toLowerCase ?s] =>
             match s with
             | String _ _ =>
                 let l := eval vm_compute in (JS.toLowerCase s) in
                 change (JS.toLowerCase s) with l
             end
         end.

Lemma addCorsHeaders_lookup (response : HttpResponse) (request : option HttpRequest)
  (k : string) :
  headers (addCorsHeaders response request) !! k
  = if String.eqb k "content-security-policy" then Some frameAncestors
    else if String.eqb k "x-frame-options" then None
    else if String.eqb k "access-control-allow-credentials" then Some "true"
    else if String.eqb k "access-control-max-age" then Some "86400"
    else if String.eqb k "access-control-allow-headers" then Some allowHeaders
    else if String.eqb k "access-control-allow-methods" then Some allowMethods
    else if String.eqb k "access-control-allow-origin" then Some (originOf request)
    else headers response !! k.
Proof.
  header_names. cbn [headers].
  repeat match goal with
         | |- context [String.eqb k ?s] =>
             destruct (String.eqb_spec k s) as [-> | ?];
             [ repeat first [ rewrite lookup_insert_eq
                            | rewrite lookup_delete_eq
                            | rewrite lookup_insert_ne by discriminate
                            | rewrite lookup_delete_ne by discriminate ];
               reflexivity
             | ]
         end.
  repeat first [ rewrite lookup_insert_ne by congruence
               | rewrite lookup_delete_ne by congruence ].
  reflexivity.
Qed.

(** X26. [addCorsHeaders] keeps the status, the status text, the body and
    every header it does not name. Whatever the response carried before, the
    result allows the origin of the request (any origin; "*" without a
    request or an origin header) together with credentials, and has no
    X-Frame-Options header. Applying it twice is applying it once. Only an
    OPTIONS request is answered by [handleCorsPreflight], with status 204
    and the same access-control and content-security headers. *)
Theorem cors_headers_are_set_whatever_the_response :
  forall (response : HttpResponse) (request : option HttpRequest),
    status (addCorsHeaders response request) = status response
    /\ statusText (addCorsHeaders response request) = statusText response
    /\ body (addCorsHeaders response request) = body response
    /\ (forall name, ~ In (JS.toLowerCase name) touched ->
          get name (headers (addCorsHeaders response request))
          = get name (headers response))
    /\ get "Access-Control-Allow-Origin" (headers (addCorsHeaders response request))
       = Some (originOf request)
    /\ get "Access-Control-Allow-Credentials" (headers (addCorsHeaders response request))
       = Some "true"
    /\ get "X-Frame-Options" (headers (addCorsHeaders response request)) = None
    /\ addCorsHeaders (addCorsHeaders response request) request
       = addCorsHeaders response request
    /\ (forall rq, handleCorsPreflight rq = None <-> method rq <> "OPTIONS")
    /\ (forall rq p name,
          handleCorsPreflight rq = Some p ->
          In (JS.toLowerCase name) touched ->
          JS.toLowerCase name <> "x-frame-options" ->
          status p = 204%Z /\
          get name (headers p)
          = get name (headers (addCorsHeaders response (Some rq)))).
Proof.
  intros response request.
  split; [reflexivity |]. split; [reflexivity |]. split; [reflexivity |].
  split; [| split; [| split; [| split; [| split; [| split]]]]].
  - intros name Hn. unfold get. rewrite addCorsHeaders_lookup.
    unfold touched in Hn. cbn [In] in Hn.
    repeat match goal with
           | |- context [String.eqb ?a ?s] =>
               destruct (String.eqb_spec a s) as [E | ?];
               [exfalso; apply Hn; rewrite E;
                repeat first [left; reflexivity | right] |]
           end.
    reflexivity.
  - unfold get. rewrite addCorsHeaders_lookup. reflexivity.
  - unfold get. rewrite addCorsHeaders_lookup. reflexivity.
  - unfold get. rewrite addCorsHeaders_lookup. reflexivity.
  - destruct (addCorsHeaders response request) as [st tx h b] eqn:E.
    assert (Hh : h = headers (addCorsHeaders response request)) by (rewrite E; reflexivity).
    unfold addCorsHeaders at 1. cbn [status statusText body headers].
    f_equal. apply map_eq. intros k.
    pose proof (addCorsHeaders_lookup {| status := st; statusText := tx;
                                         headers := h; body := b |} request k) as L.
    unfold addCorsHeaders in L. cbn [headers] in L. rewrite L. clear L.
    rewrite Hh, addCorsHeaders_lookup.
    repeat match goal with
           | |- context [String.eqb k ?s] => destruct (String.eqb k s); [reflexivity |]
           end.
    reflexivity.
  - intros rq. unfold handleCorsPreflight.
    destruct (String.eqb_spec (method rq) "OPTIONS") as [E | E]; split;
      intros H; congruence.
  - intros rq p name Hp Hn Hx. unfold handleCorsPreflight in Hp.
    destruct (String.eqb (method rq) "OPTIONS"); [| discriminate Hp].
    injection Hp as <-. split; [reflexivity |].
    unfold get. rewrite addCorsHeaders_lookup.
    unfold set. cbn [headers].
    repeat match goal with
           | |- context [JS.toLowerCase ?s] =>
               match s with
               | String _ _ =>
                   let l := eval vm_compute in (JS.toLowerCase s) in
                   change (JS.toLowerCase s) with l
               end
           end.
    unfold touched in Hn. cbn [In] in Hn.
    destruct Hn as [E | [E | [E | [E | [E | [E | [E | []]]]]]]];
      rewrite <- E in *; try congruence;
      repeat first [ rewrite lookup_insert_eq
                   | rewrite lookup_insert_ne by discriminate ];
      reflexivity.
Qed.

Lemma cors_headers_are_set_whatever_the_response_witness :
  get "x-custom"
    (headers (addCorsHeaders
                {| status := 200; statusText := "OK";
                   headers := {["x-custom" := "1"]}; body := None |}
                None))
  = Some "1"
  /\ handleCorsPreflight {| method := "POST"; requestHeaders := ∅ |} = None.
Proof.
  destruct (cors_headers_are_set_whatever_the_response
              {| status := 200; statusText := "OK";
                 headers := {["x-custom" := "1"]}; body := None |} None)
    as (_ & _ & _ & H & _ & _ & _ & _ & Hp & _).
  split.
  - rewrite (H "x-custom"); [reflexivity |].
    vm_compute. intros [E | [E | [E | [E | [E | [E | [E | []]]]]]]]; discriminate E.
  - apply Hp. discriminate.
Defined.

End CorsHeaders.

(** * Instances of the properties above *)

Section Instances.

Import Order.

Lemma applied_rate_is_the_resolved_rate_witness :
  Resolver.get "gid://shopify/Collection/1"
    (Resolver.resolveRules (rules Sample.planVip))
  = Some (snd (value (bestDiscountFor
                        (Sample.world Sample.customerVip Sample.inCollection1)
                        "gid://shopify/Product/1" (rules Sample.planVip)))).
Proof.
  destruct (applied_rate_is_the_resolved_rate
              (Sample.world Sample.customerVip Sample.inCollection1)
              (rules Sample.planVip) "gid://shopify/Product/1") as [H _].
  - apply NoDup_ListNoDup. repeat constructor. intros [].
  - repeat constructor.
  - apply (H (Sample.rule "gid://shopify/Collection/1" 15)). reflexivity.
Defined.


End Instances.

(** * The segment that decides *)

Section FirstSegment.

Import Order.

(** X27. Only the first matching segment counts. A request that reaches the
    calculator uses a segment plan of the store keyed by the id or the name
    of the first segment of the catalog whose name is one of the customer's
    tags. When that segment has no plan, the answer is "no discount plan",
    without a draft-order call, whatever plans the other segments of the
    customer have. *)
Theorem only_the_first_matching_segment_counts :
  forall (w : World) (req : Request),
    (forall ctx,
        value (resolve w req) = inr ctx ->
        exists customerData segments before after,
          value (fetchCustomerData w (customerId req)) = Some customerData /\
          value (fetchSegments w) = Some segments /\
          segments = (before ++ ctxSegment ctx :: after)%list /\
          In (segmentName (ctxSegment ctx)) (customerTags customerData) /\
          (forall s, In s before -> ~ In (segmentName s) (customerTags customerData)) /\
          In (ctxPlan ctx) (planStore w) /\
          targetType (ctxPlan ctx) = "segment" /\
          (targetKey (ctxPlan ctx) = segmentId (ctxSegment ctx) \/
           targetKey (ctxPlan ctx) = segmentName (ctxSegment ctx)))
    /\
    (forall token customerData segments first,
        Derived.malformed req = false ->
        sessions w (shop req) = Some token ->
        value (fetchCustomerData w (customerId req)) = Some customerData ->
        value (fetchSegments w) = Some segments ->
        Matcher.matchSegment segments (customerTags customerData) = Some first ->
        PlanStore.findFirst (planStore w) (segmentId first) = None ->
        PlanStore.findFirst (planStore w) (segmentName first) = None ->
        value (action w req) = json NoPlanBody /\
        draftIssued (trace (action w req)) = false).
Proof.
  intros w req. split.
  - intros ctx E.
    destruct (resolve_inr w req ctx E)
      as (_ & _ & _ & Hplan & _ & customerData & segments & Hc & Hs & Hm).
    exists customerData, segments.
    unfold Matcher.matchSegment in Hm. apply find_first in Hm.
    destruct Hm as (before & after & Eseg & Hx & Hb).
    exists before, after. split; [exact Hc |]. split; [exact Hs |].
    split; [exact Eseg |]. split; [apply existsb_eqb_In, Hx |].
    split; [intros s Hin; apply existsb_eqb_not_In, Hb, Hin |].
    rewrite findPlanFor_value in Hplan.
    destruct (PlanStore.findFirst (planStore w) (segmentId (ctxSegment ctx)))
      as [plan |] eqn:F.
    + injection Hplan as <-. apply findFirst_some in F. tauto.
    + apply findFirst_some in Hplan. tauto.
  - intros token customerData segments first Hmal Hs Hc Hseg Hm F1 F2.
    destruct (wellformed_cart req Hmal) as (Hshop & Hcust & item & items & Hcart).
    assert (R : resolve w req
                = mkM (inl (json NoPlanBody))
                    (Derived.lookupCalls w req first ++ [PlanFindMany])).
    { rewrite (resolve_wellformed w req item items Hshop Hcust Hcart).
      rewrite Hs, Hc, Hseg, Hm, findPlanFor_value, F1, F2. reflexivity. }
    destruct (action_of_answer w req (json NoPlanBody)) as [Hv Ht];
      [rewrite R; reflexivity |].
    split; [exact Hv |]. rewrite Ht. apply resolve_no_draft.
Qed.

Lemma only_the_first_matching_segment_counts_witness :
  value (action Sample.worldTwoSegments (Sample.request (CartArray [Sample.item 100 2])))
  = json NoPlanBody
  /\ PlanStore.findFirst (planStore Sample.worldTwoSegments)
       (segmentId Sample.segmentVip) = Some Sample.planVip.
Proof.
  split; [| reflexivity].
  destruct (only_the_first_matching_segment_counts Sample.worldTwoSegments
              (Sample.request (CartArray [Sample.item 100 2]))) as [_ H].
  apply (H "token"
           {| customerGid := "gid://shopify/Customer/9"; customerTags := ["VIP"; "Gold"] |}
           [mkSegment "gid://shopify/Segment/2" "Gold"; Sample.segmentVip]
           (mkSegment "gid://shopify/Segment/2" "Gold")); reflexivity.
Defined.

End FirstSegment.

(** * The summary of an answer and the lines of a cart *)

Section SummaryAndLines.

Import Order.






Lemma discountsOf_app (w : World) (rules : list Rule) (items1 items2 : list CartItem) :
  Spec.discountsOf w rules (items1 ++ items2)
  = (Spec.discountsOf w rules items1 ++ Spec.discountsOf w rules items2)%list.
Proof. unfold Spec.discountsOf. apply flat_map_app. Qed.

Lemma sum_perm (l l' : list JS.number) :
  Permutation l l' -> Spec.sum l = Spec.sum l'.
Proof.
  induction 1 as [| x l l' _ IH | x y l | l l' l'' _ IH1 _ IH2]; cbn [Spec.sum].
  - reflexivity.
  - rewrite IH. reflexivity.
  - ring.
  - rewrite IH1. exact IH2.
Qed.

(** X29. Cart lines are discounted independently of one another. The
    discounts of a cart made of two parts are those of the first part
    followed by those of the second, so the discount of a line is the one
    the line gets in a cart of its own; and reordering the lines of a cart
    reorders its discounts: the same discounts are recorded, as many times
    each. *)
Theorem cart_lines_are_priced_independently :
  forall (w : World) (rules : list Rule) (items1 items2 : list CartItem),
    applicableDiscounts (value (computeDiscounts w rules (items1 ++ items2)))
    = (applicableDiscounts (value (computeDiscounts w rules items1))
       ++ applicableDiscounts (value (computeDiscounts w rules items2)))%list
    /\ (forall item,
          In item items1 ->
          incl (applicableDiscounts (value (computeDiscounts w rules [item])))
               (applicableDiscounts (value (computeDiscounts w rules items1))))
    /\ (forall items',
          Permutation items1 items' ->
          Permutation (applicableDiscounts (value (computeDiscounts w rules items1)))
                      (applicableDiscounts (value (computeDiscounts w rules items')))
          /\ length (applicableDiscounts (value (computeDiscounts w rules items1)))
             = length (applicableDiscounts (value (computeDiscounts w rules items')))).
Proof.
  intros w rules items1 items2. rewrite !computeDiscounts_value.
  cbn [applicableDiscounts].
  split; [apply discountsOf_app |]. split.
  - intros item Hitem. rewrite computeDiscounts_value. cbn [applicableDiscounts].
    intros d Hd. unfold Spec.discountsOf in Hd |- *.
    apply in_flat_map in Hd. destruct Hd as (item' & [<- | []] & Hd).
    apply in_flat_map. exists item. split; [exact Hitem | exact Hd].
  - intros items' P. rewrite computeDiscounts_value. cbn [applicableDiscounts].
    assert (PD : Permutation (Spec.discountsOf w rules items1)
                   (Spec.discountsOf w rules items')).
    { unfold Spec.discountsOf. apply Permutation_flat_map, P. }
    split; [exact PD | apply Permutation_length, PD].
Qed.

Lemma cart_lines_are_priced_independently_witness :
  length
    (applicableDiscounts
       (value (computeDiscounts (Sample.world Sample.customerVip Sample.inCollection1)
                 (rules Sample.planVip) [Sample.item 100 2; Sample.item 50 1])))
  = length
      (applicableDiscounts
         (value (computeDiscounts (Sample.world Sample.customerVip Sample.inCollection1)
                   (rules Sample.planVip) [Sample.item 50 1; Sample.item 100 2]))).
Proof.
  destruct (cart_lines_are_priced_independently
              (Sample.world Sample.customerVip Sample.inCollection1)
              (rules Sample.planVip) [Sample.item 100 2; Sample.item 50 1] [])
    as (_ & _ & H).
  destruct (H [Sample.item 50 1; Sample.item 100 2]) as (_ & Hd).
  - apply perm_swap.
  - exact Hd.
Defined.

End SummaryAndLines.
